(** * Link rediscovery engine (rediscover_employment_links_v3.py)

    A shallow embedding of the rediscovery engine and the properties its
    specification states about it.

    Modelling conventions.
    - A Python [str] is a [string]: a sequence of characters with code
      points below 256.  [lower] and [strip] follow Python on that range.
    - A record ([Dict[str, Any]]) and a report row are finite maps from
      keys to JSON scalars ([value]).  Fields the code reads as text
      (["ATS or Platform (if known)"], ["Notes"], ["Town"]) hold text or
      null, as the data model has them.
    - The functions of urllib, requests and BeautifulSoup are the fields
      of an environment [Env]; every general theorem holds for all of
      them.  [requests.get] either answers or raises a transport error;
      the network is a function of the URL.  Concrete models of the
      library functions ([PyLib]) are used only to evaluate the engine on
      concrete inputs.  The library functions are total: inputs on which
      urllib raises (a malformed bracketed host) are outside the model.
    - Effects: the engine runs in a state monad whose state logs every
      outbound fetch and counts clock readings.  [time.sleep] has no
      effect on the state. *)

From Stdlib Require Import ZArith String Ascii List Bool Lia Permutation Sorted.
From stdpp Require Import base option gmap strings pretty.
Import ListNotations.
Local Open Scope string_scope.
Local Open Scope Z_scope.

(** ** Python strings *)

Module Py.

Definition code (c : ascii) : N := N_of_ascii c.

(** [str.lower] on one character: A-Z, and the Latin-1 capitals
    U+00C0..U+00DE except the multiplication sign U+00D7. *)
Definition lower_char (c : ascii) : ascii :=
  let n := code c in
  if ((65 <=? n) && (n <=? 90))%N
     || ((192 <=? n) && (n <=? 222) && negb (n =? 215))%N
  then ascii_of_N (n + 32) else c.

Fixpoint lower (s : string) : string :=
  match s with
  | EmptyString => EmptyString
  | String c r => String (lower_char c) (lower r)
  end.

(** [str.isspace] on one character. *)
Definition isspace (c : ascii) : bool :=
  let n := code c in
  (((9 <=? n) && (n <=? 13)) || ((28 <=? n) && (n <=? 32))
   || (n =? 133) || (n =? 160))%N.

Fixpoint lstrip (s : string) : string :=
  match s with
  | EmptyString => EmptyString
  | String c r => if isspace c then lstrip r else s
  end.

Fixpoint rstrip (s : string) : string :=
  match s with
  | EmptyString => EmptyString
  | String c r =>
      match rstrip r with
      | EmptyString => if isspace c then EmptyString else String c EmptyString
      | r' => String c r'
      end
  end.

Definition strip (s : string) : string := rstrip (lstrip s).

(** [s.startswith(p)] *)
Fixpoint startswith (p s : string) : bool :=
  match p, s with
  | EmptyString, _ => true
  | String a p', String b s' => Ascii.eqb a b && startswith p' s'
  | String _ _, EmptyString => false
  end.

(** [needle in hay] *)
Fixpoint contains (needle hay : string) : bool :=
  startswith needle hay ||
  match hay with
  | EmptyString => false
  | String _ r => contains needle r
  end.

(** [s.endswith(suf)] *)
Fixpoint endswith (suf s : string) : bool :=
  String.eqb s suf ||
  match s with
  | EmptyString => false
  | String _ r => endswith suf r
  end.

(** [s.split(sep)[0]] for a one-character separator. *)
Fixpoint before_first (sep : ascii) (s : string) : string :=
  match s with
  | EmptyString => EmptyString
  | String c r => if Ascii.eqb c sep then EmptyString
                  else String c (before_first sep r)
  end.

(** [s.split(sep, 1)[1]] when [sep] occurs, [None] otherwise. *)
Fixpoint after_first (sep : ascii) (s : string) : option string :=
  match s with
  | EmptyString => None
  | String c r => if Ascii.eqb c sep then Some r else after_first sep r
  end.

(** [s[:n]] *)
Fixpoint take (n : N) (s : string) : string :=
  match s with
  | EmptyString => EmptyString
  | String c r => if (n =? 0)%N then EmptyString
                  else String c (take (N.pred n) r)
  end.

(** [s[n:]] *)
Fixpoint drop (n : nat) (s : string) : string :=
  match n, s with
  | O, _ => s
  | S n', String _ r => drop n' r
  | S _, EmptyString => EmptyString
  end.

Definition nonempty (s : string) : bool := negb (String.eqb s "").

(** [sep.join(l)] *)
Fixpoint join (sep : string) (l : list string) : string :=
  match l with
  | [] => ""
  | [x] => x
  | x :: r => x ++ sep ++ join sep r
  end.

(** [s.split()]: the maximal runs of characters that are not white
    space.  [cur] is the run being read. *)
Fixpoint split_ws_aux (cur : string) (s : string) : list string :=
  match s with
  | EmptyString => if nonempty cur then [cur] else []
  | String c r =>
      if isspace c
      then (if nonempty cur then cur :: split_ws_aux "" r
            else split_ws_aux "" r)
      else split_ws_aux (cur ++ String c "") r
  end.

Definition split_ws (s : string) : list string := split_ws_aux "" s.

Definition isdigit (c : ascii) : bool :=
  let n := code c in ((48 <=? n) && (n <=? 57))%N.

(** [any(k in s for k in ks)] *)
Definition any_in (ks : list string) (s : string) : bool :=
  existsb (fun k => contains k s) ks.

End Py.

Import Py.

(** ** Configuration tables *)

Definition REDISCOVER_IF_SOFT404_TRUE : bool := true.

Definition CIVICPLUS_COMMON_PATHS : list string :=
  [ "/Jobs.aspx"; "/jobs.aspx";
    "/Employment"; "/employment";
    "/Employment-Opportunities"; "/employment-opportunities";
    "/Careers"; "/careers";
    "/Human-Resources"; "/human-resources";
    "/QuickLinks.aspx"; "/quicklinks.aspx";
    "/211/Departments" ].

Definition KW_EMPLOYMENT : list string :=
  [ "employment"; "employment opportunities";
    "jobs"; "job"; "job openings"; "job opportunities";
    "careers"; "career opportunities";
    "human resources"; "hr";
    "vacancies"; "openings";
    "apply"; "application" ].

Definition KW_STRONG_LABELS : list string :=
  [ "employment opportunities"; "job openings";
    "career opportunities"; "human resources" ].

Definition KW_NEGATIVE : list string :=
  [ "departments"; "department"; "about"; "contact"; "news"; "calendar";
    "events"; "agenda"; "minutes"; "meetings"; "boards"; "commissions" ].

Definition ATS_HINTS : list string :=
  [ "governmentjobs.com"; "neogov.com"; "appone.com"; "paycomonline.net";
    "jobapscloud.com"; "frontlineeducation.com"; "applitrack.com" ].

Definition SOCIAL_BLOCK : list string :=
  [ "facebook.com"; "twitter.com"; "x.com"; "instagram.com";
    "youtube.com"; "linkedin.com" ].

(** The alternatives of [SOFT404_RE]; the expression is their
    case-insensitive alternation. *)
Definition SOFT404_ALTERNATIVES : list string :=
  [ "page not found"; "404"; "the page you requested";
    "does not exist"; "not be found" ].

Definition BLOCKED_PATTERNS : list string :=
  [ "checking your browser"; "ddos protection"; "attention required";
    "cloudflare"; "please enable javascript"; "enable javascript";
    "enable cookies"; "access denied"; "temporarily unavailable";
    "verify you are human" ].

Definition APPLICATION_HINTS : list string :=
  [ "application for employment"; "employment application";
    "job application"; "application"; "fillable"; "empapp";
    "employment-app" ].

(** The inline token list of [score_candidate] and of the confidence
    computation. *)
Definition URL_TOKENS : list string :=
  [ "employment"; "jobs"; "careers"; "human-resources" ].

Definition PATH_SOURCES : list string :=
  [ "civicplus_path"; "civiclift_path"; "granicus_path" ].

(** [SOFT404_RE.search(text)]: every alternative is a literal made of
    ASCII letters, digits and spaces, so a case-insensitive search is a
    search in the lowered text. *)
Definition SOFT404_RE_search (text : string) : bool :=
  any_in SOFT404_ALTERNATIVES (lower text).

(** [CIVICPLUS_PAGEID_RE.match(path)], the expression [^/\d{2,6}/]:
    a slash, a run of two to six digits, a slash.  [digits_then_slash n s]
    reads [s] after [n] digits have been seen. *)
Fixpoint digits_then_slash (n : nat) (s : string) : bool :=
  match s with
  | EmptyString => false
  | String c r =>
      if isdigit c then digits_then_slash (S n) r
      else Ascii.eqb c "/" && (2 <=? n)%nat && (n <=? 6)%nat
  end.

Definition CIVICPLUS_PAGEID_RE_match (path : string) : bool :=
  match path with
  | String c r => Ascii.eqb c "/" && digits_then_slash 0 r
  | EmptyString => false
  end.

(** ** JSON values, records and report rows *)

Inductive value : Type :=
| VNone
| VBool (b : bool)
| VInt (z : Z)
| VStr (s : string).

#[global] Instance value_eq_dec : EqDecision value.
Proof. solve_decision. Defined.

(** Python truthiness. *)
Definition truthy (v : value) : bool :=
  match v with
  | VNone => false
  | VBool b => b
  | VInt z => negb (z =? 0)
  | VStr s => nonempty s
  end.

(** [str(v)], as an f-string formats it. *)
Definition py_str (v : value) : string :=
  match v with
  | VNone => "None"
  | VBool true => "True"
  | VBool false => "False"
  | VInt z => pretty z
  | VStr s => s
  end.

(** [d.get(k)] *)
Definition dict_get (d : gmap string value) (k : string) : value :=
  default VNone (d !! k).

(** [(d.get(k) or "")] read as text. *)
Definition get_text (d : gmap string value) (k : string) : string :=
  match dict_get d k with
  | VStr s => s
  | _ => ""
  end.

(** [d.get(k) or ""] inside an f-string. *)
Definition get_fmt (d : gmap string value) (k : string) : string :=
  let v := dict_get d k in if truthy v then py_str v else "".

(** ** Helpers *)

(** [is_url(v)] *)
Definition is_url_str (s : string) : bool :=
  let l := lower (strip s) in
  startswith "http://" l || startswith "https://" l.

Definition is_url (v : value) : bool :=
  match v with
  | VStr s => is_url_str s
  | _ => false
  end.

Definition is_pdf (url : string) : bool :=
  endswith ".pdf" (before_first "?" (lower url)).

Fixpoint first_in (ps : list string) (h : string) : option string :=
  match ps with
  | [] => None
  | p :: r => if contains p h then Some p else first_in r h
  end.

Definition blocked_reason (html : string) : option string :=
  first_in BLOCKED_PATTERNS (lower html).

Definition is_social (url : string) : bool := any_in SOCIAL_BLOCK (lower url).

Definition is_ats (url : string) : bool := any_in ATS_HINTS (lower url).

Definition kw_hit (s : string) : bool := any_in KW_EMPLOYMENT (lower s).

(** Python [==] on JSON scalars: a boolean equals the integer 0 or 1. *)
Definition as_int (v : value) : option Z :=
  match v with
  | VInt z => Some z
  | VBool b => Some (if b then 1 else 0)
  | _ => None
  end.

Definition py_eq (a b : value) : bool :=
  match as_int a, as_int b with
  | Some x, Some y => x =? y
  | _, _ => bool_decide (a = b)
  end.

(** [v in s] for a set literal [s]. *)
Definition py_in (v : value) (s : list value) : bool := existsb (py_eq v) s.

Definition REDISCOVER_IF_STATUS_IN : list value :=
  [ VInt 404; VInt 410; VNone; VInt (-1) ].

Definition DO_NOT_REWRITE_IF_STATUS_IN : list value := [ VInt 401; VInt 403 ].

(** ** The environment: libraries and network *)

(** The parts of [urlparse]'s result that the engine reads. *)
Record ParseResult : Type := mkParse {
  scheme : string;
  netloc : string;
  path : string;
  query : string
}.

(** A [requests.Response]: final URL after redirects, status, the
    [Content-Type] header when present, and the body. *)
Record Response : Type := mkResponse {
  url : string;
  status_code : Z;
  content_type : option string;
  text : string
}.

(** An anchor element as BeautifulSoup hands it over: its [href]
    attribute, [get_text(" ", strip=True)], and the [aria-label] and
    [title] attributes ([None] when absent). *)
Record Anchor : Type := mkAnchor {
  a_href : option string;
  a_text : string;
  a_aria : option string;
  a_title : option string
}.

Record Env : Type := mkEnv {
  (** [urllib.parse.urlparse] *)
  urlparse : string -> ParseResult;
  (** [urllib.parse.urljoin] *)
  urljoin : string -> string -> string;
  (** [urllib.parse.urlencode] of a one-entry dictionary *)
  urlencode : string -> string -> string;
  (** [urllib.parse.parse_qs] *)
  parse_qs : string -> gmap string (list string);
  (** [urllib.parse.unquote] *)
  unquote : string -> string;
  (** [BeautifulSoup(html, "html.parser").select(selector)] *)
  soup_select : string -> string -> list Anchor;
  (** [requests.get] with the engine's fixed options: a response, or the
      message of the [RequestException] it raised. *)
  requests_get : string -> Response + string;
  (** the clock, by the number of earlier readings *)
  clock : nat -> string
}.

(** ** Effects *)

Record St : Type := mkSt {
  fetched : list string;   (* outbound fetches so far, oldest first *)
  clock_reads : nat
}.

Definition St0 : St := mkSt [] 0.

Definition M (A : Type) : Type := St -> A * St.

Definition ret {A} (a : A) : M A := fun s => (a, s).

Definition bind {A B} (m : M A) (k : A -> M B) : M B :=
  fun s => let (a, s') := m s in k a s'.

Notation "'do' x <- m ; k" := (bind m (fun x => k))
  (at level 10, x name, m at level 100, k at level 200).
Notation "'do' ' p <- m ; k" := (bind m (fun x => let 'p := x in k))
  (at level 10, p pattern, m at level 100, k at level 200).

(** [for x in l: acc = body(x, acc)] *)
Fixpoint for_each {A B} (body : A -> B -> M B) (l : list A) (acc : B) : M B :=
  match l with
  | [] => ret acc
  | x :: r => do acc' <- body x acc; for_each body r acc'
  end.

Section Engine.

Variable E : Env.

Definition now_utc_iso : M string :=
  fun s => (clock E (clock_reads s), mkSt (fetched s) (S (clock_reads s))).

(** [get(url)]: the transport error is caught and returned. *)
Definition get (u : string) : M (option Response * option string) :=
  fun s =>
    let s' := mkSt (fetched s ++ [u]) (clock_reads s) in
    match requests_get E u with
    | inl r => ((Some r, None), s')
    | inr e => ((None, Some e), s')
    end.

(** [looks_soft404(resp)] for a response that is not [None]. *)
Definition looks_soft404 (resp : Response) : bool :=
  if negb (status_code resp =? 200) then false
  else
    let ctype := lower (default "" (content_type resp)) in
    if negb (contains "text/html" ctype)
       && negb (contains "application/xhtml" ctype)
       && nonempty ctype
    then false
    else SOFT404_RE_search (take 250000 (text resp)).

Definition homepage (u : string) : option string :=
  if negb (nonempty (strip u)) then None
  else
    let p := urlparse E (strip u) in
    if negb (nonempty (scheme p)) || negb (nonempty (netloc p)) then None
    else Some (scheme p ++ "://" ++ netloc p ++ "/").

(** [host_norm(url)]; the [except] branch answers to [urlparse] raising,
    which the environment's total [urlparse] does not do. *)
Definition host_norm (u : string) : string :=
  let h := lower (netloc (urlparse E u)) in
  if startswith "www." h then drop 4 h else h.

Definition same_site (a b : string) : bool :=
  let ha := host_norm a in
  let hb := host_norm b in
  nonempty ha && String.eqb ha hb.

(** The loop body shared by [extract_links] and
    [extract_links_with_selector]. *)
Definition link_of_anchor (base_url : string) (a : Anchor)
  : option (string * string) :=
  let href := strip (default "" (a_href a)) in
  if negb (nonempty href) || startswith "#" href then None
  else
    let abs_url := urljoin E base_url href in
    let txt := join " " (split_ws (a_text a)) in
    let aria := strip (default "" (a_aria a)) in
    let title := strip (default "" (a_title a)) in
    let combined := strip (join " " (List.filter (fun x => nonempty x) [txt; aria; title])) in
    Some (abs_url, combined).

Definition extract_links_with_selector (base_url html selector : string)
  : list (string * string) :=
  omap (link_of_anchor base_url) (soup_select E selector html).

Definition extract_links (base_url html : string) : list (string * string) :=
  extract_links_with_selector base_url html "a[href]".

Definition civicplus_search_urls (base_home : string) : list string :=
  map (fun p => urljoin E base_home ("Search?" ++ urlencode E "searchPhrase" p))
      [ "employment"; "jobs"; "Employment Opportunities"; "human resources" ].

(** ** Platform detection *)

Inductive Platform : Type := civicplus | civiclift | granicus | other.

#[global] Instance Platform_eq_dec : EqDecision Platform.
Proof. solve_decision. Defined.

Definition platform_name (p : Platform) : string :=
  match p with
  | civicplus => "civicplus"
  | civiclift => "civiclift"
  | granicus => "granicus"
  | other => "other"
  end.

Definition detect_platform (rec : gmap string value) : Platform :=
  let known := lower (strip (get_text rec "ATS or Platform (if known)")) in
  if contains "civicplus" known then civicplus
  else if contains "civiclift" known then civiclift
  else if contains "granicus" known then granicus
  else
    let home := get_fmt rec "Town Website" in
    let emp := get_fmt rec "Employment Page URL" in
    let blob := lower (home ++ " " ++ emp) in
    if contains "civicplus.com" blob || contains "jobs.aspx" blob
       || contains "quicklinks.aspx" blob then civicplus
    else if contains "civiclift" blob then civiclift
    else if contains "granicus" blob then granicus
    else other.

(** ** Scorer *)

Definition score_candidate (u label base_home source : string) : Z :=
  if is_social u then -10000
  else
    let lu := lower u in
    let t := lower label in
    let s := 0 in
    let s := if same_site u base_home then s + 40 else s in
    let s := if is_ats u then s + 45 else s in
    let s := if bool_decide (source ∈ PATH_SOURCES) then s + 20 else s in
    let s := if kw_hit lu || kw_hit t then s + 50 else s in
    let s := if any_in KW_STRONG_LABELS t then s + 15 else s in
    let s := if CIVICPLUS_PAGEID_RE_match (path (urlparse E u))
                && (contains "employment" lu || contains "job" lu
                    || contains "career" lu)
             then s + 30 else s in
    let s := if is_pdf u then s - 25 else s in
    let s := if any_in URL_TOKENS lu then s + 10 else s in
    let s := if contains "jobs.aspx" lu then s + 20 else s in
    let s := if any_in KW_NEGATIVE lu && negb (kw_hit lu) then s - 15 else s in
    let s := if any_in KW_NEGATIVE t && negb (kw_hit t) then s - 10 else s in
    s.

(** ** Validator *)

(** [unwrap_granicus_splash(url)]; indexing an empty list raises
    [IndexError], which the [except] clause turns into [None]. *)
Definition unwrap_granicus_splash (u : string) : option string :=
  let qs := parse_qs E (query (urlparse E u)) in
  match qs !! "splash" with
  | None => None
  | Some [] => None
  | Some (splash :: _) =>
      if negb (nonempty splash) then None
      else
        let splash := unquote E splash in
        if is_url_str splash then Some splash else None
  end.

(** The verdict [(ok, final_url, reason, blocked_reason)]. *)
Definition Verdict : Type := bool * option string * string * option string.

(** The candidate's final URL after the vendor-path restoration. *)
Definition final_url (u : string) (resp : Response) : string :=
  let final := if nonempty (url resp) then url resp else u in
  if is_ats u
     && startswith "/careers/" (path (urlparse E u))
     && bool_decide (path (urlparse E final) ∈ [""; "/"])
  then u else final.

(** Step (5) of [validate_candidate]: the block signature that counts.
    Only HTML-like content is searched, and the two "enable javascript"
    notices are passed over on a vendor page. *)
Definition effective_block (final : string) (resp : Response) : option string :=
  let ctype := lower (default "" (content_type resp)) in
  let html := text resp in
  if contains "text/html" ctype || negb (nonempty ctype)
  then
    let block := blocked_reason html in
    if bool_decide (block ∈ [Some "enable javascript";
                             Some "please enable javascript"])
       && is_ats final
    then None else block
  else None.

(** Steps (4) to (9) of [validate_candidate]: the checks after the
    splash short-circuit. *)
Definition validate_checks (final base_home : string) (resp : Response) : Verdict :=
  if 400 <=? status_code resp
  then (false, Some final, "status_" ++ pretty (status_code resp), None)
  else
    match effective_block final resp with
    | Some b => (false, Some final, "blocked_or_interstitial", Some b)
    | None =>
        if looks_soft404 resp then (false, Some final, "soft404", None)
        else if is_social final then (false, Some final, "social_blocked", None)
        else if negb (same_site final base_home) && negb (is_ats final)
        then (false, Some final, "offsite_not_ats", None)
        else (true, Some final, "ok", None)
    end.

(** Step (3) of [validate_candidate]: the target of the splash wrapper
    when there is one and it is a vendor URL. *)
Definition splash_vendor_target (final : string) : option string :=
  match unwrap_granicus_splash final with
  | Some t => if nonempty t && is_ats t then Some t else None
  | None => None
  end.

(** [validate_candidate] from the response on. *)
Definition validate_response (u base_home : string) (resp : Response) : Verdict :=
  let final := final_url u resp in
  match splash_vendor_target final with
  | Some t => (true, Some t, "ok_granicus_splash_to_ats", None)
  | None => validate_checks final base_home resp
  end.

Definition validate_candidate (u base_home : string) : M Verdict :=
  do '(resp, err) <- get u;
  match resp with
  | None => ret (false, None, "fetch_error: " ++ default "None" err, None)
  | Some resp => ret (validate_response u base_home resp)
  end.

(** ** Candidate generation *)

(** A candidate [(url, label, source)]. *)
Definition Candidate : Type := string * string * string.

(** [p.lstrip("/")] *)
Fixpoint lstrip_slash (p : string) : string :=
  match p with
  | String c r => if Ascii.eqb c "/" then lstrip_slash r else p
  | EmptyString => EmptyString
  end.

(** [resp and resp.status_code < 400 and not looks_soft404(resp)]; a
    response is truthy when its status is below 400 or above 599. *)
Definition usable (resp : option Response) : bool :=
  match resp with
  | None => false
  | Some r => (status_code r <? 400) && negb (looks_soft404 r)
  end.

(** [for u, t in links: if keep(u, t): cand.append((u, t, src))] *)
Definition keep_links (keep : string -> string -> bool) (src : string)
    (links : list (string * string)) : list Candidate :=
  map (fun '(u, t) => (u, t, src)) (List.filter (fun '(u, t) => keep u t) links).

Definition NAV_FOOTER : string := "nav a[href], footer a[href]".

(** The homepage crawl shared by the four strategies: all links, then
    the links of the navigation and footer regions. *)
Definition homepage_crawl (keep : string -> string -> bool)
    (base_home : string) (h_resp : option Response) : list Candidate :=
  match h_resp with
  | Some r =>
      if usable h_resp then
        let page_url := if nonempty (url r) then url r else base_home in
        let html := text r in
        (keep_links keep "homepage_link" (extract_links page_url html)
         ++ keep_links keep "nav_footer_link"
              (extract_links_with_selector page_url html NAV_FOOTER))%list
      else []
  | None => []
  end.

Definition pageid_url (u : string) : bool :=
  CIVICPLUS_PAGEID_RE_match (path (urlparse E u)).

Definition civicplus_keep (u t : string) : bool :=
  kw_hit u || kw_hit t || pageid_url u.

Definition quicklinks_keep (u t : string) : bool :=
  kw_hit u || kw_hit t || contains "jobs.aspx" (lower u).

(** One round of the search crawl of [discover_civicplus]. *)
Definition civicplus_search_step (s_url : string) (cand : list Candidate)
  : M (list Candidate) :=
  do '(s_resp, _) <- get s_url;
  match s_resp with
  | Some r =>
      if usable s_resp
      then ret (cand ++ keep_links civicplus_keep "civicplus_search"
                          (extract_links (url r) (text r)))%list
      else ret cand
  | None => ret cand
  end.

(** Step 3 of [discover_civicplus]: the quick-links page. *)
Definition civicplus_quicklinks (base_home : string) (cand : list Candidate)
  : M (list Candidate) :=
  let ql := urljoin E base_home "QuickLinks.aspx" in
  do '(q_resp, _) <- get ql;
  match q_resp with
  | Some r =>
      if usable q_resp
      then ret (cand ++ keep_links quicklinks_keep "quicklinks"
                          (extract_links (url r) (text r)))%list
      else ret cand
  | None => ret cand
  end.

Definition CIVICPLUS_TEMPLATES (base_home : string) : list Candidate :=
  map (fun p => (urljoin E base_home (lstrip_slash p),
                 "CIVICPLUS_PATH:" ++ p, "civicplus_path"))
      CIVICPLUS_COMMON_PATHS.

Definition discover_civicplus (base_home : string) : M (list Candidate) :=
  let cand := CIVICPLUS_TEMPLATES base_home in
  do '(h_resp, _) <- get base_home;
  let cand := (cand ++ homepage_crawl civicplus_keep base_home h_resp)%list in
  do cand <- civicplus_quicklinks base_home cand;
  for_each civicplus_search_step (civicplus_search_urls base_home) cand.

Definition CIVICLIFT_PATHS : list string :=
  [ "/employment"; "/job-openings"; "/jobs"; "/career-opportunities"; "/careers" ].

Definition civiclift_keep (u t : string) : bool := kw_hit u || kw_hit t.

Definition CIVICLIFT_TEMPLATES (base_home : string) : list Candidate :=
  map (fun p => (urljoin E base_home (lstrip_slash p),
                 "CIVICLIFT_PATH:" ++ p, "civiclift_path"))
      CIVICLIFT_PATHS.

Definition discover_civiclift (base_home : string) : M (list Candidate) :=
  let cand := CIVICLIFT_TEMPLATES base_home in
  do '(h_resp, _) <- get base_home;
  let cand := (cand ++ homepage_crawl civiclift_keep base_home h_resp)%list in
  ret (cand ++ [(base_home, "CIVICLIFT_FALLBACK_HOME", "fallback_home")])%list.

Definition GRANICUS_PATHS : list string :=
  [ "/government/human-resources";
    "/government/human-resources/city-jobs"; "/jobs" ].

Definition granicus_keep (u t : string) : bool :=
  is_ats u || kw_hit u || kw_hit t.

Definition GRANICUS_TEMPLATES (base_home : string) : list Candidate :=
  map (fun p => (urljoin E base_home (lstrip_slash p),
                 "GRANICUS_PATH:" ++ p, "granicus_path"))
      GRANICUS_PATHS.

Definition discover_granicus (base_home : string) : M (list Candidate) :=
  do '(h_resp, _) <- get base_home;
  let cand := homepage_crawl granicus_keep base_home h_resp in
  ret (cand ++ GRANICUS_TEMPLATES base_home)%list.

Definition other_keep (u t : string) : bool :=
  kw_hit u || kw_hit t || contains "human resources" (lower t).

Definition discover_other (base_home : string) : M (list Candidate) :=
  do '(h_resp, _) <- get base_home;
  ret (homepage_crawl other_keep base_home h_resp).

(** [re.sub(r"[^a-z0-9]+", "", s)] *)
Fixpoint keep_alnum (s : string) : string :=
  match s with
  | EmptyString => EmptyString
  | String c r =>
      let n := code c in
      if (((97 <=? n) && (n <=? 122)) || isdigit c)%N
      then String c (keep_alnum r) else keep_alnum r
  end.

Definition granicus_ats_fallback_candidates (town : string) : list Candidate :=
  let slug := keep_alnum (lower town) in
  [ ("https://www.governmentjobs.com/careers/" ++ slug ++ "ct",
     "ATS_FALLBACK:governmentjobs_slug_ct", "ats_fallback");
    ("https://www.governmentjobs.com/careers/" ++ slug,
     "ATS_FALLBACK:governmentjobs_slug", "ats_fallback") ].

(** ** Application finder *)

Definition application_score (base_home u t : string) : Z :=
  let hay := lower (u ++ " " ++ t) in
  let s := if same_site u base_home then 20 else 0 in
  let s := fold_left (fun s hint => if contains hint hay then s + 25 else s)
                     APPLICATION_HINTS s in
  if contains "application" hay then s + 10 else s.

(** The selection loop: the first PDF link of strictly highest score. *)
Definition best_pdf_link (base_home : string) (pdfs : list (string * string))
  : option string * Z :=
  fold_left (fun '(best, best_score) '(u, t) =>
               let s := application_score base_home u t in
               if best_score <? s then (Some u, s) else (best, best_score))
            pdfs (None, -999).

Definition find_application_pdf (employment_url base_home : string)
  : M (option string * string) :=
  do '(resp, err) <- get employment_url;
  match resp with
  | None => ret (None, "employment_fetch_error: " ++ default "None" err)
  | Some r =>
      if (400 <=? status_code r) || looks_soft404 r
      then ret (None, "employment_not_ok: " ++ pretty (status_code r))
      else
        let ctype := lower (default "" (content_type r)) in
        if negb (contains "text/html" ctype) && nonempty ctype
        then ret (None, "employment_not_html")
        else
          let links :=
            extract_links (if nonempty (url r) then url r else employment_url)
                          (text r) in
          let pdfs := List.filter (fun '(u, _) => is_pdf u) links in
          match pdfs with
          | [] => ret (None, "no_pdf_links")
          | _ =>
              match best_pdf_link base_home pdfs with
              | (Some best, best_score) =>
                  if nonempty best && (35 <=? best_score)
                  then
                    do '(ok, final, reason, _) <- validate_candidate best base_home;
                    if ok
                    then ret (final, "application_pdf_found_on_employment_page")
                    else ret (None, "application_pdf_candidate_invalid:" ++ reason)
                  else ret (None, "no_confident_application_pdf_found")
              | (None, _) => ret (None, "no_confident_application_pdf_found")
              end
          end
  end.

(** ** Orchestrator *)

Definition should_attempt (rec : gmap string value) : bool :=
  let status := dict_get rec "employment_url_status_code" in
  let soft404 := truthy (dict_get rec "employment_url_soft404") in
  if py_in status DO_NOT_REWRITE_IF_STATUS_IN then false
  else if py_in status REDISCOVER_IF_STATUS_IN then true
  else if REDISCOVER_IF_SOFT404_TRUE && soft404 then true
  else false.

Definition update_record (rec : gmap string value) (new_emp : string)
    (platform : Platform) (change_reason : string) (confidence : Z)
    (discovery_method : string) (discovery_score : Z)
    (validation_reason : string) : M (gmap string value) :=
  let rec := <["platform_detected" := VStr (platform_name platform)]> rec in
  let rec := <["Employment Page URL" := VStr new_emp]> rec in
  let rec := <["employment_url_final" := VStr new_emp]> rec in
  do now <- now_utc_iso;
  let rec := <["employment_url_last_checked_at" := VStr now]> rec in
  let rec := <["employment_url_change_reason" := VStr change_reason]> rec in
  let rec := <["employment_url_confidence" := VInt confidence]> rec in
  let rec := <["employment_url_discovery_method" := VStr discovery_method]> rec in
  let rec := <["employment_url_discovery_score" := VInt discovery_score]> rec in
  let rec := <["employment_url_validation_reason" := VStr validation_reason]> rec in
  ret rec.

(** The de-duplication loop; [seen] is the set of URLs already kept. *)
Fixpoint dedupe_from (seen : gset string) (cand : list Candidate) : list Candidate :=
  match cand with
  | [] => []
  | (u, t, src) :: r =>
      if negb (is_url_str u) then dedupe_from seen r
      else
        let u := strip u in
        if bool_decide (u ∈ seen) then dedupe_from seen r
        else (u, t, src) :: dedupe_from ({[u]} ∪ seen) r
  end.

Definition dedupe (cand : list Candidate) : list Candidate := dedupe_from ∅ cand.

(** A scored candidate [(score, url, label, source)]. *)
Definition Scored : Type := Z * string * string * string.

Definition score_of (c : Scored) : Z := let '(s, _, _, _) := c in s.

(** [list.sort(reverse=True, key=score)]: Python's sort is stable, also
    with [reverse=True].  [insert_desc] puts [x], which came before every
    element of [l], in front of the first element that does not score
    strictly higher. *)
Fixpoint insert_desc (x : Scored) (l : list Scored) : list Scored :=
  match l with
  | [] => [x]
  | y :: r => if score_of x <? score_of y then y :: insert_desc x r
              else x :: y :: r
  end.

Fixpoint sort_desc (l : list Scored) : list Scored :=
  match l with
  | [] => []
  | x :: r => insert_desc x (sort_desc r)
  end.

Definition score_all (base_home : string) (deduped : list Candidate) : list Scored :=
  map (fun '(u, t, src) => (score_candidate u t base_home src, u, t, src)) deduped.

(** [(score, final_url, src, reason)] of the best accepted candidate. *)
Definition Best : Type := option (Z * string * string * string).

Definition better (s : Z) (b : Best) : bool :=
  match b with
  | None => true
  | Some (s0, _, _, _) => s0 <? s
  end.

(** The loop state: [best_html], [best_pdf], [last_blocked_reason]. *)
Definition LoopState : Type := Best * Best * option string.

Definition validate_step (base_home : string) (c : Scored) (acc : LoopState)
  : M LoopState :=
  let '(s, u, t, src) := c in
  let '(best_html, best_pdf, last_blocked_reason) := acc in
  if s <? 0 then ret acc
  else if is_social u then ret acc
  else
    do '(ok, final, why, blocked) <- validate_candidate u base_home;
    let last_blocked_reason :=
      match blocked with
      | Some b => if nonempty b then Some b else last_blocked_reason
      | None => last_blocked_reason
      end in
    match final with
    | Some f =>
        if negb ok || negb (nonempty f)
        then ret (best_html, best_pdf, last_blocked_reason)
        else if is_pdf f
        then ret (best_html,
                  if better s best_pdf then Some (s, f, src, why) else best_pdf,
                  last_blocked_reason)
        else ret (if better s best_html then Some (s, f, src, why) else best_html,
                  best_pdf, last_blocked_reason)
    | None => ret (best_html, best_pdf, last_blocked_reason)
    end.

Definition validate_top (base_home : string) (scored : list Scored) : M LoopState :=
  for_each (validate_step base_home) (firstn 40 scored) (None, None, None).

Definition confidence (new_emp : string) : Z :=
  let conf := 70 in
  let low := lower new_emp in
  let conf := if any_in URL_TOKENS low then conf + 15 else conf in
  let conf := if pageid_url new_emp then conf + 10 else conf in
  let conf := if is_ats new_emp then Z.max conf 85 else conf in
  let conf := if is_pdf new_emp then Z.min conf 75 else conf in
  Z.min conf 95.

Definition page_type (platform : Platform) (new_emp notes : string) : string :=
  if is_ats new_emp then "ats_vendor"
  else if bool_decide (platform = civicplus)
          && (contains "jobs.aspx" (lower new_emp) || pageid_url new_emp)
  then "module_page"
  else if contains "human-resources" (lower new_emp)
          || contains "human resources" (lower notes)
  then "hr_page"
  else if is_pdf new_emp then "pdf_posting"
  else "page".

(** [v or d] on values. *)
Definition or_else (v d : value) : value := if truthy v then v else d.

Definition text_of (v : value) : string :=
  match v with
  | VStr s => s
  | _ => ""
  end.

(** The first statements of [rediscover_for_town]: make ["Town Website"]
    the homepage. *)
Definition ensure_homepage (rec : gmap string value) : gmap string value :=
  let w := dict_get rec "Town Website" in
  let e := dict_get rec "Employment Page URL" in
  if is_url w
  then <["Town Website" := VStr (default (text_of w) (homepage (text_of w)))]> rec
  else if is_url e
  then <["Town Website" :=
           match homepage (text_of e) with
           | Some h => VStr h
           | None => w
           end]> rec
  else rec.

Definition gather (platform : Platform) (base_home town : string)
  : M (list Candidate) :=
  match platform with
  | civicplus => discover_civicplus base_home
  | civiclift => discover_civiclift base_home
  | granicus =>
      do cand <- discover_granicus base_home;
      ret (cand ++ granicus_ats_fallback_candidates town)%list
  | other => discover_other base_home
  end.

(** The optional refresh of the application form link. *)
Definition refresh_application (rec : gmap string value)
    (new_emp base_home : string) : M (gmap string value) :=
  if negb (is_pdf new_emp) && same_site new_emp base_home
  then
    do '(pdf, pdf_reason) <- find_application_pdf new_emp base_home;
    match pdf with
    | Some pdf =>
        if nonempty pdf
        then
          let rec :=
            match rec !! "Application Form URL (original)",
                  dict_get rec "Application Form URL" with
            | None, VStr a => <["Application Form URL (original)" := VStr a]> rec
            | _, _ => rec
            end in
          let rec := <["Application Form URL" := VStr pdf]> rec in
          let rec := <["application_url_final" := VStr pdf]> rec in
          do now <- now_utc_iso;
          let rec := <["application_url_last_checked_at" := VStr now]> rec in
          let rec := <["application_url_change_reason" := VStr pdf_reason]> rec in
          let rec := <["application_url_confidence" := VInt 85]> rec in
          ret rec
        else ret rec
    | None => ret rec
    end
  else ret rec.

(** A report row. *)
Definition row3 (town : value) (action reason : string) : gmap string value :=
  <["reason" := VStr reason]>
    (<["action" := VStr action]> (<["Town" := town]> ∅)).

(** [chosen = best_html or best_pdf] *)
Definition chosen_of (st : LoopState) : Best :=
  let '(best_html, best_pdf, _) := st in
  match best_html with
  | Some _ => best_html
  | None => best_pdf
  end.

(** The report rows of the four exits after the attempt gate. *)
Definition ephemeral_row (town pname : value) (base_home : string)
  : gmap string value :=
  <["employment_page_type" := VStr "ephemeral_posts"]>
    (<["confidence" := VInt 60]>
       (<["new_employment_url" := VStr base_home]>
          (<["platform" := pname]>
             (row3 town "updated"
                "no_stable_employment_page_detected_ephemeral_posts")))).

Definition review_row (town pname : value) : gmap string value :=
  <["platform" := pname]> (row3 town "needs_review" "no_candidate_validated").

Definition updated_row (town pname old_emp : value) (new_emp : string)
    (conf : Z) (src : string) (ptype : value) : gmap string value :=
  <["employment_page_type" := or_else ptype (VStr "")]>
    (<["source" := VStr src]>
       (<["confidence" := VInt conf]>
          (<["new_employment_url" := VStr new_emp]>
             (<["old_employment_url" := or_else old_emp (VStr "")]>
                (<["platform" := pname]>
                   (<["action" := VStr "updated"]>
                      (<["Town" := town]> ∅))))))).

(** The decision after the validation loop: the chosen candidate is
    persisted, or the record falls back to the ephemeral tag or to
    review. *)
Definition decide_outcome (rec : gmap string value) (town : value)
    (base_home : string) (platform : Platform) (st : LoopState)
  : M (gmap string value * gmap string value) :=
  let last_blocked_reason := snd st in
  let pname := VStr (platform_name platform) in
  match chosen_of st with
  | None =>
      if bool_decide (platform = civiclift)
      then
        let rec := <["employment_page_type" := VStr "ephemeral_posts"]> rec in
        ret (ephemeral_row town pname base_home, rec)
      else
        match last_blocked_reason with
        | Some b =>
            let rec := <["employment_url_last_blocked_reason" := VStr b]> rec in
            ret (<["blocked_reason" := VStr b]> (review_row town pname), rec)
        | None => ret (review_row town pname, rec)
        end
  | Some (s, new_emp, src, why) =>
      let old_emp := dict_get rec "Employment Page URL" in
      let conf := confidence new_emp in
      let rec :=
        <["employment_page_type" :=
            VStr (page_type platform new_emp (get_text rec "Notes"))]> rec in
      do rec <- update_record rec new_emp platform
                  ("rediscovered_from_" ++ src) conf src s why;
      do rec <- refresh_application rec new_emp base_home;
      ret (updated_row town pname old_emp new_emp conf src
             (dict_get rec "employment_page_type"),
           rec)
  end.

(** The attempt proper: generate, de-duplicate, score, sort, validate
    the top 40, decide. *)
Definition attempt (rec : gmap string value) (town : value)
    (base_home : string) (platform : Platform)
  : M (gmap string value * gmap string value) :=
  do cand <- gather platform base_home (text_of town);
  let deduped := dedupe cand in
  let scored := sort_desc (score_all base_home deduped) in
  do st <- validate_top base_home scored;
  decide_outcome rec town base_home platform st.

(** [rediscover_for_town(rec)]: the report row and the record as the
    call leaves it. *)
Definition rediscover_for_town (rec : gmap string value)
  : M (gmap string value * gmap string value) :=
  let town := or_else (dict_get rec "Town") (VStr "(unknown)") in
  let rec := ensure_homepage rec in
  let base_home := dict_get rec "Town Website" in
  if negb (is_url base_home)
  then ret (row3 town "skipped" "missing_town_homepage", rec)
  else
    let platform := detect_platform rec in
    let pname := VStr (platform_name platform) in
    let rec := <["platform_detected" := pname]> rec in
    let status := dict_get rec "employment_url_status_code" in
    if py_in status DO_NOT_REWRITE_IF_STATUS_IN
    then ret (<["platform" := pname]>
                (row3 town "no_change"
                   ("status_" ++ py_str status ++ "_bot_block_likely")),
              rec)
    else if negb (should_attempt rec)
    then ret (<["platform" := pname]>
                (row3 town "no_change" "employment_not_marked_broken"),
              rec)
    else attempt rec town (text_of base_home) platform.

(** ** The run over all records *)

(** The elements of the input list that [main]'s loop hands to
    [rediscover_for_town]: the records (an element of another JSON shape
    is [None]), all of them or, with [--town], those of that name. *)
Definition selected (target : string) (item : option (gmap string value)) : bool :=
  match item with
  | None => false
  | Some rec =>
      let town_name := strip (get_text rec "Town") in
      negb (nonempty target && negb (String.eqb (lower town_name) target))
  end.

Definition main_step (target : string) (item : option (gmap string value))
    (acc : list (option (gmap string value)) * list (gmap string value))
  : M (list (option (gmap string value)) * list (gmap string value)) :=
  let '(done, report_rows) := acc in
  match item with
  | Some rec =>
      if selected target item
      then
        do '(row, rec') <- rediscover_for_town rec;
        ret (done ++ [Some rec'], report_rows ++ [row])%list
      else ret (done ++ [item], report_rows)%list
  | None => ret (done ++ [item], report_rows)%list
  end.

(** [main]'s loop: the records as written back, and the report. *)
Definition main_loop (town_arg : option string)
    (data : list (option (gmap string value)))
  : M (list (option (gmap string value)) * list (gmap string value)) :=
  let target := lower (strip (default "" town_arg)) in
  for_each (main_step target) data ([], []).

(** The record as the gates see it: homepage ensured, platform noted. *)
Definition gated (rec : gmap string value) : gmap string value :=
  <["platform_detected" :=
      VStr (platform_name (detect_platform (ensure_homepage rec)))]>
    (ensure_homepage rec).

(** The record as [decide_outcome] persists an accepted candidate, before
    the application refresh. *)
Definition persisted (rec : gmap string value) (platform : Platform)
    (c : Z * string * string * string) (s : St) : gmap string value :=
  let '(sc, new_emp, src, why) := c in
  fst (update_record
         (<["employment_page_type" :=
              VStr (page_type platform new_emp (get_text rec "Notes"))]> rec)
         new_emp platform ("rediscovered_from_" ++ src)
         (confidence new_emp) src sc why s).

End Engine.

(** ** Models of the library functions

    Used to run the engine on concrete inputs.  They follow urllib on
    URLs without control characters, bracketed hosts, dot segments and
    escapes above [%7F]. *)

Module PyLib.

Definition isalpha (c : ascii) : bool :=
  let n := code c in
  (((65 <=? n) && (n <=? 90)) || ((97 <=? n) && (n <=? 122)))%N.

Definition scheme_char (c : ascii) : bool :=
  isalpha c || isdigit c
  || bool_decide (c ∈ ["+"%char; "-"%char; "."%char]).

Fixpoint all_chars (f : ascii -> bool) (s : string) : bool :=
  match s with
  | EmptyString => true
  | String c r => f c && all_chars f r
  end.

(** The scheme and the rest, as [urlsplit] separates them. *)
Definition split_scheme (u : string) : string * string :=
  match u, after_first ":" u with
  | String c _, Some rest =>
      let pre := before_first ":" u in
      if isalpha c && all_chars scheme_char pre then (lower pre, rest)
      else ("", u)
  | _, _ => ("", u)
  end.

(** Up to the first of [/], [?] and [#], and the rest from there on. *)
Fixpoint split_netloc (s : string) : string * string :=
  match s with
  | EmptyString => ("", "")
  | String c r =>
      if bool_decide (c ∈ ["/"%char; "?"%char; "#"%char]) then ("", s)
      else let '(n, rest) := split_netloc r in (String c n, rest)
  end.

(** The last path segment loses its parameters. *)
Fixpoint cut_params (s : string) : string :=
  match s with
  | EmptyString => EmptyString
  | String c r =>
      if contains "/" s then String c (cut_params r)
      else before_first ";" s
  end.

Definition USES_PARAMS : list string :=
  [ ""; "ftp"; "hdl"; "prospero"; "http"; "imap"; "https"; "shttp"; "rtsp";
    "rtspu"; "sip"; "sips"; "mms"; "sftp"; "tel" ].

Definition urlparse (u : string) : ParseResult :=
  let '(sch, rest) := split_scheme u in
  let '(net, rest) :=
    if startswith "//" rest then split_netloc (drop 2 rest) else ("", rest) in
  let rest := before_first "#" rest in
  let pth := before_first "?" rest in
  let qry := default "" (after_first "?" rest) in
  let pth := if bool_decide (sch ∈ USES_PARAMS) then cut_params pth else pth in
  mkParse sch net pth qry.

(** The directory of a path: up to and including its last slash. *)
Fixpoint dirname (s : string) : string :=
  match s with
  | EmptyString => EmptyString
  | String c r => if contains "/" s then String c (dirname r) else EmptyString
  end.

(** [urljoin] for a reference that is empty, absolute with a lower-case
    scheme, rooted at [/], or a plain relative path. *)
Definition urljoin (base ref : string) : string :=
  if negb (nonempty base) then ref
  else if negb (nonempty ref) then base
  else
    let b := urlparse base in
    if nonempty (fst (split_scheme ref)) then ref
    else if startswith "/" ref then scheme b ++ "://" ++ netloc b ++ ref
    else scheme b ++ "://" ++ netloc b ++ dirname (path b) ++ ref.

Definition hex_value (c : ascii) : option N :=
  let n := code c in
  if isdigit c then Some (n - 48)%N
  else if ((65 <=? n) && (n <=? 70))%N then Some (n - 55)%N
  else if ((97 <=? n) && (n <=? 102))%N then Some (n - 87)%N
  else None.

(** [unquote]: every [%XX] escape becomes its character. *)
Fixpoint unquote (s : string) : string :=
  match s with
  | String c r =>
      if Ascii.eqb c "%" then
        match r with
        | String a (String b r') =>
            match hex_value a, hex_value b with
            | Some x, Some y => String (ascii_of_N (16 * x + y)) (unquote r')
            | _, _ => String c (unquote r)
            end
        | _ => String c (unquote r)
        end
      else String c (unquote r)
  | EmptyString => EmptyString
  end.

(** [s.split(sep)] for a one-character separator. *)
Fixpoint split_on (sep : ascii) (s : string) : list string :=
  match s with
  | EmptyString => [""]
  | String c r =>
      if Ascii.eqb c sep then "" :: split_on sep r
      else
        match split_on sep r with
        | x :: l => String c x :: l
        | [] => [String c ""]
        end
  end.

(** [s.replace("+", " ")] *)
Fixpoint plus_to_space (s : string) : string :=
  match s with
  | EmptyString => EmptyString
  | String c r => String (if Ascii.eqb c "+" then " "%char else c) (plus_to_space r)
  end.

(** [parse_qs] with its defaults: fields without [=] or with an empty
    value are dropped; the values of a name are kept in order. *)
Definition parse_qs (qs : string) : gmap string (list string) :=
  fold_left
    (fun (d : gmap string (list string)) name_value =>
       match after_first "=" name_value with
       | Some v =>
           if nonempty v then
             let name := unquote (plus_to_space (before_first "=" name_value)) in
             let v := unquote (plus_to_space v) in
             <[name := (default [] (d !! name) ++ [v])%list]> d
           else d
       | None => d
       end)
    (split_on "&" qs) ∅.

Definition hex_digit (n : N) : ascii :=
  ascii_of_N (if (n <? 10)%N then n + 48 else n + 55).

(** [quote_plus] on ASCII text. *)
Fixpoint quote_plus (s : string) : string :=
  match s with
  | EmptyString => EmptyString
  | String c r =>
      if isalpha c || isdigit c
         || bool_decide (c ∈ ["_"%char; "."%char; "-"%char; "~"%char])
      then String c (quote_plus r)
      else if Ascii.eqb c " " then String "+" (quote_plus r)
      else String "%" (String (hex_digit (code c / 16))
                         (String (hex_digit (code c mod 16)) (quote_plus r)))
  end.

(** [urlencode({k: v})] *)
Definition urlencode (k v : string) : string :=
  quote_plus k ++ "=" ++ quote_plus v.

End PyLib.

(** An environment over the library models: a parser's answers [soup],
    a network [net] and a clock that always reads the same instant. *)
Definition py_env (soup : string -> string -> list Anchor)
    (net : string -> Response + string) : Env :=
  mkEnv PyLib.urlparse PyLib.urljoin PyLib.urlencode PyLib.parse_qs
        PyLib.unquote soup net (fun _ => "2026-01-01T00:00:00+00:00").

(** ** Concrete worlds *)

Module Scenarios.

(** A network given by a table; any other URL fails to connect. *)
Fixpoint net_of (table : list (string * Response)) (u : string)
  : Response + string :=
  match table with
  | [] => inr "ConnectionError"
  | (k, r) :: rest => if String.eqb k u then inl r else net_of rest u
  end.

(** A parser given by a table of [(selector, html, anchors)]. *)
Fixpoint soup_of (table : list (string * string * list Anchor))
    (selector html : string) : list Anchor :=
  match table with
  | [] => []
  | (sel, h, l) :: rest =>
      if String.eqb sel selector && String.eqb h html then l
      else soup_of rest selector html
  end.

Definition html_page (u body : string) : Response :=
  mkResponse u 200 (Some "text/html; charset=utf-8") body.

Definition record (fields : list (string * value)) : gmap string value :=
  list_to_map fields.

(** *** A town whose quick-links page is labelled "Jobs" *)

Definition town_home : string := "https://town.gov/".
Definition town_quicklinks : string := "https://town.gov/QuickLinks.aspx".
Definition town_employment : string := "https://town.gov/Employment".

Definition town_home_html : string :=
  "<html><body><a href='/QuickLinks.aspx'>Jobs</a></body></html>".

Definition town_net : string -> Response + string :=
  net_of [ (town_home, html_page town_home town_home_html);
           (town_quicklinks, html_page town_quicklinks "<html><body>Quick links</body></html>");
           (town_employment, html_page town_employment "<html><body>Openings</body></html>") ].

Definition town_soup : string -> string -> list Anchor :=
  soup_of [ ("a[href]", town_home_html,
             [ mkAnchor (Some "/QuickLinks.aspx") "Jobs" None None ]) ].

Definition town_env : Env := py_env town_soup town_net.

Definition town_rec : gmap string value :=
  record [ ("Town", VStr "Essex");
           ("Town Website", VStr "https://town.gov/");
           ("Employment Page URL", VStr "https://town.gov/old-jobs-page");
           ("employment_url_status_code", VInt 404) ].

(** *** Splash wrappers *)

Definition hall_home : string := "https://www.town.gov/".
Definition hall_jobs : string := "https://www.town.gov/jobs".

Definition vendor_page : string := "https://www.governmentjobs.com/careers/essexct".



(** The wrapper points at a share link of a social site that quotes a
    vendor address. *)
Definition share_link : string :=
  "https://www.facebook.com/sharer.php?u=https://www.governmentjobs.com/careers/essexct".

Definition wrapped_share : string :=
  "https://www.town.gov/splash?splash=https%3A%2F%2Fwww.facebook.com%2Fsharer.php%3Fu%3Dhttps%3A%2F%2Fwww.governmentjobs.com%2Fcareers%2Fessexct".

Definition hall_home_html : string :=
  "<html><body><footer><a href='/jobs'>Jobs</a></footer></body></html>".

Definition wrapped_share_env : Env :=
  py_env
    (soup_of [ ("a[href]", hall_home_html,
                [ mkAnchor (Some "/jobs") "Jobs" None None ]);
               (NAV_FOOTER, hall_home_html,
                [ mkAnchor (Some "/jobs") "Jobs" None None ]) ])
    (net_of [ (hall_home, html_page hall_home hall_home_html);
              (hall_jobs, html_page wrapped_share "<html><body>Redirecting</body></html>") ]).

Definition hall_rec : gmap string value :=
  record [ ("Town", VStr "Essex");
           ("Town Website", VStr "https://www.town.gov/index.html");
           ("Employment Page URL", VStr "https://www.town.gov/old");
           ("employment_url_status_code", VInt 404) ].

(** *** A site whose host embeds a social domain name *)

Definition essex_home : string := "https://www.essex.com/".
Definition essex_jobs : string := "https://www.essex.com/jobs".

Definition essex_env : Env :=
  py_env (soup_of [])
    (net_of [ (essex_jobs, html_page essex_jobs "<html><body>Openings</body></html>") ]).

Definition essex_wrapped : string :=
  "https://www.essex.com/go?splash=https%3A%2F%2Fwww.governmentjobs.com%2Fcareers%2Fessexct".

Definition essex_wrapped_env : Env :=
  py_env (soup_of [])
    (net_of [ (essex_jobs, html_page essex_wrapped "<html><body>Redirecting</body></html>") ]).

(** *** Records behind a bot block *)

Definition blocked_rec : gmap string value :=
  record [ ("Town", VStr "Essex");
           ("Town Website", VStr "https://www.town.gov/index.html");
           ("Employment Page URL", VStr "https://www.town.gov/old");
           ("employment_url_status_code", VInt 403) ].

(** The same status on a record without any site address. *)
Definition orphan_rec : gmap string value :=
  record [ ("Town", VStr "Essex");
           ("Town Website", VStr "");
           ("Employment Page URL", VNone);
           ("employment_url_status_code", VInt 403) ].

(** *** A CivicLift site that is down *)

Definition lift_rec : gmap string value :=
  record [ ("Town", VStr "Essex");
           ("Town Website", VStr "https://www.town.gov/");
           ("Employment Page URL", VStr "https://www.town.gov/old");
           ("ATS or Platform (if known)", VStr "CivicLift");
           ("employment_url_status_code", VInt 404) ].

Definition dead_env : Env := py_env (soup_of []) (net_of []).

(** *** A run over three list elements with the network down *)

Definition down_data : list (option (gmap string value)) :=
  [ Some lift_rec; None; Some town_rec ].

(** *** A record whose link is healthy *)

Definition healthy_rec : gmap string value :=
  record [ ("Town", VStr "Essex");
           ("Town Website", VStr "https://www.town.gov/index.html");
           ("Employment Page URL", VStr "https://www.town.gov/jobs");
           ("employment_url_status_code", VInt 200);
           ("employment_url_soft404", VBool false) ].

(** *** A jobs page that links an application form *)

Definition form_pdf : string := "https://www.town.gov/docs/employment-application.pdf".
Definition budget_pdf : string := "https://www.town.gov/docs/budget.pdf".

Definition forms_html : string :=
  "<html><body><a href='/docs/budget.pdf'>Budget</a><a href='/docs/employment-application.pdf'>Employment Application</a></body></html>".

Definition forms_env : Env :=
  py_env
    (soup_of [ ("a[href]", forms_html,
                [ mkAnchor (Some "/docs/budget.pdf") "Budget" None None;
                  mkAnchor (Some "/docs/employment-application.pdf")
                    "Employment Application" None None ]) ])
    (net_of [ (hall_jobs, html_page hall_jobs forms_html);
              (form_pdf, mkResponse form_pdf 200 (Some "application/pdf") "%PDF-1.7") ]).

(** *** A jobs page behind a browser check *)

Definition guarded_env : Env :=
  py_env
    (soup_of [ ("a[href]", hall_home_html,
                [ mkAnchor (Some "/jobs") "Jobs" None None ]);
               (NAV_FOOTER, hall_home_html,
                [ mkAnchor (Some "/jobs") "Jobs" None None ]) ])
    (net_of [ (hall_home, html_page hall_home hall_home_html);
              (hall_jobs, html_page hall_jobs
                 "<html><body>Checking your browser before accessing town.gov</body></html>") ]).

(** *** A site whose homepage is gone *)

Definition gone_env : Env :=
  py_env (soup_of [])
    (net_of [ (hall_home, mkResponse hall_home 404 (Some "text/html") "Not Found") ]).

(** *** A CivicLift site whose openings live at /job-openings *)

Definition openings_page : string := "https://www.town.gov/job-openings".

Definition openings_env : Env :=
  py_env (soup_of [])
    (net_of [ (openings_page,
               html_page openings_page "<html><body>Current openings</body></html>") ]).

End Scenarios.

Import Scenarios.

(** The fields of a record that hold its links, its confidence values
    and its content type. *)
Definition LINK_FIELDS : list string :=
  [ "Employment Page URL"; "employment_url_final";
    "Application Form URL"; "Application Form URL (original)";
    "application_url_final" ].

Definition CONFIDENCE_FIELDS : list string :=
  [ "employment_url_confidence"; "application_url_confidence" ].

Definition CONTENT_TYPE_FIELD : string := "employment_page_type".

Definition PROTECTED_FIELDS : list string :=
  (LINK_FIELDS ++ CONFIDENCE_FIELDS ++ [CONTENT_TYPE_FIELD])%list.

(** The fields [refresh_application] may write. *)
Definition APPLICATION_FIELDS : list string :=
  [ "Application Form URL (original)"; "Application Form URL";
    "application_url_final"; "application_url_last_checked_at";
    "application_url_change_reason"; "application_url_confidence" ].

(** The confidence of an accepted link as the specification words it:
    70, plus 15 when the new URL contains an employment keyword (a word
    of the employment vocabulary, [kw_hit]), plus 10 for the numeric
    page-id path, at least 85 for a vendor URL, at most 75 for a PDF, at
    most 95. *)
Definition spec_confidence (E : Env) (new_emp : string) : Z :=
  let base :=
    70 + (if kw_hit new_emp then 15 else 0)
       + (if pageid_url E new_emp then 10 else 0) in
  let raised := if is_ats new_emp then Z.max base 85 else base in
  let capped := if is_pdf new_emp then Z.min raised 75 else raised in
  Z.min capped 95.

(** The same rule with the keyword test that the confidence step makes:
    one of the four tokens [employment], [jobs], [careers],
    [human-resources] in the lowered URL. *)
Definition token_confidence (E : Env) (new_emp : string) : Z :=
  let base :=
    70 + (if any_in URL_TOKENS (lower new_emp) then 15 else 0)
       + (if pageid_url E new_emp then 10 else 0) in
  let raised := if is_ats new_emp then Z.max base 85 else base in
  let capped := if is_pdf new_emp then Z.min raised 75 else raised in
  Z.min capped 95.

(** A record passes the gates when it has a homepage and its status or
    soft-404 flag marks the link broken (a status of 401 or 403 never
    does). *)
Definition passes_gates (E : Env) (rec : gmap string value) : bool :=
  is_url (dict_get (ensure_homepage E rec) "Town Website")
  && should_attempt rec.

(** The Validator accepts [u] against [base_home]. *)
Definition accepts (E : Env) (base_home u : string) : bool :=
  match requests_get E u with
  | inl resp =>
      let '(ok, final, _, _) := validate_response E u base_home resp in
      ok && match final with Some f => nonempty f | None => false end
  | inr _ => false
  end.

(** The five outcomes of [rediscover_for_town] on [rec]: the report row,
    the record and the state each leaves. *)
Inductive run_outcome (E : Env) (rec : gmap string value) (s : St)
  : gmap string value * gmap string value * St -> Prop :=
| out_skipped :
    is_url (dict_get (ensure_homepage E rec) "Town Website") = false ->
    run_outcome E rec s
      (row3 (or_else (dict_get rec "Town") (VStr "(unknown)"))
         "skipped" "missing_town_homepage",
       ensure_homepage E rec, s)
| out_no_change (reason : string) :
    passes_gates E rec = false ->
    run_outcome E rec s
      (<["platform" :=
           VStr (platform_name (detect_platform (ensure_homepage E rec)))]>
         (row3 (or_else (dict_get rec "Town") (VStr "(unknown)"))
            "no_change" reason),
       gated E rec, s)
| out_review (s' : St) :
    passes_gates E rec = true ->
    detect_platform (ensure_homepage E rec) <> civiclift ->
    run_outcome E rec s
      (review_row (or_else (dict_get rec "Town") (VStr "(unknown)"))
         (VStr (platform_name (detect_platform (ensure_homepage E rec)))),
       gated E rec, s')
| out_review_blocked (b : string) (s' : St) :
    passes_gates E rec = true ->
    detect_platform (ensure_homepage E rec) <> civiclift ->
    run_outcome E rec s
      (<["blocked_reason" := VStr b]>
         (review_row (or_else (dict_get rec "Town") (VStr "(unknown)"))
            (VStr (platform_name (detect_platform (ensure_homepage E rec))))),
       <["employment_url_last_blocked_reason" := VStr b]> (gated E rec), s')
| out_ephemeral (s' : St) :
    passes_gates E rec = true ->
    detect_platform (ensure_homepage E rec) = civiclift ->
    run_outcome E rec s
      (ephemeral_row (or_else (dict_get rec "Town") (VStr "(unknown)"))
         (VStr "civiclift")
         (text_of (dict_get (ensure_homepage E rec) "Town Website")),
       <["employment_page_type" := VStr "ephemeral_posts"]> (gated E rec), s')
| out_updated (sc : Z) (new_emp src why : string) (s1 : St) :
    passes_gates E rec = true ->
    run_outcome E rec s
      (let r :=
         refresh_application E
           (persisted E (gated E rec)
              (detect_platform (ensure_homepage E rec))
              (sc, new_emp, src, why) s1)
           new_emp
           (text_of (dict_get (ensure_homepage E rec) "Town Website"))
           (mkSt (fetched s1) (S (clock_reads s1))) in
       (updated_row (or_else (dict_get rec "Town") (VStr "(unknown)"))
          (VStr (platform_name (detect_platform (ensure_homepage E rec))))
          (dict_get (gated E rec) "Employment Page URL")
          new_emp (confidence E new_emp) src
          (dict_get (fst r) "employment_page_type"),
        fst r, snd r)).

(** A candidate's URL. *)
Definition url_of (c : Candidate) : string := fst (fst c).

(** A candidate as the de-duplication loop reads it: dropped when its
    URL is not an http(s) URL, else with its URL stripped. *)
Definition normalized (c : Candidate) : option Candidate :=
  let '(u, t, src) := c in
  if is_url_str u then Some (strip u, t, src) else None.

(** [a] may stand before [b] in a list sorted by descending score. *)
Definition desc (a b : Scored) : Prop := score_of b <= score_of a.

(** The candidates of one score, in list order. *)
Definition with_score (z : Z) (l : list Scored) : list Scored :=
  List.filter (fun c => score_of c =? z) l.

(** The state after one more fetch, of [u]. *)
Definition logged (s : St) (u : string) : St :=
  mkSt (fetched s ++ [u]) (clock_reads s).

(** A computation whose value does not depend on the state it starts
    in: it may log fetches, but it reads neither the log nor the clock. *)
Definition stateless {A} (m : M A) : Prop :=
  forall s s', fst (m s) = fst (m s').

(** The fields of a record that a run reads and never writes. *)
Definition INPUT_FIELDS : list string :=
  [ "Town"; "ATS or Platform (if known)"; "Notes";
    "employment_url_status_code"; "employment_url_soft404" ].

(** A string that is empty or starts with a character that is not white
    space. *)
Definition no_leading_space (s : string) : Prop :=
  match s with
  | EmptyString => True
  | String c _ => isspace c = false
  end.

(** The reason codes of a verdict that do not embed a message or a
    status. *)
Definition FIXED_REASONS : list string :=
  [ "ok"; "ok_granicus_splash_to_ats"; "blocked_or_interstitial";
    "soft404"; "social_blocked"; "offsite_not_ats" ].

(** The candidates the validation loop hands to the Validator: those
    with a score of at least 0 whose URL is not social. *)
Definition tried (c : Scored) : bool :=
  let '(s, u, _, _) := c in negb (s <? 0) && negb (is_social u).

(** A scored candidate's URL. *)
Definition scored_url (c : Scored) : string :=
  let '(_, u, _, _) := c in u.

(** The state after fetching the URLs [us] in turn. *)
Definition logged_all (s : St) (us : list string) : St :=
  mkSt (fetched s ++ us) (clock_reads s).

(** From [s] to [s'] the fetch log was extended by at most [n] fetches
    and the clock was read at most [m] times. *)
Definition grows (n m : nat) (s s' : St) : Prop :=
  exists us, fetched s' = (fetched s ++ us)%list
             /\ (length us <= n)%nat
             /\ (clock_reads s <= clock_reads s' <= clock_reads s + m)%nat.

(** The Validator's verdict on [u], as a function of the network. *)
Definition verdict_of (E : Env) (base_home u : string) : Verdict :=
  match requests_get E u with
  | inl resp => validate_response E u base_home resp
  | inr e => (false, None, "fetch_error: " ++ e, None)
  end.

(** What the validation loop notes for a candidate: nothing when the
    candidate is not tried or not accepted, else whether the final URL is
    a PDF and the entry [(score, final_url, src, reason)]. *)
Definition accepted_entry (E : Env) (base_home : string) (c : Scored)
  : option (bool * (Z * string * string * string)) :=
  let '(s, u, _, src) := c in
  if tried c then
    match verdict_of E base_home u with
    | (true, Some f, why, _) =>
        if nonempty f then Some (is_pdf f, (s, f, src, why)) else None
    | _ => None
    end
  else None.

Definition html_entry (E : Env) (base_home : string) (c : Scored)
  : option (Z * string * string * string) :=
  match accepted_entry E base_home c with
  | Some (false, e) => Some e
  | _ => None
  end.

Definition pdf_entry (E : Env) (base_home : string) (c : Scored)
  : option (Z * string * string * string) :=
  match accepted_entry E base_home c with
  | Some (true, e) => Some e
  | _ => None
  end.

(** The first element of a list, if any. *)
Definition first_of {A} (l : list A) : option A :=
  match l with
  | [] => None
  | x :: _ => Some x
  end.

(** The score an entry was accepted with. *)
Definition entry_score (e : Z * string * string * string) : Z :=
  fst (fst (fst e)).

(** An entry that scores at least as high as everything still to come
    is never replaced. *)
Definition dominates (b : Best) (l : list Scored) : Prop :=
  forall e c, b = Some e -> In c l -> score_of c <= entry_score e.

(** One rule of the Scorer: add [k] when [b] holds. *)
Definition bump (b : bool) (k s : Z) : Z := if b then s + k else s.

(** The provenance tags of the candidate generators. *)
Definition PROVENANCE_TAGS : list string :=
  [ "civicplus_path"; "homepage_link"; "nav_footer_link"; "quicklinks";
    "civicplus_search"; "civiclift_path"; "fallback_home"; "granicus_path";
    "ats_fallback" ].

(** A candidate's provenance. *)
Definition source_of (c : Candidate) : string := snd c.

(** The homepage answers with a response the generators crawl: one that
    arrived, with a status below 400, and that is not a soft 404. *)
Definition homepage_usable (E : Env) (base_home : string) : bool :=
  match requests_get E base_home with
  | inl r => usable (Some r)
  | inr _ => false
  end.

(** The parts of a run's result. *)
Definition row_of {A B C} (r : A * B * C) : A := fst (fst r).
Definition rec_of {A B C} (r : A * B * C) : B := snd (fst r).
Definition state_of {A B C} (r : A * B * C) : C := snd r.

(** * Properties *)

(** ** Strings *)

Section StringFacts.

Lemma startswith_app (p s : string) : startswith p (p ++ s) = true.
Proof.
  induction p as [|c p IH]; simpl; [reflexivity|].
  now rewrite Ascii.eqb_refl, IH.
Qed.

Lemma startswith_inv (p s : string) :
  startswith p s = true -> exists post, s = p ++ post.
Proof.
  revert s; induction p as [|c p IH]; intros s H; simpl in *.
  - now exists s.
  - destruct s as [|b s]; [discriminate|].
    apply andb_prop in H as [Hc Hp].
    apply Ascii.eqb_eq in Hc; subst b.
    destruct (IH _ Hp) as [post ->]. now exists post.
Qed.

Lemma contains_app (needle pre post : string) :
  contains needle (pre ++ needle ++ post) = true.
Proof.
  induction pre as [|c pre IH]; simpl.
  - destruct (needle ++ post) eqn:Heq; simpl;
      rewrite <- Heq, startswith_app; reflexivity.
  - rewrite IH. apply orb_true_r.
Qed.

Lemma contains_inv (needle hay : string) :
  contains needle hay = true -> exists pre post, hay = pre ++ needle ++ post.
Proof.
  induction hay as [|c hay IH]; simpl; intros H.
  - rewrite orb_false_r in H. apply startswith_inv in H as [post ->].
    now exists "", post.
  - apply orb_prop in H as [H|H].
    + apply startswith_inv in H as [post ->]. now exists "", post.
    + destruct (IH H) as (pre & post & ->). now exists (String c pre), post.
Qed.

Lemma lower_app (a b : string) : lower (a ++ b) = lower a ++ lower b.
Proof. induction a as [|c a IH]; simpl; [reflexivity|now rewrite IH]. Qed.

(** A lower-case needle found in a text is found in the lowered text. *)
Lemma contains_lower (needle hay : string) :
  lower needle = needle ->
  contains needle hay = true -> contains needle (lower hay) = true.
Proof.
  intros Hl H. apply contains_inv in H as (pre & post & ->).
  rewrite !lower_app, Hl. apply contains_app.
Qed.

Lemma any_in_intro (ks : list string) (k s : string) :
  In k ks -> contains k s = true -> any_in ks s = true.
Proof.
  intros Hin Hc. unfold any_in. apply existsb_exists. now exists k.
Qed.


End StringFacts.

Lemma SOCIAL_BLOCK_lower (d : string) : In d SOCIAL_BLOCK -> lower d = d.
Proof.
  unfold SOCIAL_BLOCK; simpl; intros H.
  repeat (destruct H as [<-|H]; [reflexivity|]); contradiction.
Qed.

(** [is_social] is a substring test on the whole URL string. *)
Lemma is_social_substring (d u : string) :
  In d SOCIAL_BLOCK -> contains d u = true -> is_social u = true.
Proof.
  intros Hd Hc. unfold is_social.
  apply (any_in_intro _ d); [assumption|].
  apply contains_lower; [now apply SOCIAL_BLOCK_lower|assumption].
Qed.

(** ** Validator *)

Section ValidatorFacts.

Variable E : Env.

Lemma get_ok (u : string) (resp : Response) (s : St) :
  requests_get E u = inl resp ->
  get E u s = ((Some resp, None), mkSt (fetched s ++ [u]) (clock_reads s)).
Proof. intros H. unfold get. now rewrite H. Qed.

Lemma get_failed (u e : string) (s : St) :
  requests_get E u = inr e ->
  get E u s = ((None, Some e), mkSt (fetched s ++ [u]) (clock_reads s)).
Proof. intros H. unfold get. now rewrite H. Qed.

Lemma validate_candidate_ok (u base_home : string) (resp : Response) (s : St) :
  requests_get E u = inl resp ->
  validate_candidate E u base_home s
  = (validate_response E u base_home resp,
     mkSt (fetched s ++ [u]) (clock_reads s)).
Proof.
  intros H. unfold validate_candidate, bind. now rewrite (get_ok _ _ _ H).
Qed.

Lemma validate_candidate_failed (u base_home e : string) (s : St) :
  requests_get E u = inr e ->
  validate_candidate E u base_home s
  = ((false, None, "fetch_error: " ++ e, None),
     mkSt (fetched s ++ [u]) (clock_reads s)).
Proof.
  intros H. unfold validate_candidate, bind. now rewrite (get_failed _ _ _ H).
Qed.

(** What the two accepting exits of the Validator guarantee. *)
Lemma validate_checks_accept (final base_home : string) (resp : Response)
    (f : option string) (why : string) (b : option string) :
  validate_checks E final base_home resp = (true, f, why, b) ->
  f = Some final /\ why = "ok" /\ b = None /\
  is_social final = false /\
  (same_site E final base_home = true \/ is_ats final = true).
Proof.
  unfold validate_checks.
  destruct (400 <=? status_code resp); [discriminate|].
  destruct (effective_block final resp); [discriminate|].
  destruct (looks_soft404 resp); [discriminate|].
  destruct (is_social final); [discriminate|].
  destruct (same_site E final base_home) eqn:Hs, (is_ats final) eqn:Ha;
    simpl; intros H; try discriminate; inversion H; subst; auto 6.
Qed.

Lemma validate_response_accept (u base_home : string) (resp : Response)
    (f : option string) (why : string) (b : option string) :
  validate_response E u base_home resp = (true, f, why, b) ->
  (exists t, splash_vendor_target E (final_url E u resp) = Some t /\
             f = Some t /\ why = "ok_granicus_splash_to_ats" /\
             is_ats t = true)
  \/ (f = Some (final_url E u resp) /\ why = "ok" /\
      is_social (final_url E u resp) = false /\
      (same_site E (final_url E u resp) base_home = true
       \/ is_ats (final_url E u resp) = true)).
Proof.
  unfold validate_response.
  destruct (splash_vendor_target E (final_url E u resp)) as [t|] eqn:Hu.
  - intros H; inversion H; subst. left. exists t. repeat split; auto.
    unfold splash_vendor_target in Hu.
    destruct (unwrap_granicus_splash E (final_url E u resp)) as [t'|];
      [|discriminate].
    destruct (nonempty t' && is_ats t') eqn:Ht; [|discriminate].
    inversion Hu; subst. now apply andb_prop in Ht as [_ Ht].
  - intros H. apply validate_checks_accept in H as (-> & -> & _ & ? & ?).
    right; auto.
Qed.


End ValidatorFacts.



(** Every accepted verdict carries a final URL that is same-site with
    the base or a vendor URL; on the plain [ok] exit it is not social. *)
Lemma accepted_final_same_site_or_vendor (E : Env) (u base_home : string)
    (s : St) (f : option string) (why : string) (b : option string) :
  fst (validate_candidate E u base_home s) = (true, f, why, b) ->
  exists t, f = Some t
            /\ (same_site E t base_home = true \/ is_ats t = true)
            /\ (why = "ok" -> is_social t = false).
Proof.
  destruct (requests_get E u) as [resp|e] eqn:Hget.
  - rewrite (validate_candidate_ok _ _ _ _ _ Hget). simpl. intros H.
    apply validate_response_accept in H
      as [(t & _ & -> & -> & Ha)|(-> & -> & Hs & Hor)].
    + exists t. repeat split; auto. discriminate.
    + eexists. repeat split; eauto.
  - rewrite (validate_candidate_failed _ _ _ _ _ Hget). discriminate.
Qed.

Lemma accepted_final_same_site_or_vendor_witness :
  exists t, Some town_quicklinks = Some t
            /\ (same_site town_env t town_home = true \/ is_ats t = true)
            /\ ("ok" = "ok" -> is_social t = false).
Proof.
  apply (accepted_final_same_site_or_vendor town_env town_quicklinks
           town_home St0 (Some town_quicklinks) "ok" None).
  vm_compute. reflexivity.
Defined.

(** C1.  The splash exit accepts a share link of a social site that
    quotes a vendor address: the verdict is accepted, its final URL is a
    social URL and is not same-site, and the orchestrator persists it as
    the record's employment link, classified as a vendor page. *)
Theorem splash_accepts_social_target :
  fst (validate_candidate wrapped_share_env hall_jobs hall_home St0)
  = (true, Some share_link, "ok_granicus_splash_to_ats", None)
  /\ is_social share_link = true
  /\ same_site wrapped_share_env share_link hall_home = false
  /\ fst (fst (rediscover_for_town wrapped_share_env hall_rec St0)) !! "action"
     = Some (VStr "updated")
  /\ snd (fst (rediscover_for_town wrapped_share_env hall_rec St0))
       !! "Employment Page URL" = Some (VStr share_link)
  /\ snd (fst (rediscover_for_town wrapped_share_env hall_rec St0))
       !! "employment_page_type" = Some (VStr "ats_vendor").
Proof. vm_compute. repeat split; reflexivity. Qed.

(** C10.  A URL that contains a configured social-domain name anywhere
    (a host such as [www.essex.com] embeds [x.com]) scores -10000 whatever
    the label, base site and source are; and when it is the final URL of
    a fetch that passes the Validator's earlier steps (no splash target
    at a vendor, status below 400, no block signature, no soft-404
    match), the verdict is [social_blocked] for every base site, the
    URL's own host included. *)
Theorem social_substring_veto (E : Env) (d u : string) :
  In d SOCIAL_BLOCK ->
  contains d u = true ->
  (forall label base_home source,
      score_candidate E u label base_home source = -10000)
  /\ (forall cand base_home resp s,
         requests_get E cand = inl resp ->
         final_url E cand resp = u ->
         splash_vendor_target E u = None ->
         status_code resp < 400 ->
         effective_block u resp = None ->
         looks_soft404 resp = false ->
         fst (validate_candidate E cand base_home s)
         = (false, Some u, "social_blocked", None)).
Proof.
  intros Hd Hc. pose proof (is_social_substring _ _ Hd Hc) as Hs. split.
  - intros label base_home source. unfold score_candidate. now rewrite Hs.
  - intros cand base_home resp s Hget Hf Hsp Hst Hb H404.
    rewrite (validate_candidate_ok _ _ _ _ _ Hget). simpl.
    unfold validate_response. rewrite Hf, Hsp.
    unfold validate_checks.
    destruct (400 <=? status_code resp) eqn:H4; [apply Z.leb_le in H4; lia|].
    now rewrite Hb, H404, Hs.
Qed.

(** The host [www.essex.com] embeds [x.com]; the page is fetched from
    the site itself and is same-host with the base. *)
Lemma social_substring_veto_witness :
  same_site essex_env essex_jobs essex_home = true
  /\ score_candidate essex_env essex_jobs "Job Openings" essex_home "homepage_link"
     = -10000
  /\ fst (validate_candidate essex_env essex_jobs essex_home St0)
     = (false, Some essex_jobs, "social_blocked", None).
Proof.
  split; [vm_compute; reflexivity|].
  assert (Hin : In "x.com" SOCIAL_BLOCK) by (simpl; tauto).
  assert (Hc : contains "x.com" essex_jobs = true) by (vm_compute; reflexivity).
  destruct (social_substring_veto essex_env "x.com" essex_jobs Hin Hc) as [Hscore Hval].
  split; [apply Hscore|].
  apply (Hval essex_jobs essex_home
           (html_page essex_jobs "<html><body>Openings</body></html>") St0);
    vm_compute; reflexivity.
Defined.

(** A candidate and a final URL that both embed [x.com], on the base
    site's own host: the final URL wraps a vendor page, and the Validator
    accepts instead of rejecting as social. *)
Lemma social_url_accepted_through_splash :
  contains "x.com" essex_jobs = true
  /\ contains "x.com" essex_wrapped = true
  /\ same_site essex_wrapped_env essex_wrapped essex_home = true
  /\ requests_get essex_wrapped_env essex_jobs
     = inl (html_page essex_wrapped "<html><body>Redirecting</body></html>")
  /\ fst (validate_candidate essex_wrapped_env essex_jobs essex_home St0)
     = (true, Some vendor_page, "ok_granicus_splash_to_ats", None).
Proof. vm_compute. repeat split; reflexivity. Qed.

(** ** Records *)

Lemma dict_get_insert_ne (m : gmap string value) (k k' : string) (v : value) :
  k <> k' -> dict_get (<[k := v]> m) k' = dict_get m k'.
Proof. intros H. unfold dict_get. now rewrite lookup_insert_ne. Qed.

Lemma dict_get_insert_eq (m : gmap string value) (k : string) (v : value) :
  dict_get (<[k := v]> m) k = v.
Proof. unfold dict_get. now rewrite lookup_insert_eq. Qed.

Lemma dict_get_ext (m m' : gmap string value) (k : string) :
  m' !! k = m !! k -> dict_get m' k = dict_get m k.
Proof. unfold dict_get. now intros ->. Qed.

Section OrchestratorFacts.

Variable E : Env.

(** [ensure_homepage] writes ["Town Website"] only. *)
Lemma ensure_homepage_frame (rec : gmap string value) (k : string) :
  k <> "Town Website" -> ensure_homepage E rec !! k = rec !! k.
Proof.
  intros Hk. unfold ensure_homepage.
  destruct (is_url (dict_get rec "Town Website"));
    [now rewrite lookup_insert_ne|].
  destruct (is_url (dict_get rec "Employment Page URL"));
    [now rewrite lookup_insert_ne|reflexivity].
Qed.

Lemma update_record_eq (rec : gmap string value) (new_emp : string)
    (platform : Platform) (change_reason : string) (conf : Z)
    (method : string) (score : Z) (why : string) (s : St) :
  update_record E rec new_emp platform change_reason conf method score why s
  = (<["employment_url_validation_reason" := VStr why]>
       (<["employment_url_discovery_score" := VInt score]>
          (<["employment_url_discovery_method" := VStr method]>
             (<["employment_url_confidence" := VInt conf]>
                (<["employment_url_change_reason" := VStr change_reason]>
                   (<["employment_url_last_checked_at" :=
                        VStr (clock E (clock_reads s))]>
                      (<["employment_url_final" := VStr new_emp]>
                         (<["Employment Page URL" := VStr new_emp]>
                            (<["platform_detected" :=
                                 VStr (platform_name platform)]> rec)))))))),
     mkSt (fetched s) (S (clock_reads s))).
Proof. reflexivity. Qed.

(** [refresh_application] writes the application fields only. *)
Lemma refresh_application_frame (rec : gmap string value)
    (new_emp base_home : string) (s : St) (k : string) :
  k ∉ APPLICATION_FIELDS ->
  fst (refresh_application E rec new_emp base_home s) !! k = rec !! k.
Proof.
  intros Hk. unfold refresh_application.
  assert (Hne : Forall (fun f => f <> k) APPLICATION_FIELDS).
  { apply Forall_forall. intros f Hf ->. apply Hk. now apply list_elem_of_In. }
  unfold APPLICATION_FIELDS in Hne.
  repeat match goal with
         | H : Forall _ (_ :: _) |- _ => apply Forall_cons_iff in H as [? H]
         end.
  destruct (negb (is_pdf new_emp) && same_site E new_emp base_home);
    [|reflexivity].
  unfold bind.
  destruct (find_application_pdf E new_emp base_home s) as [[pdf pdf_reason] s1].
  destruct pdf as [pdf|]; [|reflexivity].
  destruct (nonempty pdf); [|reflexivity].
  unfold now_utc_iso, ret; simpl.
  rewrite !lookup_insert_ne by assumption.
  destruct (rec !! "Application Form URL (original)");
    [reflexivity|].
  destruct (dict_get rec "Application Form URL");
    try reflexivity.
  now rewrite lookup_insert_ne.
Qed.

End OrchestratorFacts.

Section RunFacts.

Variable E : Env.

Lemma should_attempt_ext (rec rec' : gmap string value) :
  rec' !! "employment_url_status_code" = rec !! "employment_url_status_code" ->
  rec' !! "employment_url_soft404" = rec !! "employment_url_soft404" ->
  should_attempt rec' = should_attempt rec.
Proof.
  intros H1 H2. unfold should_attempt.
  now rewrite (dict_get_ext _ _ _ H1), (dict_get_ext _ _ _ H2).
Qed.

Lemma gated_frame (rec : gmap string value) (k : string) :
  k <> "Town Website" -> k <> "platform_detected" ->
  gated E rec !! k = rec !! k.
Proof.
  intros H1 H2. unfold gated.
  rewrite lookup_insert_ne by auto. now apply ensure_homepage_frame.
Qed.

(** The four ways through the gates of [rediscover_for_town]. *)
Lemma rediscover_for_town_cases (rec : gmap string value) (s : St) :
  let town := or_else (dict_get rec "Town") (VStr "(unknown)") in
  let base := dict_get (ensure_homepage E rec) "Town Website" in
  let platform := detect_platform (ensure_homepage E rec) in
  let pname := VStr (platform_name platform) in
  let status := dict_get rec "employment_url_status_code" in
  (is_url base = false
   /\ rediscover_for_town E rec s
      = (row3 town "skipped" "missing_town_homepage", ensure_homepage E rec, s))
  \/ (is_url base = true
      /\ py_in status DO_NOT_REWRITE_IF_STATUS_IN = true
      /\ rediscover_for_town E rec s
         = (<["platform" := pname]>
              (row3 town "no_change"
                 ("status_" ++ py_str status ++ "_bot_block_likely")),
            gated E rec, s))
  \/ (is_url base = true
      /\ py_in status DO_NOT_REWRITE_IF_STATUS_IN = false
      /\ should_attempt rec = false
      /\ rediscover_for_town E rec s
         = (<["platform" := pname]>
              (row3 town "no_change" "employment_not_marked_broken"),
            gated E rec, s))
  \/ (is_url base = true
      /\ py_in status DO_NOT_REWRITE_IF_STATUS_IN = false
      /\ should_attempt rec = true
      /\ rediscover_for_town E rec s
         = attempt E (gated E rec) town (text_of base) platform s).
Proof.
  intros town base platform pname status.
  cbv beta zeta delta [rediscover_for_town].
  change (<["platform_detected" :=
              VStr (platform_name (detect_platform (ensure_homepage E rec)))]>
            (ensure_homepage E rec)) with (gated E rec).
  fold town base platform pname.
  assert (Hst : dict_get (gated E rec) "employment_url_status_code" = status).
  { apply dict_get_ext, gated_frame; discriminate. }
  assert (Hsa : should_attempt (gated E rec) = should_attempt rec).
  { apply should_attempt_ext; apply gated_frame; discriminate. }
  rewrite Hst, Hsa.
  destruct (is_url base); [|left; auto].
  right. destruct (py_in status DO_NOT_REWRITE_IF_STATUS_IN); [left; auto|].
  right. destruct (should_attempt rec); [right|left]; auto.
Qed.

(** The three exits of [decide_outcome]. *)
Lemma decide_outcome_ephemeral (rec : gmap string value) (town : value)
    (base_home : string) (st : LoopState) (s : St) :
  chosen_of st = None ->
  decide_outcome E rec town base_home civiclift st s
  = (ephemeral_row town (VStr "civiclift") base_home,
     <["employment_page_type" := VStr "ephemeral_posts"]> rec, s).
Proof. intros H. unfold decide_outcome. now rewrite H. Qed.

Lemma decide_outcome_review (rec : gmap string value) (town : value)
    (base_home : string) (platform : Platform) (st : LoopState) (s : St) :
  chosen_of st = None ->
  platform <> civiclift ->
  decide_outcome E rec town base_home platform st s
  = match snd st with
    | Some b =>
        (<["blocked_reason" := VStr b]>
           (review_row town (VStr (platform_name platform))),
         <["employment_url_last_blocked_reason" := VStr b]> rec, s)
    | None => (review_row town (VStr (platform_name platform)), rec, s)
    end.
Proof.
  intros H Hp. unfold decide_outcome. rewrite H.
  rewrite bool_decide_eq_false_2 by assumption.
  now destruct (snd st).
Qed.

Lemma decide_outcome_updated (rec : gmap string value) (town : value)
    (base_home : string) (platform : Platform) (st : LoopState) (s : St)
    (sc : Z) (new_emp src why : string) :
  chosen_of st = Some (sc, new_emp, src, why) ->
  let s1 := mkSt (fetched s) (S (clock_reads s)) in
  let r := refresh_application E (persisted E rec platform (sc, new_emp, src, why) s)
             new_emp base_home s1 in
  decide_outcome E rec town base_home platform st s
  = (updated_row town (VStr (platform_name platform))
       (dict_get rec "Employment Page URL") new_emp (confidence E new_emp) src
       (dict_get (fst r) "employment_page_type"),
     fst r, snd r).
Proof.
  intros H s1 r. unfold decide_outcome. rewrite H.
  unfold bind. rewrite update_record_eq.
  unfold r, persisted. rewrite update_record_eq. simpl.
  now destruct (refresh_application _ _ _ _ _).
Qed.

Lemma attempt_eq (rec : gmap string value) (town : value)
    (base_home : string) (platform : Platform) (s : St) :
  let g := gather E platform base_home (text_of town) s in
  let v := validate_top E base_home
             (sort_desc (score_all E base_home (dedupe (fst g)))) (snd g) in
  attempt E rec town base_home platform s
  = decide_outcome E rec town base_home platform (fst v) (snd v).
Proof.
  intros g v. unfold attempt, bind. fold g.
  destruct g as [cand s1] eqn:Hg. simpl in v. fold v.
  now destruct v.
Qed.

End RunFacts.

(** ** The do-not-touch gate *)

Lemma DO_NOT_REWRITE_inv (v : value) :
  py_in v DO_NOT_REWRITE_IF_STATUS_IN = true -> v = VInt 401 \/ v = VInt 403.
Proof.
  unfold py_in, DO_NOT_REWRITE_IF_STATUS_IN, py_eq. simpl.
  destruct v as [|b|z|t]; simpl; try discriminate.
  - destruct b; discriminate.
  - rewrite orb_false_r. intros H. apply orb_prop in H as [H|H];
      apply Z.eqb_eq in H; subst; auto.
Qed.

Lemma row3_action (town : value) (action reason : string) :
  row3 town action reason !! "action" = Some (VStr action).
Proof. unfold row3. rewrite lookup_insert_ne by discriminate. apply lookup_insert_eq. Qed.

Lemma row3_reason (town : value) (action reason : string) :
  row3 town action reason !! "reason" = Some (VStr reason).
Proof. unfold row3. apply lookup_insert_eq. Qed.

(** C2.  For a record whose last-known status is 401 or 403 the engine
    issues no fetch (the state, fetch log included, is as before) and
    leaves every field of the record as it was, the employment link
    among them, except for the normalised ["Town Website"] and the noted
    ["platform_detected"].  When the record has a homepage the action is
    [no_change] with the reason [status_<code>_bot_block_likely]; when it
    has none the action is [skipped]. *)
Theorem do_not_touch_gate (E : Env) (rec : gmap string value) (s : St) :
  py_in (dict_get rec "employment_url_status_code") DO_NOT_REWRITE_IF_STATUS_IN
  = true ->
  state_of (rediscover_for_town E rec s) = s
  /\ (forall k, k <> "Town Website" -> k <> "platform_detected" ->
                rec_of (rediscover_for_town E rec s) !! k = rec !! k)
  /\ (is_url (dict_get (ensure_homepage E rec) "Town Website") = true ->
      row_of (rediscover_for_town E rec s) !! "action" = Some (VStr "no_change")
      /\ row_of (rediscover_for_town E rec s) !! "reason"
         = Some (VStr ("status_"
                       ++ py_str (dict_get rec "employment_url_status_code")
                       ++ "_bot_block_likely"))
      /\ (py_str (dict_get rec "employment_url_status_code") = "401"
          \/ py_str (dict_get rec "employment_url_status_code") = "403"))
  /\ (is_url (dict_get (ensure_homepage E rec) "Town Website") = false ->
      row_of (rediscover_for_town E rec s) !! "action" = Some (VStr "skipped")
      /\ row_of (rediscover_for_town E rec s) !! "reason"
         = Some (VStr "missing_town_homepage")).
Proof.
  intros Hdnr.
  destruct (rediscover_for_town_cases E rec s)
    as [(Hu & ->)|[(Hu & _ & ->)|[(_ & Hd & _)|(_ & Hd & _)]]];
    try congruence; unfold state_of, rec_of, row_of; simpl.
  - split; [reflexivity|]. split; [|split].
    + intros k Hk _. now apply ensure_homepage_frame.
    + congruence.
    + intros _. split; [apply row3_action|apply row3_reason].
  - split; [reflexivity|]. split; [|split].
    + intros k Hk Hk'. now apply gated_frame.
    + intros _. rewrite !lookup_insert_ne by discriminate.
      split; [apply row3_action|]. split; [apply row3_reason|].
      destruct (DO_NOT_REWRITE_inv _ Hdnr) as [-> | ->]; [left|right]; reflexivity.
    + congruence.
Qed.

Lemma do_not_touch_gate_witness :
  fetched (state_of (rediscover_for_town wrapped_share_env blocked_rec St0)) = []
  /\ rec_of (rediscover_for_town wrapped_share_env blocked_rec St0)
       !! "Employment Page URL" = Some (VStr "https://www.town.gov/old")
  /\ row_of (rediscover_for_town wrapped_share_env blocked_rec St0) !! "reason"
     = Some (VStr "status_403_bot_block_likely").
Proof.
  assert (Hd : py_in (dict_get blocked_rec "employment_url_status_code")
                 DO_NOT_REWRITE_IF_STATUS_IN = true) by (vm_compute; reflexivity).
  destruct (do_not_touch_gate wrapped_share_env blocked_rec St0 Hd)
    as (Hs & Hf & Hnc & _).
  split; [now rewrite Hs|]. split.
  - rewrite Hf by discriminate. vm_compute; reflexivity.
  - destruct Hnc as (_ & Hr & _); [vm_compute; reflexivity|].
    rewrite Hr. vm_compute; reflexivity.
Defined.

(** A record with status 403 and no site address is reported [skipped],
    not [no_change]. *)
Lemma do_not_touch_without_homepage_is_skipped :
  py_in (dict_get orphan_rec "employment_url_status_code")
    DO_NOT_REWRITE_IF_STATUS_IN = true
  /\ row_of (rediscover_for_town wrapped_share_env orphan_rec St0) !! "action"
     = Some (VStr "skipped")
  /\ row_of (rediscover_for_town wrapped_share_env orphan_rec St0) !! "reason"
     = Some (VStr "missing_town_homepage").
Proof. vm_compute. repeat split; reflexivity. Qed.

(** ** The outcomes of a run *)

Lemma should_attempt_not_blocked (rec : gmap string value) :
  py_in (dict_get rec "employment_url_status_code") DO_NOT_REWRITE_IF_STATUS_IN
  = true ->
  should_attempt rec = false.
Proof. intros H. unfold should_attempt. now rewrite H. Qed.

(** Every run ends in one of the five outcomes. *)
Lemma rediscover_for_town_outcome (E : Env) (rec : gmap string value) (s : St) :
  run_outcome E rec s (rediscover_for_town E rec s).
Proof.
  destruct (rediscover_for_town_cases E rec s)
    as [(Hu & ->)|[(Hu & Hd & ->)|[(Hu & Hd & Ha & ->)|(Hu & Hd & Ha & ->)]]].
  - now constructor.
  - constructor. unfold passes_gates.
    rewrite (should_attempt_not_blocked _ Hd). apply andb_false_r.
  - constructor. unfold passes_gates. rewrite Ha. apply andb_false_r.
  - assert (Hp : passes_gates E rec = true)
      by (unfold passes_gates; now rewrite Hu, Ha).
    rewrite attempt_eq.
    set (v := validate_top _ _ _ _). clearbody v. destruct v as [st s2]. simpl.
    destruct (chosen_of st) as [[[[sc new_emp] src] why]|] eqn:Hc.
    + rewrite (decide_outcome_updated _ _ _ _ _ _ _ _ _ _ _ Hc).
      now apply out_updated.
    + destruct (decide (detect_platform (ensure_homepage E rec) = civiclift))
        as [Hciv|Hciv].
      * match goal with
        | |- run_outcome _ _ _ (decide_outcome _ ?r ?t ?b ?p _ _) =>
            assert (Heq : decide_outcome E r t b p st s2
                          = (ephemeral_row t (VStr "civiclift") b,
                             <["employment_page_type" := VStr "ephemeral_posts"]> r,
                             s2))
              by (rewrite Hciv; now apply decide_outcome_ephemeral)
        end.
        rewrite Heq. now apply out_ephemeral.
      * rewrite (decide_outcome_review _ _ _ _ _ _ _ Hc Hciv).
        destruct (snd st); now constructor.
Qed.

Ltac row_lookup :=
  unfold ephemeral_row, review_row, updated_row, row3;
  repeat first [ rewrite lookup_insert_eq
               | rewrite lookup_insert_ne by discriminate
               | rewrite lookup_empty ];
  try reflexivity.

Section OutcomeFacts.

Variable E : Env.

Lemma persisted_link (rec : gmap string value) (platform : Platform)
    (sc : Z) (new_emp src why : string) (s : St) :
  persisted E rec platform (sc, new_emp, src, why) s !! "Employment Page URL"
  = Some (VStr new_emp)
  /\ persisted E rec platform (sc, new_emp, src, why) s !! "employment_url_final"
     = Some (VStr new_emp)
  /\ persisted E rec platform (sc, new_emp, src, why) s !! "employment_url_confidence"
     = Some (VInt (confidence E new_emp))
  /\ persisted E rec platform (sc, new_emp, src, why) s !! "employment_page_type"
     = Some (VStr (page_type E platform new_emp (get_text rec "Notes"))).
Proof.
  unfold persisted. rewrite update_record_eq. simpl.
  repeat split;
    repeat first [ rewrite lookup_insert_eq
                 | rewrite lookup_insert_ne by discriminate ];
    reflexivity.
Qed.

(** [persisted] leaves the application fields as they are. *)
Lemma persisted_application (rec : gmap string value) (platform : Platform)
    (c : Z * string * string * string) (s : St) (k : string) :
  k ∈ APPLICATION_FIELDS ->
  persisted E rec platform c s !! k = rec !! k.
Proof.
  intros Hk. destruct c as [[[sc new_emp] src] why].
  unfold persisted. rewrite update_record_eq. simpl.
  apply list_elem_of_In in Hk. simpl in Hk.
  repeat (destruct Hk as [<-|Hk];
          [repeat (rewrite lookup_insert_ne by discriminate); reflexivity|]).
  contradiction.
Qed.

(** [refresh_application] either leaves the record alone or sets the
    application link together with its confidence. *)
Lemma refresh_application_cases (rec : gmap string value)
    (new_emp base_home : string) (s : St) :
  fst (refresh_application E rec new_emp base_home s) = rec
  \/ exists pdf,
       fst (refresh_application E rec new_emp base_home s) !! "Application Form URL"
       = Some (VStr pdf)
       /\ fst (refresh_application E rec new_emp base_home s) !! "application_url_final"
          = Some (VStr pdf)
       /\ fst (refresh_application E rec new_emp base_home s) !! "application_url_confidence"
          = Some (VInt 85).
Proof.
  unfold refresh_application.
  destruct (negb (is_pdf new_emp) && same_site E new_emp base_home);
    [|left; reflexivity].
  unfold bind.
  destruct (find_application_pdf E new_emp base_home s) as [[pdf pdf_reason] s1].
  destruct pdf as [pdf|]; [|left; reflexivity].
  destruct (nonempty pdf); [|left; reflexivity].
  right. exists pdf. unfold now_utc_iso, ret; simpl.
  repeat split;
    repeat first [ rewrite lookup_insert_eq
                 | rewrite lookup_insert_ne by discriminate ];
    reflexivity.
Qed.

Lemma protected_not_written (k : string) :
  k ∈ PROTECTED_FIELDS ->
  k <> "Town Website" /\ k <> "platform_detected"
  /\ k <> "employment_url_last_blocked_reason".
Proof.
  intros Hk. apply list_elem_of_In in Hk. simpl in Hk.
  repeat (destruct Hk as [<-|Hk]; [repeat split; discriminate|]).
  contradiction.
Qed.

Lemma gated_protected (rec : gmap string value) (k : string) :
  k ∈ PROTECTED_FIELDS -> gated E rec !! k = rec !! k.
Proof.
  intros Hk. destruct (protected_not_written k Hk) as (H1 & H2 & _).
  now apply gated_frame.
Qed.

End OutcomeFacts.

Ltac not_listed :=
  let H := fresh in
  intros H; apply list_elem_of_In in H; simpl in H;
  repeat (destruct H as [H|H]; [discriminate H|]); contradiction.

Lemma application_not_written (k : string) :
  k ∈ APPLICATION_FIELDS -> k <> "Town Website" /\ k <> "platform_detected".
Proof.
  intros Hk. apply list_elem_of_In in Hk. simpl in Hk.
  repeat (destruct Hk as [<-|Hk]; [split; discriminate|]).
  contradiction.
Qed.

(** Unless the action is [updated], the protected fields of the record
    are as they were. *)
Lemma protected_unless_updated (E : Env) (rec : gmap string value) (s : St) :
  row_of (rediscover_for_town E rec s) !! "action" <> Some (VStr "updated") ->
  forall k, k ∈ PROTECTED_FIELDS ->
            rec_of (rediscover_for_town E rec s) !! k = rec !! k.
Proof.
  pose proof (rediscover_for_town_outcome E rec s) as H.
  remember (rediscover_for_town E rec s) as R eqn:HR. clear HR.
  destruct H; unfold row_of, rec_of; cbn [fst snd]; intros Hne k Hk.
  - destruct (protected_not_written k Hk) as (H1 & _).
    now apply ensure_homepage_frame.
  - now apply gated_protected.
  - now apply gated_protected.
  - destruct (protected_not_written k Hk) as (_ & _ & H3).
    rewrite lookup_insert_ne by auto. now apply gated_protected.
  - exfalso. apply Hne. row_lookup.
  - exfalso. apply Hne. row_lookup.
Qed.

(** What a run writes to the record.  Under every action other than
    [updated] the link fields, the confidence fields and the content-type
    field are as they were.  Under [updated] there are two cases.  On the ephemeral fallback the record's link and
    confidence fields are as they were and only its content type is set,
    to [ephemeral_posts].  On an accepted candidate the employment link,
    its confidence and the content type are set together; the application
    link is either left alone or set together with its confidence 85. *)
Theorem record_frame (E : Env) (rec : gmap string value) (s : St) :
  (row_of (rediscover_for_town E rec s) !! "action" <> Some (VStr "updated") ->
   forall k, k ∈ PROTECTED_FIELDS ->
             rec_of (rediscover_for_town E rec s) !! k = rec !! k)
  /\ (row_of (rediscover_for_town E rec s) !! "action" = Some (VStr "updated") ->
      ((forall k, k ∈ (LINK_FIELDS ++ CONFIDENCE_FIELDS)%list ->
                  rec_of (rediscover_for_town E rec s) !! k = rec !! k)
       /\ rec_of (rediscover_for_town E rec s) !! CONTENT_TYPE_FIELD
          = Some (VStr "ephemeral_posts")
       /\ row_of (rediscover_for_town E rec s) !! "reason"
          = Some (VStr "no_stable_employment_page_detected_ephemeral_posts"))
      \/ (exists new_emp,
             row_of (rediscover_for_town E rec s) !! "new_employment_url"
             = Some (VStr new_emp)
             /\ rec_of (rediscover_for_town E rec s) !! "Employment Page URL"
                = Some (VStr new_emp)
             /\ rec_of (rediscover_for_town E rec s) !! "employment_url_final"
                = Some (VStr new_emp)
             /\ rec_of (rediscover_for_town E rec s) !! "employment_url_confidence"
                = Some (VInt (confidence E new_emp))
             /\ (exists ty, rec_of (rediscover_for_town E rec s) !! CONTENT_TYPE_FIELD
                            = Some (VStr ty))
             /\ ((forall k, k ∈ APPLICATION_FIELDS ->
                            rec_of (rediscover_for_town E rec s) !! k = rec !! k)
                 \/ exists pdf,
                      rec_of (rediscover_for_town E rec s) !! "Application Form URL"
                      = Some (VStr pdf)
                      /\ rec_of (rediscover_for_town E rec s)
                           !! "application_url_confidence" = Some (VInt 85)))).
Proof.
  pose proof (rediscover_for_town_outcome E rec s) as H.
  remember (rediscover_for_town E rec s) as R eqn:HR. clear HR.
  destruct H; unfold row_of, rec_of; cbn [fst snd].
  - (* skipped *)
    split.
    + intros _ k Hk. destruct (protected_not_written k Hk) as (H1 & _).
      now apply ensure_homepage_frame.
    + rewrite row3_action. discriminate.
  - (* no_change *)
    split.
    + intros _ k Hk. now apply gated_protected.
    + rewrite lookup_insert_ne by discriminate. rewrite row3_action. discriminate.
  - (* needs_review *)
    split.
    + intros _ k Hk. now apply gated_protected.
    + unfold review_row. rewrite lookup_insert_ne by discriminate.
      rewrite row3_action. discriminate.
  - (* needs_review, blocked *)
    split.
    + intros _ k Hk. destruct (protected_not_written k Hk) as (_ & _ & H3).
      rewrite lookup_insert_ne by auto. now apply gated_protected.
    + unfold review_row. rewrite !lookup_insert_ne by discriminate.
      rewrite row3_action. discriminate.
  - (* ephemeral fallback *)
    split.
    + intros Hne. exfalso. apply Hne. row_lookup.
    + intros _. left. split; [|split].
      * intros k Hk.
        assert (Hp : k ∈ PROTECTED_FIELDS).
        { unfold PROTECTED_FIELDS. rewrite app_assoc. apply elem_of_app. now left. }
        assert (Hne : "employment_page_type" <> k).
        { intros <-. revert Hk. not_listed. }
        rewrite lookup_insert_ne by assumption. now apply gated_protected.
      * unfold CONTENT_TYPE_FIELD. apply lookup_insert_eq.
      * row_lookup.
  - (* accepted candidate *)
    split.
    + intros Hne. exfalso. apply Hne. row_lookup.
    + intros _. right. exists new_emp.
      destruct (persisted_link E (gated E rec)
                  (detect_platform (ensure_homepage E rec)) sc new_emp src why s1)
        as (P1 & P2 & P3 & P4).
      split; [row_lookup|].
      split; [rewrite refresh_application_frame by not_listed; exact P1|].
      split; [rewrite refresh_application_frame by not_listed; exact P2|].
      split; [rewrite refresh_application_frame by not_listed; exact P3|].
      split.
      { eexists. unfold CONTENT_TYPE_FIELD.
        rewrite refresh_application_frame by not_listed. exact P4. }
      match goal with
      | |- context [refresh_application E ?P ?n ?b ?st] =>
          destruct (refresh_application_cases E P n b st) as [Heq|(pdf & A1 & _ & A3)]
      end.
      * left. intros k Hk. rewrite Heq.
        rewrite persisted_application by assumption.
        destruct (application_not_written k Hk). now apply gated_frame.
      * right. exists pdf. split; assumption.
Qed.

(** C3.  The claim fails on the ephemeral exit.  A CivicLift record
    whose site is down: the run reports [updated] and sets the record's
    content type, and neither the record's employment link nor its
    confidence is set with it; the exit for an accepted candidate sets
    the three together through [update_record]. *)
Lemma content_type_set_without_link :
  row_of (rediscover_for_town dead_env lift_rec St0) !! "action"
  = Some (VStr "updated")
  /\ lift_rec !! "employment_page_type" = None
  /\ rec_of (rediscover_for_town dead_env lift_rec St0) !! "employment_page_type"
     = Some (VStr "ephemeral_posts")
  /\ rec_of (rediscover_for_town dead_env lift_rec St0) !! "Employment Page URL"
     = Some (VStr "https://www.town.gov/old")
  /\ rec_of (rediscover_for_town dead_env lift_rec St0) !! "employment_url_confidence"
     = None.
Proof. vm_compute. repeat split; reflexivity. Qed.

(** ** De-duplication and ordering *)

Section DedupeFacts.

Implicit Types (seen : gset string) (cand : list Candidate).

Lemma dedupe_from_not_seen seen cand (c : Candidate) :
  c ∈ dedupe_from seen cand -> url_of c ∉ seen.
Proof.
  revert seen. induction cand as [|[[u0 t0] s0] r IH]; intros seen; simpl.
  - intros H. now apply elem_of_nil in H.
  - destruct (is_url_str u0); simpl; [|apply IH].
    case_bool_decide as Hseen; [apply IH|].
    intros H. apply elem_of_cons in H as [->|H]; [exact Hseen|].
    apply IH in H. set_solver.
Qed.

Lemma dedupe_from_NoDup seen cand :
  NoDup (map url_of (dedupe_from seen cand)).
Proof.
  revert seen. induction cand as [|[[u0 t0] s0] r IH]; intros seen; simpl.
  - constructor.
  - destruct (is_url_str u0); simpl; [|apply IH].
    case_bool_decide as Hseen; [apply IH|].
    simpl. apply NoDup_cons. split; [|apply IH].
    intros H. apply list_elem_of_fmap in H as (c & Hu & Hc).
    apply dedupe_from_not_seen in Hc. rewrite <- Hu in Hc. set_solver.
Qed.

(** A kept candidate is the first one of its stripped URL. *)
Lemma dedupe_from_first seen cand (u t src : string) :
  (u, t, src) ∈ dedupe_from seen cand ->
  exists pre u0 post,
    cand = (pre ++ (u0, t, src) :: post)%list
    /\ is_url_str u0 = true /\ strip u0 = u
    /\ forall c, c ∈ pre -> is_url_str (url_of c) = true -> strip (url_of c) <> u.
Proof.
  revert seen. induction cand as [|[[u0 t0] s0] r IH]; intros seen; simpl.
  - intros H. now apply elem_of_nil in H.
  - destruct (is_url_str u0) eqn:Hurl; simpl.
    + case_bool_decide as Hseen.
      * intros H. pose proof (dedupe_from_not_seen _ _ _ H) as Hn.
        destruct (IH _ H) as (pre & u1 & post & -> & H1 & H2 & H3).
        exists ((u0, t0, s0) :: pre), u1, post. repeat split; auto.
        intros c Hc Hcu. apply elem_of_cons in Hc as [->|Hc]; [|now apply H3].
        unfold url_of in *. simpl in *. intros Heq. apply Hn. now rewrite <- Heq.
      * intros H. apply elem_of_cons in H as [Heq|H].
        -- inversion Heq; subst. exists [], u0, r. repeat split; auto.
           intros c Hc. now apply elem_of_nil in Hc.
        -- pose proof (dedupe_from_not_seen _ _ _ H) as Hn.
           destruct (IH _ H) as (pre & u1 & post & -> & H1 & H2 & H3).
           exists ((u0, t0, s0) :: pre), u1, post. repeat split; auto.
           intros c Hc Hcu. apply elem_of_cons in Hc as [->|Hc]; [|now apply H3].
           unfold url_of in *. simpl in *. intros Heq. apply Hn.
           rewrite <- Heq. set_solver.
    + intros H. destruct (IH _ H) as (pre & u1 & post & -> & H1 & H2 & H3).
      exists ((u0, t0, s0) :: pre), u1, post. repeat split; auto.
      intros c Hc Hcu. apply elem_of_cons in Hc as [->|Hc]; [|now apply H3].
      unfold url_of in Hcu. simpl in Hcu. congruence.
Qed.

(** Every http(s) candidate is represented by its stripped URL. *)
Lemma dedupe_from_complete seen cand (c : Candidate) :
  c ∈ cand -> is_url_str (url_of c) = true ->
  strip (url_of c) ∈ seen
  \/ strip (url_of c) ∈ map url_of (dedupe_from seen cand).
Proof.
  revert seen. induction cand as [|[[u0 t0] s0] r IH]; intros seen Hc Hu.
  - now apply elem_of_nil in Hc.
  - simpl. apply elem_of_cons in Hc as [->|Hc].
    + unfold url_of in *. simpl in *. rewrite Hu. simpl.
      case_bool_decide as Hseen; [now left|].
      right. simpl. apply elem_of_cons. now left.
    + destruct (is_url_str u0); simpl; [|now apply IH].
      case_bool_decide as Hseen; [now apply IH|].
      destruct (IH ({[strip u0]} ∪ seen) Hc Hu) as [H|H].
      * apply elem_of_union in H as [H|H]; [|now left].
        apply elem_of_singleton in H. right. simpl.
        apply elem_of_cons. left. exact H.
      * right. simpl. apply elem_of_cons. now right.
Qed.

(** The kept candidates stand in generation order. *)
Lemma dedupe_from_sublist seen cand :
  dedupe_from seen cand `sublist_of` omap normalized cand.
Proof.
  revert seen. induction cand as [|[[u0 t0] s0] r IH]; intros seen; simpl.
  - constructor.
  - destruct (is_url_str u0); simpl; [|apply IH].
    case_bool_decide; [apply sublist_cons, IH|apply sublist_skip, IH].
Qed.

End DedupeFacts.

Section SortFacts.

Lemma insert_desc_perm (x : Scored) (l : list Scored) :
  Permutation (insert_desc x l) (x :: l).
Proof.
  induction l as [|y r IH]; simpl; [reflexivity|].
  destruct (score_of x <? score_of y); [|reflexivity].
  rewrite IH. apply perm_swap.
Qed.

Lemma sort_desc_perm (l : list Scored) : Permutation (sort_desc l) l.
Proof.
  induction l as [|x r IH]; simpl; [reflexivity|].
  rewrite insert_desc_perm. now constructor.
Qed.

Lemma insert_desc_sorted (x : Scored) (l : list Scored) :
  Sorted desc l -> Sorted desc (insert_desc x l).
Proof.
  induction l as [|y r IH]; simpl; intros Hs.
  - repeat constructor.
  - destruct (score_of x <? score_of y) eqn:Hlt.
    + apply Sorted_inv in Hs as [Hr Hhd].
      constructor; [now apply IH|].
      destruct r as [|z r']; simpl.
      * constructor. unfold desc. apply Z.ltb_lt in Hlt. lia.
      * destruct (score_of x <? score_of z).
        -- constructor. now apply HdRel_inv in Hhd.
        -- constructor. unfold desc. apply Z.ltb_lt in Hlt. lia.
    + constructor; [assumption|].
      constructor. unfold desc. apply Z.ltb_ge in Hlt. lia.
Qed.

Lemma sort_desc_sorted (l : list Scored) : StronglySorted desc (sort_desc l).
Proof.
  apply Sorted_StronglySorted.
  - intros a b c Hab Hbc. unfold desc in *. lia.
  - induction l as [|x r IH]; simpl; [constructor|].
    now apply insert_desc_sorted.
Qed.

Lemma insert_desc_stable (z : Z) (x : Scored) (l : list Scored) :
  with_score z (insert_desc x l) = with_score z (x :: l).
Proof.
  unfold with_score.
  induction l as [|y r IH]; simpl; [reflexivity|].
  destruct (score_of x <? score_of y) eqn:Hlt; [|reflexivity].
  simpl. rewrite IH. simpl.
  destruct (score_of y =? z) eqn:Hy, (score_of x =? z) eqn:Hx; try reflexivity.
  apply Z.eqb_eq in Hy, Hx. apply Z.ltb_lt in Hlt. lia.
Qed.

Lemma sort_desc_stable (z : Z) (l : list Scored) :
  with_score z (sort_desc l) = with_score z l.
Proof.
  induction l as [|x r IH]; simpl; [reflexivity|].
  rewrite insert_desc_stable. unfold with_score in *. simpl. now rewrite IH.
Qed.

End SortFacts.

(** C7.  Within one attempt the candidates that are http(s) URLs are
    de-duplicated by exact comparison of their white-space-stripped URL
    strings: no two kept candidates share a URL, each kept candidate
    carries the label and provenance of the first candidate with that
    stripped URL, every http(s) candidate is represented, and the kept
    candidates stand in generation order.  The scored list is a
    permutation of its input in descending score, and the candidates of
    any one score keep their generation order (the sort is stable; URLs
    are never compared). *)
Theorem dedupe_then_stable_sort (cand : list Candidate) (scored : list Scored) :
  NoDup (map url_of (dedupe cand))
  /\ dedupe cand `sublist_of` omap normalized cand
  /\ (forall u t src,
         (u, t, src) ∈ dedupe cand ->
         exists pre u0 post,
           cand = (pre ++ (u0, t, src) :: post)%list
           /\ is_url_str u0 = true /\ strip u0 = u
           /\ forall c, c ∈ pre -> is_url_str (url_of c) = true ->
                        strip (url_of c) <> u)
  /\ (forall c, c ∈ cand -> is_url_str (url_of c) = true ->
                strip (url_of c) ∈ map url_of (dedupe cand))
  /\ Permutation (sort_desc scored) scored
  /\ StronglySorted desc (sort_desc scored)
  /\ (forall z, with_score z (sort_desc scored) = with_score z scored).
Proof.
  unfold dedupe. repeat split.
  - apply dedupe_from_NoDup.
  - apply dedupe_from_sublist.
  - intros u t src. apply dedupe_from_first.
  - intros c Hc Hu.
    destruct (dedupe_from_complete ∅ cand c Hc Hu) as [H|H]; [|exact H].
    now apply not_elem_of_empty in H.
  - apply sort_desc_perm.
  - apply sort_desc_sorted.
  - intros z. apply sort_desc_stable.
Qed.

(** Two candidates whose URL strings differ by a leading blank are
    merged, and a candidate that is not an http(s) URL is dropped. *)
Lemma dedupe_merges_stripped_urls :
  String.eqb " https://a.gov/jobs" "https://a.gov/jobs" = false
  /\ dedupe [ (" https://a.gov/jobs", "Jobs", "homepage_link");
              ("https://a.gov/jobs", "Careers", "nav_footer_link");
              ("mailto:hr@a.gov", "Human Resources", "homepage_link") ]
     = [ ("https://a.gov/jobs", "Jobs", "homepage_link") ].
Proof. vm_compute. split; reflexivity. Qed.

(** Equal scores keep generation order, whatever the URLs are. *)
Example sort_desc_ties :
  sort_desc [ (90, "https://a.gov/z", "Jobs", "homepage_link");
              (120, "https://a.gov/m", "Employment", "civicplus_path");
              (90, "https://a.gov/a", "Careers", "nav_footer_link") ]
  = [ (120, "https://a.gov/m", "Employment", "civicplus_path");
      (90, "https://a.gov/z", "Jobs", "homepage_link");
      (90, "https://a.gov/a", "Careers", "nav_footer_link") ].
Proof. reflexivity. Qed.

(** ** The validation loop *)

Section LoopFacts.

Variable E : Env.

Lemma chosen_of_None (st : LoopState) :
  chosen_of st = None <-> fst (fst st) = None /\ snd (fst st) = None.
Proof.
  destruct st as [[[bh|] bp] lb]; simpl; split; try tauto;
    try (intros [? ?]; congruence); intros H; try discriminate.
Qed.

Lemma validate_step_rejected (base_home : string) (c : Scored)
    (acc : LoopState) (s : St) :
  accepts E base_home (snd (fst (fst c))) = false ->
  chosen_of acc = None ->
  chosen_of (fst (validate_step E base_home c acc s)) = None.
Proof.
  destruct c as [[[sc u] t] src]. destruct acc as [[bh bp] lb].
  intros Hacc Hnone. apply chosen_of_None in Hnone as [Hh Hp].
  simpl in Hh, Hp, Hacc. subst bh bp. unfold validate_step.
  destruct (sc <? 0); [reflexivity|].
  destruct (is_social u); [reflexivity|].
  unfold bind, accepts in *.
  destruct (requests_get E u) as [resp|e] eqn:Hget.
  - rewrite (validate_candidate_ok _ _ _ _ _ Hget).
    destruct (validate_response E u base_home resp) as [[[ok final] why] blocked].
    destruct final as [f|]; [|reflexivity].
    destruct ok; simpl in *; [|reflexivity].
    rewrite Hacc. reflexivity.
  - rewrite (validate_candidate_failed _ _ _ _ _ Hget). reflexivity.
Qed.

Lemma for_each_rejected (base_home : string) (l : list Scored)
    (acc : LoopState) (s : St) :
  (forall c, In c l -> accepts E base_home (snd (fst (fst c))) = false) ->
  chosen_of acc = None ->
  chosen_of (fst (for_each (validate_step E base_home) l acc s)) = None.
Proof.
  revert acc s. induction l as [|c r IH]; intros acc s Hall Hnone; simpl.
  - exact Hnone.
  - unfold bind.
    pose proof (validate_step_rejected base_home c acc s
                  (Hall c (or_introl eq_refl)) Hnone) as Hstep.
    destruct (validate_step E base_home c acc s) as [acc' s'].
    apply IH; [|exact Hstep]. intros c' Hc'. apply Hall. now right.
Qed.

Lemma In_firstn {A} (n : nat) (l : list A) (x : A) :
  In x (firstn n l) -> In x l.
Proof.
  revert l. induction n as [|n IH]; intros [|y l]; simpl; try tauto.
  intros [->|H]; [now left|right; now apply IH].
Qed.

(** No candidate validates: the loop chooses nothing. *)
Lemma validate_top_none (base_home : string) (deduped : list Candidate) (s : St) :
  (forall c, In c deduped -> accepts E base_home (url_of c) = false) ->
  chosen_of (fst (validate_top E base_home
                    (sort_desc (score_all E base_home deduped)) s)) = None.
Proof.
  intros Hall. unfold validate_top. apply for_each_rejected; [|reflexivity].
  intros c Hc. apply In_firstn in Hc.
  apply (Permutation_in _ (sort_desc_perm _)) in Hc.
  unfold score_all in Hc. apply in_map_iff in Hc as ([[u t] src] & <- & Hin).
  simpl. now apply (Hall (u, t, src)).
Qed.

Lemma rediscover_attempted (rec : gmap string value) (s : St) :
  passes_gates E rec = true ->
  rediscover_for_town E rec s
  = attempt E (gated E rec) (or_else (dict_get rec "Town") (VStr "(unknown)"))
      (text_of (dict_get (ensure_homepage E rec) "Town Website"))
      (detect_platform (ensure_homepage E rec)) s.
Proof.
  unfold passes_gates. intros Hp. apply andb_prop in Hp as [Hu Ha].
  destruct (rediscover_for_town_cases E rec s)
    as [(Hu' & _)|[(_ & Hd & _)|[(_ & _ & Ha' & _)|(_ & _ & _ & ->)]]];
    try congruence.
  rewrite (should_attempt_not_blocked _ Hd) in Ha. discriminate.
Qed.

End LoopFacts.

(** The report row of the ephemeral exit.  A CivicLift record that
    passes the gates and for which no candidate validates gets a row with
    the action [updated], the homepage as new employment link, confidence
    60 and content type [ephemeral_posts]; the record is tagged with that
    content type.  It is not a [needs_review] row. *)
Theorem ephemeral_fallback (E : Env) (rec : gmap string value) (s : St) :
  passes_gates E rec = true ->
  detect_platform (ensure_homepage E rec) = civiclift ->
  (forall c,
      In c (dedupe (fst (gather E civiclift
                           (text_of (dict_get (ensure_homepage E rec) "Town Website"))
                           (text_of (or_else (dict_get rec "Town") (VStr "(unknown)")))
                           s))) ->
      accepts E (text_of (dict_get (ensure_homepage E rec) "Town Website"))
        (url_of c) = false) ->
  row_of (rediscover_for_town E rec s) !! "action" = Some (VStr "updated")
  /\ row_of (rediscover_for_town E rec s) !! "new_employment_url"
     = Some (dict_get (ensure_homepage E rec) "Town Website")
  /\ row_of (rediscover_for_town E rec s) !! "confidence" = Some (VInt 60)
  /\ row_of (rediscover_for_town E rec s) !! "employment_page_type"
     = Some (VStr "ephemeral_posts")
  /\ rec_of (rediscover_for_town E rec s) !! "employment_page_type"
     = Some (VStr "ephemeral_posts").
Proof.
  intros Hp Hciv Hnone.
  assert (Hbase : VStr (text_of (dict_get (ensure_homepage E rec) "Town Website"))
                  = dict_get (ensure_homepage E rec) "Town Website").
  { unfold passes_gates in Hp. apply andb_prop in Hp as [Hu _].
    destruct (dict_get (ensure_homepage E rec) "Town Website");
      try discriminate; reflexivity. }
  rewrite (rediscover_attempted E rec s Hp), attempt_eq, Hciv.
  rewrite decide_outcome_ephemeral by (now apply validate_top_none).
  unfold row_of, rec_of; cbn [fst snd]. rewrite <- Hbase.
  repeat split; row_lookup.
Qed.

Lemma ephemeral_fallback_witness :
  row_of (rediscover_for_town dead_env lift_rec St0) !! "action"
  = Some (VStr "updated")
  /\ row_of (rediscover_for_town dead_env lift_rec St0) !! "new_employment_url"
     = Some (VStr "https://www.town.gov/")
  /\ row_of (rediscover_for_town dead_env lift_rec St0) !! "confidence"
     = Some (VInt 60)
  /\ row_of (rediscover_for_town dead_env lift_rec St0) !! "employment_page_type"
     = Some (VStr "ephemeral_posts")
  /\ rec_of (rediscover_for_town dead_env lift_rec St0) !! "employment_page_type"
     = Some (VStr "ephemeral_posts").
Proof.
  assert (Hp : passes_gates dead_env lift_rec = true) by (vm_compute; reflexivity).
  assert (Hc : detect_platform (ensure_homepage dead_env lift_rec) = civiclift)
    by (vm_compute; reflexivity).
  destruct (ephemeral_fallback dead_env lift_rec St0 Hp Hc) as (H1 & H2 & H3);
    [intros c _; reflexivity|].
  split; [exact H1|]. split; [|exact H3].
  rewrite H2. vm_compute. reflexivity.
Defined.

(** C4.  The claim fails on the record.  For a CivicLift record whose
    site is down, no candidate validates: the row reports [updated] with
    the homepage as new employment link and confidence 60, and the record
    is tagged [ephemeral_posts]; yet the record's employment link is
    still the old one, and the record holds no final link and no
    confidence.  The row's link and confidence are never written to the
    record. *)
Lemma ephemeral_link_not_persisted :
  row_of (rediscover_for_town dead_env lift_rec St0) !! "action"
  = Some (VStr "updated")
  /\ row_of (rediscover_for_town dead_env lift_rec St0) !! "new_employment_url"
     = Some (VStr "https://www.town.gov/")
  /\ row_of (rediscover_for_town dead_env lift_rec St0) !! "confidence"
     = Some (VInt 60)
  /\ rec_of (rediscover_for_town dead_env lift_rec St0) !! "employment_page_type"
     = Some (VStr "ephemeral_posts")
  /\ lift_rec !! "Employment Page URL" = Some (VStr "https://www.town.gov/old")
  /\ rec_of (rediscover_for_town dead_env lift_rec St0) !! "Employment Page URL"
     = Some (VStr "https://www.town.gov/old")
  /\ rec_of (rediscover_for_town dead_env lift_rec St0) !! "employment_url_final"
     = None
  /\ rec_of (rediscover_for_town dead_env lift_rec St0)
       !! "employment_url_discovery_method" = None
  /\ rec_of (rediscover_for_town dead_env lift_rec St0) !! "employment_url_confidence"
     = None.
Proof. vm_compute. repeat split; reflexivity. Qed.

(** ** Confidence and content type *)

Lemma confidence_token (E : Env) (new_emp : string) :
  confidence E new_emp = token_confidence E new_emp.
Proof.
  unfold confidence, token_confidence.
  destruct (any_in URL_TOKENS (lower new_emp)), (pageid_url E new_emp),
    (is_ats new_emp), (is_pdf new_emp); reflexivity.
Qed.

Lemma token_confidence_bounds (E : Env) (new_emp : string) :
  70 <= token_confidence E new_emp <= 95.
Proof.
  unfold token_confidence.
  destruct (any_in URL_TOKENS (lower new_emp)), (pageid_url E new_emp),
    (is_ats new_emp), (is_pdf new_emp); lia.
Qed.

Lemma page_type_nonempty (E : Env) (platform : Platform) (new_emp notes : string) :
  nonempty (page_type E platform new_emp notes) = true.
Proof.
  unfold page_type.
  repeat match goal with
         | |- context [if ?b then _ else _] => destruct b
         end; reflexivity.
Qed.

(** C5, as amended.  For a record updated through an accepted candidate
    the row's and the record's confidence are: 70, plus 15 when the
    lowered new URL contains one of the four tokens [employment], [jobs],
    [careers], [human-resources] (the list of the confidence step, not
    the employment vocabulary), plus 10 when its path starts with a
    numeric page id, raised to 85 for a vendor URL, capped at 75 for a
    PDF and at 95 overall.  Every confidence a run reports lies in
    [0, 95].  The row carries a content type exactly when the action is
    [updated], and then it is a non-empty text; the record's content type
    is set under [updated] and untouched otherwise. *)
Theorem confidence_and_content_type (E : Env) (rec : gmap string value) (s : St) :
  (row_of (rediscover_for_town E rec s) !! "action" = Some (VStr "updated") ->
   (row_of (rediscover_for_town E rec s) !! "reason"
    = Some (VStr "no_stable_employment_page_detected_ephemeral_posts")
    /\ row_of (rediscover_for_town E rec s) !! "confidence" = Some (VInt 60))
   \/ (exists new_emp,
          row_of (rediscover_for_town E rec s) !! "new_employment_url"
          = Some (VStr new_emp)
          /\ rec_of (rediscover_for_town E rec s) !! "Employment Page URL"
             = Some (VStr new_emp)
          /\ row_of (rediscover_for_town E rec s) !! "confidence"
             = Some (VInt (token_confidence E new_emp))
          /\ rec_of (rediscover_for_town E rec s) !! "employment_url_confidence"
             = Some (VInt (token_confidence E new_emp))))
  /\ (forall v, row_of (rediscover_for_town E rec s) !! "confidence" = Some v ->
                exists z, v = VInt z /\ 0 <= z <= 95)
  /\ (is_Some (row_of (rediscover_for_town E rec s) !! "employment_page_type")
      <-> row_of (rediscover_for_town E rec s) !! "action" = Some (VStr "updated"))
  /\ (forall v, row_of (rediscover_for_town E rec s) !! "employment_page_type" = Some v ->
                exists ty, v = VStr ty /\ nonempty ty = true
                           /\ rec_of (rediscover_for_town E rec s)
                                !! "employment_page_type" = Some (VStr ty))
  /\ (row_of (rediscover_for_town E rec s) !! "action" <> Some (VStr "updated") ->
      rec_of (rediscover_for_town E rec s) !! "employment_page_type"
      = rec !! "employment_page_type").
Proof.
  pose proof (protected_unless_updated E rec s) as Hframe.
  pose proof (rediscover_for_town_outcome E rec s) as H.
  remember (rediscover_for_town E rec s) as R eqn:HR. clear HR.
  assert (Hct : "employment_page_type" ∈ PROTECTED_FIELDS).
  { apply list_elem_of_In. simpl. tauto. }
  split; [|split; [|split; [|split]]];
    [| | | |intros Hne; now apply Hframe];
    clear Hframe; destruct H; unfold row_of, rec_of; cbn [fst snd].
  (* the confidence of an update *)
  - rewrite row3_action. discriminate.
  - rewrite lookup_insert_ne by discriminate. rewrite row3_action. discriminate.
  - unfold review_row. rewrite lookup_insert_ne by discriminate.
    rewrite row3_action. discriminate.
  - unfold review_row. rewrite !lookup_insert_ne by discriminate.
    rewrite row3_action. discriminate.
  - intros _. left. split; row_lookup.
  - intros _. right. exists new_emp.
    destruct (persisted_link E (gated E rec)
                (detect_platform (ensure_homepage E rec)) sc new_emp src why s1)
      as (P1 & _ & P3 & _).
    rewrite <- confidence_token.
    split; [row_lookup|].
    split; [rewrite refresh_application_frame by not_listed; exact P1|].
    split; [row_lookup|].
    rewrite refresh_application_frame by not_listed; exact P3.
  (* the range of a reported confidence *)
  - intros v. row_lookup. discriminate.
  - intros v. row_lookup. discriminate.
  - intros v. row_lookup. discriminate.
  - intros v. row_lookup. discriminate.
  - intros v. row_lookup. intros Hv; inversion Hv. exists 60. split; [reflexivity|lia].
  - intros v. row_lookup. intros Hv; inversion Hv. eexists. split; [reflexivity|].
    rewrite confidence_token. pose proof (token_confidence_bounds E new_emp). lia.
  (* a content type exactly under [updated] *)
  - row_lookup. split; [intros [? Hx]; discriminate Hx|discriminate].
  - row_lookup. split; [intros [? Hx]; discriminate Hx|discriminate].
  - row_lookup. split; [intros [? Hx]; discriminate Hx|discriminate].
  - row_lookup. split; [intros [? Hx]; discriminate Hx|discriminate].
  - row_lookup. split; [reflexivity|eauto].
  - row_lookup. split; [reflexivity|eauto].
  (* the content type is a text, the record's *)
  - intros v. row_lookup. discriminate.
  - intros v. row_lookup. discriminate.
  - intros v. row_lookup. discriminate.
  - intros v. row_lookup. discriminate.
  - intros v. row_lookup. intros Hv; inversion Hv.
    exists "ephemeral_posts". repeat split.
  - intros v. row_lookup.
    destruct (persisted_link E (gated E rec)
                (detect_platform (ensure_homepage E rec)) sc new_emp src why s1)
      as (_ & _ & _ & P4).
    assert (Hty : forall r' : gmap string value,
               r' !! "employment_page_type"
               = Some (VStr (page_type E (detect_platform (ensure_homepage E rec))
                               new_emp (get_text (gated E rec) "Notes"))) ->
               or_else (dict_get r' "employment_page_type") (VStr "")
               = VStr (page_type E (detect_platform (ensure_homepage E rec))
                         new_emp (get_text (gated E rec) "Notes"))).
    { intros r' Hr'. unfold dict_get. rewrite Hr'. unfold or_else. simpl.
      now rewrite page_type_nonempty. }
    rewrite Hty by (rewrite refresh_application_frame by not_listed; exact P4).
    intros Hv; inversion Hv. eexists. split; [reflexivity|].
    split; [apply page_type_nonempty|].
    rewrite refresh_application_frame by not_listed; exact P4.
Qed.

(** ** Transport errors *)

Section TransportFacts.

Variable E : Env.

Lemma validate_step_failed (base_home : string) (sc : Z) (u t src e : string)
    (acc : LoopState) (s : St) :
  requests_get E u = inr e ->
  validate_step E base_home (sc, u, t, src) acc s
  = (acc, if (sc <? 0) || is_social u then s else logged s u).
Proof.
  intros Hget. destruct acc as [[bh bp] lb]. unfold validate_step.
  destruct (sc <? 0); [reflexivity|].
  destruct (is_social u); [reflexivity|].
  unfold bind. now rewrite (validate_candidate_failed _ _ _ _ _ Hget).
Qed.

Lemma homepage_crawl_none (keep : string -> string -> bool) (base_home : string) :
  homepage_crawl E keep base_home None = [].
Proof. reflexivity. Qed.

Lemma main_step_lengths (target : string) (item : option (gmap string value))
    (done : list (option (gmap string value)))
    (rows : list (gmap string value)) (s : St) :
  length (fst (fst (main_step E target item (done, rows) s))) = S (length done)
  /\ length (snd (fst (main_step E target item (done, rows) s)))
     = (length rows + if selected target item then 1 else 0)%nat.
Proof.
  unfold main_step. destruct item as [rec|].
  - destruct (selected target (Some rec)).
    + unfold bind. destruct (rediscover_for_town E rec s) as [[row rec'] s'].
      simpl. rewrite !length_app. simpl. split; lia.
    + simpl. rewrite length_app. simpl. split; lia.
  - simpl. rewrite length_app. simpl. split; lia.
Qed.

Lemma main_loop_lengths (target : string)
    (data done : list (option (gmap string value)))
    (rows : list (gmap string value)) (s : St) :
  length (fst (fst (for_each (main_step E target) data (done, rows) s)))
  = (length done + length data)%nat
  /\ length (snd (fst (for_each (main_step E target) data (done, rows) s)))
     = (length rows + length (List.filter (selected target) data))%nat.
Proof.
  revert done rows s. induction data as [|item r IH]; intros done rows s.
  - simpl. split; lia.
  - cbn [for_each List.filter length]. unfold bind.
    pose proof (main_step_lengths target item done rows s) as [H1 H2].
    destruct (main_step E target item (done, rows) s) as [[done' rows'] s'].
    simpl in H1, H2. destruct (IH done' rows' s') as [H3 H4].
    rewrite H3, H4, H1, H2.
    destruct (selected target item); simpl; split; lia.
Qed.

End TransportFacts.

(** C9.  A fetch that fails with a transport error raises nothing:
    [get] hands the error back as a value.  The Validator then answers
    with a fetch-error verdict and the validation loop goes on with the
    remaining candidates, its choices unchanged.  In candidate generation
    the failed sub-strategy contributes no candidate: a failed homepage
    fetch leaves the path templates (and, per platform, the fallback
    entry) and lets the later sub-strategies run; a failed quick-links or
    search fetch leaves the candidates as they are; a failed fetch of
    the employment page yields no application link.  The run itself
    hands every selected record to the engine and reports one row for
    each, whatever the network does. *)
Theorem transport_error_is_not_fatal (E : Env) (u e : string) (s : St) :
  requests_get E u = inr e ->
  get E u s = ((None, Some e), logged s u)
  /\ (forall base_home,
         validate_candidate E u base_home s
         = ((false, None, "fetch_error: " ++ e, None), logged s u))
  /\ (forall base_home sc t src rest acc,
         0 <= sc -> is_social u = false ->
         for_each (validate_step E base_home) ((sc, u, t, src) :: rest) acc s
         = for_each (validate_step E base_home) rest acc (logged s u))
  /\ discover_other E u s = ([], logged s u)
  /\ discover_civiclift E u s
     = ((CIVICLIFT_TEMPLATES E u
         ++ [(u, "CIVICLIFT_FALLBACK_HOME", "fallback_home")])%list,
        logged s u)
  /\ discover_granicus E u s = (GRANICUS_TEMPLATES E u, logged s u)
  /\ discover_civicplus E u s
     = bind (civicplus_quicklinks E u (CIVICPLUS_TEMPLATES E u))
         (for_each (civicplus_search_step E) (civicplus_search_urls E u))
         (logged s u)
  /\ (forall base_home cand,
         urljoin E base_home "QuickLinks.aspx" = u ->
         civicplus_quicklinks E base_home cand s = (cand, logged s u))
  /\ (forall cand, civicplus_search_step E u cand s = (cand, logged s u))
  /\ (forall base_home,
         find_application_pdf E u base_home s
         = ((None, "employment_fetch_error: " ++ e), logged s u))
  /\ (forall town_arg data s0,
         length (fst (fst (main_loop E town_arg data s0))) = length data
         /\ length (snd (fst (main_loop E town_arg data s0)))
            = length (List.filter
                        (selected (lower (strip (default "" town_arg)))) data)).
Proof.
  intros Hget.
  split; [now apply get_failed|].
  split; [intros base_home; now apply validate_candidate_failed|].
  split.
  { intros base_home sc t src rest acc Hsc Hsoc.
    cbn [for_each]. unfold bind.
    rewrite (validate_step_failed E base_home sc u t src e acc s Hget).
    destruct (sc <? 0) eqn:Hneg; [apply Z.ltb_lt in Hneg; lia|].
    now rewrite Hsoc. }
  split.
  { unfold discover_other, bind. now rewrite (get_failed E u e s Hget). }
  split.
  { unfold discover_civiclift, bind. rewrite (get_failed E u e s Hget).
    now rewrite homepage_crawl_none, app_nil_r. }
  split.
  { unfold discover_granicus, bind. now rewrite (get_failed E u e s Hget). }
  split.
  { unfold discover_civicplus. unfold bind at 1.
    rewrite (get_failed E u e s Hget).
    now rewrite homepage_crawl_none, app_nil_r. }
  split.
  { intros base_home cand Hql. unfold civicplus_quicklinks, bind.
    rewrite Hql. now rewrite (get_failed E u e s Hget). }
  split.
  { intros cand. unfold civicplus_search_step, bind.
    now rewrite (get_failed E u e s Hget). }
  split.
  { intros base_home. unfold find_application_pdf, bind.
    now rewrite (get_failed E u e s Hget). }
  intros town_arg data s0. unfold main_loop.
  destruct (main_loop_lengths E (lower (strip (default "" town_arg)))
              data [] [] s0) as [H1 H2].
  now rewrite H1, H2.
Qed.

(** With the network down, the homepage of the CivicLift site cannot be
    fetched; the run over three list elements still reports its two
    records, the first through the ephemeral fallback and the second for
    review. *)
Lemma transport_error_is_not_fatal_witness :
  validate_candidate dead_env hall_home hall_home St0
  = ((false, None, "fetch_error: ConnectionError", None), logged St0 hall_home)
  /\ fst (discover_civiclift dead_env hall_home St0)
     = (CIVICLIFT_TEMPLATES dead_env hall_home
        ++ [(hall_home, "CIVICLIFT_FALLBACK_HOME", "fallback_home")])%list
  /\ length (snd (fst (main_loop dead_env None down_data St0))) = 2%nat
  /\ map (fun row : gmap string value => row !! "action")
       (snd (fst (main_loop dead_env None down_data St0)))
     = [ Some (VStr "updated"); Some (VStr "needs_review") ].
Proof.
  destruct (transport_error_is_not_fatal dead_env hall_home "ConnectionError" St0
              eq_refl) as (_ & Hv & _ & _ & Hl & _ & _ & _ & _ & _ & Hrun).
  split; [apply Hv|]. split; [now rewrite Hl|].
  split; [|vm_compute; reflexivity].
  destruct (Hrun None down_data St0) as [_ ->]. reflexivity.
Defined.

(** ** Runs do not read the state *)

Section Stateless.

Variable E : Env.

Lemma stateless_ret {A} (a : A) : stateless (ret a).
Proof. intros s s'. reflexivity. Qed.

Lemma stateless_bind {A B} (m : M A) (k : A -> M B) :
  stateless m -> (forall a, stateless (k a)) -> stateless (bind m k).
Proof.
  intros Hm Hk s s'. unfold bind.
  specialize (Hm s s').
  destruct (m s) as [a s1], (m s') as [a' s1']. simpl in Hm. subst a'.
  apply Hk.
Qed.

Lemma stateless_for_each {A B} (body : A -> B -> M B) (l : list A) (acc : B) :
  (forall x acc, stateless (body x acc)) -> stateless (for_each body l acc).
Proof.
  intros Hb. revert acc. induction l as [|x r IH]; intros acc; simpl.
  - apply stateless_ret.
  - apply stateless_bind; [apply Hb|apply IH].
Qed.

Lemma stateless_get (u : string) : stateless (get E u).
Proof. intros s s'. unfold get. now destruct (requests_get E u). Qed.

Lemma stateless_validate_candidate (u base_home : string) :
  stateless (validate_candidate E u base_home).
Proof.
  unfold validate_candidate. apply stateless_bind; [apply stateless_get|].
  intros [[resp|] err]; apply stateless_ret.
Qed.

Lemma stateless_validate_step (base_home : string) (c : Scored) (acc : LoopState) :
  stateless (validate_step E base_home c acc).
Proof.
  destruct c as [[[sc u] t] src], acc as [[bh bp] lb]. unfold validate_step.
  destruct (sc <? 0); [apply stateless_ret|].
  destruct (is_social u); [apply stateless_ret|].
  apply stateless_bind; [apply stateless_validate_candidate|].
  intros [[[ok final] why] blocked].
  destruct final as [f|]; [|apply stateless_ret].
  destruct (negb ok || negb (nonempty f)); [apply stateless_ret|].
  destruct (is_pdf f); apply stateless_ret.
Qed.

Lemma stateless_validate_top (base_home : string) (scored : list Scored) :
  stateless (validate_top E base_home scored).
Proof.
  unfold validate_top. apply stateless_for_each.
  intros c acc. apply stateless_validate_step.
Qed.

Lemma stateless_civicplus_search_step (s_url : string) (cand : list Candidate) :
  stateless (civicplus_search_step E s_url cand).
Proof.
  unfold civicplus_search_step. apply stateless_bind; [apply stateless_get|].
  intros [[r|] err]; [|apply stateless_ret].
  destruct (usable (Some r)); apply stateless_ret.
Qed.

Lemma stateless_civicplus_quicklinks (base_home : string) (cand : list Candidate) :
  stateless (civicplus_quicklinks E base_home cand).
Proof.
  unfold civicplus_quicklinks. apply stateless_bind; [apply stateless_get|].
  intros [[r|] err]; [|apply stateless_ret].
  destruct (usable (Some r)); apply stateless_ret.
Qed.

Lemma stateless_gather (platform : Platform) (base_home town : string) :
  stateless (gather E platform base_home town).
Proof.
  destruct platform; simpl.
  - unfold discover_civicplus. apply stateless_bind; [apply stateless_get|].
    intros [h_resp err]. apply stateless_bind.
    + apply stateless_civicplus_quicklinks.
    + intros cand. apply stateless_for_each.
      intros x acc. apply stateless_civicplus_search_step.
  - unfold discover_civiclift. apply stateless_bind; [apply stateless_get|].
    intros [h_resp err]. apply stateless_ret.
  - apply stateless_bind.
    + unfold discover_granicus. apply stateless_bind; [apply stateless_get|].
      intros [h_resp err]. apply stateless_ret.
    + intros cand. apply stateless_ret.
  - unfold discover_other. apply stateless_bind; [apply stateless_get|].
    intros [h_resp err]. apply stateless_ret.
Qed.

(** What the attempt chooses depends on the site, the platform and the
    town's name only. *)
Lemma chosen_stateless (platform : Platform) (base_home town : string) (s s' : St) :
  fst (validate_top E base_home
         (sort_desc (score_all E base_home
                       (dedupe (fst (gather E platform base_home town s)))))
         (snd (gather E platform base_home town s)))
  = fst (validate_top E base_home
           (sort_desc (score_all E base_home
                         (dedupe (fst (gather E platform base_home town s')))))
           (snd (gather E platform base_home town s'))).
Proof.
  rewrite (stateless_gather platform base_home town s s').
  apply stateless_validate_top.
Qed.

End Stateless.

(** ** Running the engine on its own output *)

Section Rerun.

Variable E : Env.

Lemma input_not_written (k : string) :
  k ∈ INPUT_FIELDS ->
  k <> "Town Website" /\ k <> "platform_detected"
  /\ k <> "employment_url_last_blocked_reason" /\ k <> "employment_page_type"
  /\ k ∉ APPLICATION_FIELDS.
Proof.
  intros Hk. apply list_elem_of_In in Hk. simpl in Hk.
  repeat (destruct Hk as [<-|Hk];
          [repeat split; try discriminate; not_listed|]).
  contradiction.
Qed.

Lemma persisted_input (rec : gmap string value) (platform : Platform)
    (c : Z * string * string * string) (s : St) (k : string) :
  k ∈ INPUT_FIELDS ->
  persisted E rec platform c s !! k = rec !! k.
Proof.
  intros Hk. destruct c as [[[sc new_emp] src] why].
  unfold persisted. rewrite update_record_eq. simpl.
  apply list_elem_of_In in Hk. simpl in Hk.
  repeat (destruct Hk as [<-|Hk];
          [repeat (rewrite lookup_insert_ne by discriminate); reflexivity|]).
  contradiction.
Qed.

(** A run leaves the fields it reads as they were. *)
Lemma run_preserves_inputs (rec : gmap string value) (s : St) (k : string) :
  k ∈ INPUT_FIELDS ->
  rec_of (rediscover_for_town E rec s) !! k = rec !! k.
Proof.
  intros Hk. destruct (input_not_written k Hk) as (H1 & H2 & H3 & H4 & H5).
  pose proof (rediscover_for_town_outcome E rec s) as H.
  remember (rediscover_for_town E rec s) as R eqn:HR. clear HR.
  destruct H; unfold rec_of; cbn [fst snd].
  - now apply ensure_homepage_frame.
  - now apply gated_frame.
  - now apply gated_frame.
  - rewrite lookup_insert_ne by auto. now apply gated_frame.
  - rewrite lookup_insert_ne by auto. now apply gated_frame.
  - rewrite refresh_application_frame by assumption.
    rewrite persisted_input by assumption. now apply gated_frame.
Qed.

(** The action and the new URL of the decision depend on what was
    chosen, not on the record or the state. *)
Lemma decide_row_determined (rec rec' : gmap string value) (town : value)
    (base_home : string) (platform : Platform) (st : LoopState) (s s' : St) :
  row_of (decide_outcome E rec town base_home platform st s) !! "action"
  = row_of (decide_outcome E rec' town base_home platform st s') !! "action"
  /\ row_of (decide_outcome E rec town base_home platform st s)
       !! "new_employment_url"
     = row_of (decide_outcome E rec' town base_home platform st s')
         !! "new_employment_url".
Proof.
  destruct (chosen_of st) as [[[[sc new_emp] src] why]|] eqn:Hc.
  - rewrite !(decide_outcome_updated _ _ _ _ _ _ _ _ _ _ _ Hc).
    unfold row_of; cbn [fst snd]. split; row_lookup.
  - destruct (decide (platform = civiclift)) as [->|Hp].
    + rewrite !(decide_outcome_ephemeral _ _ _ _ _ _ Hc).
      unfold row_of; cbn [fst snd]. split; reflexivity.
    + rewrite !(decide_outcome_review _ _ _ _ _ _ _ Hc Hp).
      destruct (snd st); unfold row_of; cbn [fst snd]; split; row_lookup.
Qed.

End Rerun.

(** C8.  With the network an unchanged function of the URL, a second
    run on the output of the first repeats the first run's action and
    reports the identical new URL, provided the second run finds the
    same homepage and detects the same platform as the first.  (The
    status and soft-404 fields are never rewritten, so a record that was
    attempted is attempted again.) *)
Theorem second_run_repeats (E : Env) (rec : gmap string value) (s : St) :
  dict_get (ensure_homepage E (rec_of (rediscover_for_town E rec s))) "Town Website"
  = dict_get (ensure_homepage E rec) "Town Website" ->
  detect_platform (ensure_homepage E (rec_of (rediscover_for_town E rec s)))
  = detect_platform (ensure_homepage E rec) ->
  row_of (rediscover_for_town E (rec_of (rediscover_for_town E rec s))
            (state_of (rediscover_for_town E rec s))) !! "action"
  = row_of (rediscover_for_town E rec s) !! "action"
  /\ row_of (rediscover_for_town E (rec_of (rediscover_for_town E rec s))
               (state_of (rediscover_for_town E rec s))) !! "new_employment_url"
     = row_of (rediscover_for_town E rec s) !! "new_employment_url".
Proof.
  intros Hbase Hplat.
  assert (Hin : forall k, k ∈ INPUT_FIELDS ->
                          rec_of (rediscover_for_town E rec s) !! k = rec !! k)
    by (intros k Hk; now apply run_preserves_inputs).
  set (rec1 := rec_of (rediscover_for_town E rec s)) in *.
  set (s1 := state_of (rediscover_for_town E rec s)).
  clearbody rec1 s1.
  assert (Htown : dict_get rec1 "Town" = dict_get rec "Town").
  { apply dict_get_ext, Hin, list_elem_of_In. simpl. tauto. }
  assert (Hstatus : dict_get rec1 "employment_url_status_code"
                    = dict_get rec "employment_url_status_code").
  { apply dict_get_ext, Hin, list_elem_of_In. simpl. tauto. }
  assert (Hatt : should_attempt rec1 = should_attempt rec).
  { apply should_attempt_ext; apply Hin, list_elem_of_In; simpl; tauto. }
  pose proof (rediscover_for_town_cases E rec1 s1) as C1.
  pose proof (rediscover_for_town_cases E rec s) as C0.
  cbv zeta in C0, C1.
  rewrite Hbase, Hplat, Htown, Hstatus, Hatt in C1.
  destruct C0 as [(Hu & ->)|[(Hu & Hd & ->)|[(Hu & Hd & Ha & ->)|(Hu & Hd & Ha & ->)]]];
    destruct C1 as [(Hu' & ->)|[(Hu' & Hd' & ->)|[(Hu' & Hd' & Ha' & ->)
                                                  |(Hu' & Hd' & Ha' & ->)]]];
    try congruence; unfold row_of; cbn [fst snd]; try (split; reflexivity).
  rewrite !attempt_eq.
  rewrite (chosen_stateless E _ _ _ s1 s).
  apply decide_row_determined.
Qed.

(** The CivicLift record of the site that is down: both runs end in the
    ephemeral fallback with the homepage as the new URL. *)
Lemma second_run_repeats_witness :
  row_of (rediscover_for_town dead_env
            (rec_of (rediscover_for_town dead_env lift_rec St0))
            (state_of (rediscover_for_town dead_env lift_rec St0)))
    !! "new_employment_url"
  = Some (VStr "https://www.town.gov/")
  /\ row_of (rediscover_for_town dead_env lift_rec St0) !! "action"
     = Some (VStr "updated").
Proof.
  destruct (second_run_repeats dead_env lift_rec St0) as [_ Hurl];
    [vm_compute; reflexivity|vm_compute; reflexivity|].
  split; [rewrite Hurl|]; vm_compute; reflexivity.
Defined.

(** Three runs in a row on a town whose homepage links its quick-links
    page under the label "Jobs".  The first run detects no platform and
    picks the quick-links page; that URL makes the second run detect
    CivicPlus and pick [/Employment] from its path templates; the third
    run detects no platform again and goes back to the quick-links page. *)
Lemma reruns_oscillate :
  row_of (rediscover_for_town town_env town_rec St0) !! "action"
  = Some (VStr "updated")
  /\ row_of (rediscover_for_town town_env town_rec St0) !! "new_employment_url"
     = Some (VStr "https://town.gov/QuickLinks.aspx")
  /\ row_of (rediscover_for_town town_env
               (rec_of (rediscover_for_town town_env town_rec St0))
               (state_of (rediscover_for_town town_env town_rec St0)))
       !! "action" = Some (VStr "updated")
  /\ row_of (rediscover_for_town town_env
               (rec_of (rediscover_for_town town_env town_rec St0))
               (state_of (rediscover_for_town town_env town_rec St0)))
       !! "new_employment_url" = Some (VStr "https://town.gov/Employment")
  /\ row_of (rediscover_for_town town_env
               (rec_of (rediscover_for_town town_env
                          (rec_of (rediscover_for_town town_env town_rec St0))
                          (state_of (rediscover_for_town town_env town_rec St0))))
               (state_of (rediscover_for_town town_env
                            (rec_of (rediscover_for_town town_env town_rec St0))
                            (state_of (rediscover_for_town town_env town_rec St0)))))
       !! "new_employment_url" = Some (VStr "https://town.gov/QuickLinks.aspx").
Proof. vm_compute. repeat split; reflexivity. Qed.

(** The claim's formula fails on an accepted candidate.  On a CivicLift
    site whose only live page is [/job-openings] the run persists that
    page with confidence 70: the URL contains the employment keyword
    [job], for which the claim's formula gives 85, and none of the four
    tokens.  In the other direction, [human-resources] is a token and no
    employment keyword: the code gives 85 where the claim's formula gives
    70. *)
Lemma confidence_keyword_mismatch :
  row_of (rediscover_for_town openings_env lift_rec St0) !! "action"
  = Some (VStr "updated")
  /\ row_of (rediscover_for_town openings_env lift_rec St0) !! "source"
     = Some (VStr "civiclift_path")
  /\ rec_of (rediscover_for_town openings_env lift_rec St0) !! "Employment Page URL"
     = Some (VStr "https://www.town.gov/job-openings")
  /\ rec_of (rediscover_for_town openings_env lift_rec St0)
       !! "employment_url_confidence" = Some (VInt 70)
  /\ row_of (rediscover_for_town openings_env lift_rec St0) !! "confidence"
     = Some (VInt 70)
  /\ kw_hit "https://www.town.gov/job-openings" = true
  /\ spec_confidence openings_env "https://www.town.gov/job-openings" = 85
  /\ kw_hit "https://www.town.gov/human-resources" = false
  /\ confidence openings_env "https://www.town.gov/human-resources" = 85
  /\ spec_confidence openings_env "https://www.town.gov/human-resources" = 70.
Proof. vm_compute. repeat split; reflexivity. Qed.

(** The employment-keyword vocabulary of discovery and the token list of
    the confidence step differ: a URL with [job-openings] hits the
    former and not the latter, so its confidence stays at 70. *)
Example job_openings_confidence :
  kw_hit "https://town.gov/job-openings" = true
  /\ any_in URL_TOKENS (lower "https://town.gov/job-openings") = false
  /\ confidence dead_env "https://town.gov/job-openings" = 70.
Proof. vm_compute. repeat split; reflexivity. Qed.

(** A page-id URL of a CivicPlus site reaches the cap. *)
Example page_id_confidence :
  confidence dead_env "https://town.gov/215/Employment-Opportunities" = 95
  /\ page_type dead_env civicplus
       "https://town.gov/215/Employment-Opportunities" "" = "module_page".
Proof. vm_compute. split; reflexivity. Qed.

(** * Further properties of the engine *)

(** ** More on strings *)

Section MoreStringFacts.

Lemma lower_char_idem (c : ascii) : lower_char (lower_char c) = lower_char c.
Proof. destruct c as [[] [] [] [] [] [] [] []]; reflexivity. Qed.

Lemma lower_idem (s : string) : lower (lower s) = lower s.
Proof.
  induction s as [|c s IH]; simpl; [reflexivity|].
  now rewrite lower_char_idem, IH.
Qed.

Lemma kw_hit_lower (s : string) : kw_hit (lower s) = kw_hit s.
Proof. unfold kw_hit. now rewrite lower_idem. Qed.

Lemma rstrip_cons_nonspace (c : ascii) (r : string) :
  isspace c = false -> rstrip (String c r) = String c (rstrip r).
Proof. intros Hc. simpl. rewrite Hc. now destruct (rstrip r). Qed.

Lemma rstrip_cons (c : ascii) (r : string) :
  rstrip (String c r)
  = match rstrip r with
    | EmptyString => if isspace c then EmptyString else String c EmptyString
    | r' => String c r'
    end.
Proof. reflexivity. Qed.

Lemma rstrip_idem (s : string) : rstrip (rstrip s) = rstrip s.
Proof.
  induction s as [|c r IH]; [reflexivity|].
  rewrite rstrip_cons. destruct (rstrip r) as [|c' r'] eqn:Hr.
  - destruct (isspace c) eqn:Hc; [reflexivity|].
    rewrite rstrip_cons. simpl. now rewrite Hc.
  - rewrite rstrip_cons, IH. reflexivity.
Qed.

Lemma lstrip_no_leading_space (s : string) : no_leading_space (lstrip s).
Proof.
  induction s as [|c r IH]; simpl; [exact I|].
  destruct (isspace c) eqn:Hc; [exact IH|exact Hc].
Qed.

Lemma lstrip_fixed (s : string) : no_leading_space s -> lstrip s = s.
Proof. destruct s as [|c r]; simpl; [reflexivity|]. now intros ->. Qed.

Lemma rstrip_no_leading_space (s : string) :
  no_leading_space s -> no_leading_space (rstrip s).
Proof.
  destruct s as [|c r]; [exact (fun H => H)|].
  intros Hc. simpl in Hc. rewrite (rstrip_cons_nonspace _ _ Hc). exact Hc.
Qed.

Lemma strip_idem (s : string) : strip (strip s) = strip s.
Proof.
  unfold strip.
  rewrite (lstrip_fixed (rstrip (lstrip s))).
  - apply rstrip_idem.
  - apply rstrip_no_leading_space, lstrip_no_leading_space.
Qed.

Lemma is_url_str_strip (s : string) : is_url_str (strip s) = is_url_str s.
Proof. unfold is_url_str. now rewrite strip_idem. Qed.

Lemma take_idem (n : N) (s : string) : take n (take n s) = take n s.
Proof.
  revert n. induction s as [|c r IH]; intros n; simpl; [reflexivity|].
  destruct (n =? 0)%N eqn:Hn; [reflexivity|].
  simpl. now rewrite Hn, IH.
Qed.

End MoreStringFacts.

(** ** The shape of a verdict *)

Lemma first_in_Some (ps : list string) (h p : string) :
  first_in ps h = Some p -> In p ps /\ contains p h = true.
Proof.
  induction ps as [|q r IH]; simpl; [discriminate|].
  destruct (contains q h) eqn:Hq.
  - intros H; inversion H; subst. auto.
  - intros H. destruct (IH H). auto.
Qed.

Lemma looks_soft404_status (resp : Response) :
  looks_soft404 resp = true -> status_code resp = 200.
Proof.
  unfold looks_soft404.
  destruct (status_code resp =? 200) eqn:H; simpl; [|discriminate].
  intros _. now apply Z.eqb_eq.
Qed.

Lemma effective_block_Some (final : string) (resp : Response) (b : string) :
  effective_block final resp = Some b ->
  In b BLOCKED_PATTERNS
  /\ contains b (lower (text resp)) = true
  /\ (is_ats final = true ->
      b <> "enable javascript" /\ b <> "please enable javascript").
Proof.
  unfold effective_block.
  destruct (contains "text/html" (lower (default "" (content_type resp)))
            || negb (nonempty (lower (default "" (content_type resp)))));
    [|discriminate].
  destruct (is_ats final) eqn:Ha.
  - rewrite andb_true_r. case_bool_decide as Hb; [discriminate|].
    intros H. destruct (first_in_Some _ _ _ H) as [H1 H2].
    repeat split; auto; intros ->; apply Hb; rewrite H;
      apply list_elem_of_In; simpl; auto.
  - rewrite andb_false_r. intros H.
    destruct (first_in_Some _ _ _ H) as [H1 H2].
    repeat split; auto; discriminate.
Qed.

Ltac shape :=
  repeat split;
  try solve
    [ tauto
    | intros; discriminate
    | intros [?|?]; discriminate
    | intros [? ?]; discriminate
    | intros; eexists; reflexivity
    | left; simpl; tauto
    | auto
    | eauto 6 ].

(** The verdict of the Validator has a fixed shape.  The final URL is
    missing exactly on a transport error.  The verdict is accepting
    exactly under the reasons [ok] and [ok_granicus_splash_to_ats].  A
    block signature is reported exactly under [blocked_or_interstitial];
    it is one of the configured patterns, occurs in the lowered body, and
    on a vendor page it is never one of the two "enable javascript"
    notices.  The reason is one of six fixed codes, or [fetch_error: ]
    followed by the error, or [status_] followed by a status of at least
    400; [soft404] is only given to a response with status 200. *)
Theorem verdict_shape (E : Env) (u base_home : string) (s : St)
    (ok : bool) (final : option string) (why : string) (blocked : option string) :
  fst (validate_candidate E u base_home s) = (ok, final, why, blocked) ->
  (final = None <-> exists e, requests_get E u = inr e)
  /\ (ok = true <-> why = "ok" \/ why = "ok_granicus_splash_to_ats")
  /\ (is_Some blocked <-> why = "blocked_or_interstitial")
  /\ (forall b, blocked = Some b ->
        In b BLOCKED_PATTERNS
        /\ exists resp, requests_get E u = inl resp
                        /\ contains b (lower (text resp)) = true
                        /\ (is_ats (final_url E u resp) = true ->
                            b <> "enable javascript"
                            /\ b <> "please enable javascript"))
  /\ (In why FIXED_REASONS
      \/ (exists e, requests_get E u = inr e /\ why = "fetch_error: " ++ e)
      \/ (exists resp, requests_get E u = inl resp
                       /\ 400 <= status_code resp
                       /\ why = "status_" ++ pretty (status_code resp)))
  /\ (why = "soft404" ->
      exists resp, requests_get E u = inl resp /\ status_code resp = 200).
Proof.
  destruct (requests_get E u) as [resp|e] eqn:Hget.
  - rewrite (validate_candidate_ok _ _ _ _ _ Hget). cbn [fst].
    unfold validate_response.
    destruct (splash_vendor_target E (final_url E u resp)) as [t|];
      [intros H; inversion H; subst; shape|].
    unfold validate_checks.
    destruct (400 <=? status_code resp) eqn:H4.
    { intros H; inversion H; subst. apply Z.leb_le in H4. shape. }
    destruct (effective_block (final_url E u resp) resp) as [b|] eqn:Hb.
    { intros H; inversion H; subst.
      destruct (effective_block_Some _ _ _ Hb) as (B1 & B2 & B3). shape;
        match goal with
        | Hs : Some _ = Some _ |- _ => inversion Hs; subst
        end; eauto. }
    destruct (looks_soft404 resp) eqn:H404.
    { intros H; inversion H; subst. shape.
      intros _. exists resp. split; [reflexivity|].
      now apply looks_soft404_status. }
    destruct (is_social (final_url E u resp));
      [intros H; inversion H; subst; shape|].
    destruct (negb (same_site E (final_url E u resp) base_home)
              && negb (is_ats (final_url E u resp)));
      intros H; inversion H; subst; shape.
  - rewrite (validate_candidate_failed _ _ _ _ _ Hget). cbn [fst].
    intros H; inversion H; subst. shape.
Qed.

Lemma verdict_shape_witness :
  (Some essex_jobs = None <-> exists e, requests_get essex_env essex_jobs = inr e)
  /\ (false = true <-> "social_blocked" = "ok"
                       \/ "social_blocked" = "ok_granicus_splash_to_ats")
  /\ (is_Some (@None string) <-> "social_blocked" = "blocked_or_interstitial").
Proof.
  destruct (verdict_shape essex_env essex_jobs essex_home St0
              false (Some essex_jobs) "social_blocked" None)
    as (H1 & H2 & H3 & _); [vm_compute; reflexivity|].
  repeat split; try apply H1; try apply H2; apply H3.
Defined.

(** ** Fetch accounting *)

Section FetchFacts.

Variable E : Env.

Lemma logged_all_nil (s : St) : logged_all s [] = s.
Proof. destruct s. unfold logged_all. simpl. now rewrite app_nil_r. Qed.

Lemma logged_all_cons (s : St) (u : string) (us : list string) :
  logged_all (logged s u) us = logged_all s (u :: us).
Proof. unfold logged_all, logged. simpl. now rewrite <- app_assoc. Qed.

Lemma logged_all_app (s : St) (us vs : list string) :
  logged_all (logged_all s us) vs = logged_all s (us ++ vs).
Proof. unfold logged_all. simpl. now rewrite <- app_assoc. Qed.

Lemma get_state (u : string) (s : St) : snd (get E u s) = logged s u.
Proof. unfold get. now destruct (requests_get E u). Qed.

Lemma validate_candidate_state (u base_home : string) (s : St) :
  snd (validate_candidate E u base_home s) = logged s u.
Proof.
  unfold validate_candidate, bind.
  pose proof (get_state u s) as H. destruct (get E u s) as [[resp err] s1].
  simpl in H. subst s1. now destruct resp.
Qed.

Lemma validate_step_state (base_home : string) (c : Scored) (acc : LoopState)
    (s : St) :
  snd (validate_step E base_home c acc s)
  = if tried c then logged s (scored_url c) else s.
Proof.
  destruct c as [[[sc u] t] src], acc as [[bh bp] lb].
  unfold validate_step, tried, scored_url.
  destruct (sc <? 0); [reflexivity|].
  destruct (is_social u); [reflexivity|]. simpl.
  unfold bind. pose proof (validate_candidate_state u base_home s) as H.
  destruct (validate_candidate E u base_home s) as [[[[ok final] why] blocked] s1].
  simpl in H. subst s1.
  destruct final as [f|]; [|reflexivity].
  destruct (negb ok || negb (nonempty f)); [reflexivity|].
  now destruct (is_pdf f).
Qed.

Lemma validate_loop_state (base_home : string) (l : list Scored)
    (acc : LoopState) (s : St) :
  snd (for_each (validate_step E base_home) l acc s)
  = logged_all s (map scored_url (List.filter tried l)).
Proof.
  revert acc s. induction l as [|c r IH]; intros acc s.
  - simpl. now rewrite logged_all_nil.
  - cbn [for_each List.filter]. unfold bind.
    pose proof (validate_step_state base_home c acc s) as H.
    destruct (validate_step E base_home c acc s) as [acc' s1].
    simpl in H. subst s1. rewrite IH.
    destruct (tried c); [|reflexivity].
    cbn [map]. apply logged_all_cons.
Qed.

Lemma search_loop_state (urls : list string) (cand : list Candidate) (s : St) :
  snd (for_each (civicplus_search_step E) urls cand s) = logged_all s urls.
Proof.
  revert cand s. induction urls as [|x r IH]; intros cand s.
  - simpl. now rewrite logged_all_nil.
  - cbn [for_each]. unfold bind.
    assert (H : snd (civicplus_search_step E x cand s) = logged s x).
    { unfold civicplus_search_step, bind.
      pose proof (get_state x s) as H. destruct (get E x s) as [[resp err] s1].
      simpl in H. subst s1. destruct resp as [resp|]; [|reflexivity].
      now destruct (usable (Some resp)). }
    destruct (civicplus_search_step E x cand s) as [cand' s1].
    simpl in H. subst s1. rewrite IH. apply logged_all_cons.
Qed.

Lemma filter_length_le {A} (f : A -> bool) (l : list A) :
  (length (List.filter f l) <= length l)%nat.
Proof.
  induction l as [|x r IH]; simpl; [lia|]. destruct (f x); simpl; lia.
Qed.

Lemma firstn_length_le {A} (n : nat) (l : list A) :
  (length (firstn n l) <= n)%nat.
Proof. rewrite length_firstn. lia. Qed.

End FetchFacts.

Section GrowsFacts.

Lemma grows_refl (s : St) : grows 0 0 s s.
Proof. exists []. rewrite app_nil_r. simpl. repeat split; lia. Qed.

Lemma grows_trans (n m n' m' : nat) (s s1 s2 : St) :
  grows n m s s1 -> grows n' m' s1 s2 -> grows (n + n') (m + m') s s2.
Proof.
  intros (us & H1 & H2 & H3) (vs & H4 & H5 & H6).
  exists (us ++ vs)%list. rewrite H4, H1, <- app_assoc, length_app.
  repeat split; lia.
Qed.

Lemma grows_weaken (n m n' m' : nat) (s s' : St) :
  (n <= n')%nat -> (m <= m')%nat -> grows n m s s' -> grows n' m' s s'.
Proof.
  intros Hn Hm (us & H1 & H2 & H3). exists us. repeat split; try lia. exact H1.
Qed.

Lemma grows_logged_all (s : St) (us : list string) :
  grows (length us) 0 s (logged_all s us).
Proof. exists us. simpl. repeat split; lia. Qed.

Lemma grows_logged (s : St) (u : string) : grows 1 0 s (logged s u).
Proof. exists [u]. simpl. repeat split; lia. Qed.

End GrowsFacts.

Section GenerationState.

Variable E : Env.

Lemma discover_other_state (base_home : string) (s : St) :
  snd (discover_other E base_home s) = logged s base_home.
Proof.
  unfold discover_other, bind. pose proof (get_state E base_home s) as H.
  destruct (get E base_home s) as [[h e] s1]. simpl in H. now subst s1.
Qed.

Lemma discover_civiclift_state (base_home : string) (s : St) :
  snd (discover_civiclift E base_home s) = logged s base_home.
Proof.
  unfold discover_civiclift, bind. pose proof (get_state E base_home s) as H.
  destruct (get E base_home s) as [[h e] s1]. simpl in H. now subst s1.
Qed.

Lemma discover_granicus_state (base_home : string) (s : St) :
  snd (discover_granicus E base_home s) = logged s base_home.
Proof.
  unfold discover_granicus, bind. pose proof (get_state E base_home s) as H.
  destruct (get E base_home s) as [[h e] s1]. simpl in H. now subst s1.
Qed.

Lemma civicplus_quicklinks_state (base_home : string) (cand : list Candidate)
    (s : St) :
  snd (civicplus_quicklinks E base_home cand s)
  = logged s (urljoin E base_home "QuickLinks.aspx").
Proof.
  unfold civicplus_quicklinks, bind.
  pose proof (get_state E (urljoin E base_home "QuickLinks.aspx") s) as H.
  destruct (get E (urljoin E base_home "QuickLinks.aspx") s) as [[r e] s1].
  simpl in H. subst s1. destruct r as [r|]; [|reflexivity].
  now destruct (usable (Some r)).
Qed.

Lemma discover_civicplus_state (base_home : string) (s : St) :
  snd (discover_civicplus E base_home s)
  = logged_all s (base_home :: urljoin E base_home "QuickLinks.aspx"
                  :: civicplus_search_urls E base_home).
Proof.
  unfold discover_civicplus. unfold bind at 1.
  pose proof (get_state E base_home s) as H.
  destruct (get E base_home s) as [[h e] s1]. simpl in H. subst s1.
  unfold bind at 1.
  match goal with
  | |- context [civicplus_quicklinks E base_home ?c ?st] =>
      pose proof (civicplus_quicklinks_state base_home c st) as Hq;
      destruct (civicplus_quicklinks E base_home c st) as [cand s2]
  end.
  simpl in Hq. subst s2. rewrite search_loop_state.
  rewrite logged_all_cons. unfold logged_all, logged. simpl.
  now rewrite <- app_assoc.
Qed.

Lemma validate_top_budget (base_home : string) (scored : list Scored) (s : St) :
  grows 40 0 s (snd (validate_top E base_home scored s)).
Proof.
  unfold validate_top. rewrite validate_loop_state.
  eapply grows_weaken; [| |apply grows_logged_all]; [|lia].
  rewrite length_map.
  pose proof (filter_length_le tried (firstn 40 scored)).
  pose proof (firstn_length_le 40 scored). lia.
Qed.

End GenerationState.

(** Candidate generation fetches a fixed list of URLs, whatever the
    responses are: the homepage alone for CivicLift, Granicus and other
    sites, and for CivicPlus the homepage, the quick-links page and the
    four search pages, in that order.  It never fetches a link it found
    and never reads the clock. *)
Theorem generation_fetches (E : Env) (base_home : string) (s : St) :
  snd (discover_other E base_home s) = logged s base_home
  /\ snd (discover_civiclift E base_home s) = logged s base_home
  /\ snd (discover_granicus E base_home s) = logged s base_home
  /\ snd (discover_civicplus E base_home s)
     = logged_all s (base_home :: urljoin E base_home "QuickLinks.aspx"
                     :: civicplus_search_urls E base_home)
  /\ length (civicplus_search_urls E base_home) = 4%nat.
Proof.
  split; [apply discover_other_state|].
  split; [apply discover_civiclift_state|].
  split; [apply discover_granicus_state|].
  split; [apply discover_civicplus_state|reflexivity].
Qed.

(** The validation loop fetches exactly the candidates among the first
    40 of the scored list that have a score of at least 0 and a URL that
    is not social, once each and in list order: at most 40 fetches, none
    of a social URL, and no reading of the clock. *)
Theorem validation_fetches (E : Env) (base_home : string)
    (scored : list Scored) (s : St) :
  snd (validate_top E base_home scored s)
  = logged_all s (map scored_url (List.filter tried (firstn 40 scored)))
  /\ (length (map scored_url (List.filter tried (firstn 40 scored))) <= 40)%nat
  /\ (forall u, In u (map scored_url (List.filter tried (firstn 40 scored))) ->
                is_social u = false).
Proof.
  split; [apply validate_loop_state|]. split.
  - rewrite length_map.
    pose proof (filter_length_le tried (firstn 40 scored)).
    pose proof (firstn_length_le 40 scored). lia.
  - intros u Hu. apply in_map_iff in Hu as ([[[sc u'] t] src] & <- & Hc).
    apply filter_In in Hc as [_ Ht]. unfold tried in Ht. simpl.
    apply andb_prop in Ht as [_ Ht]. now apply negb_true_iff in Ht.
Qed.

Section Budget.

Variable E : Env.

Lemma gather_budget (platform : Platform) (base_home town : string) (s : St) :
  grows 6 0 s (snd (gather E platform base_home town s)).
Proof.
  destruct platform; simpl.
  - rewrite discover_civicplus_state.
    eapply grows_weaken; [| |apply grows_logged_all]; [|lia].
    cbn [length].
    assert (Hn : length (civicplus_search_urls E base_home) = 4%nat)
      by reflexivity.
    rewrite Hn. lia.
  - rewrite discover_civiclift_state.
    eapply grows_weaken; [| |apply grows_logged]; lia.
  - unfold bind. pose proof (discover_granicus_state E base_home s) as Hg.
    destruct (discover_granicus E base_home s) as [cand s1].
    simpl in *. subst s1. eapply grows_weaken; [| |apply grows_logged]; lia.
  - rewrite discover_other_state.
    eapply grows_weaken; [| |apply grows_logged]; lia.
Qed.

Lemma find_application_pdf_budget (employment_url base_home : string) (s : St) :
  grows 2 0 s (snd (find_application_pdf E employment_url base_home s)).
Proof.
  unfold find_application_pdf, bind.
  pose proof (get_state E employment_url s) as H.
  destruct (get E employment_url s) as [[resp err] s1]. simpl in H. subst s1.
  assert (H1 : grows 2 0 s (logged s employment_url))
    by (eapply grows_weaken; [| |apply grows_logged]; lia).
  destruct resp as [r|]; [|exact H1].
  destruct ((400 <=? status_code r) || looks_soft404 r); [exact H1|].
  destruct (negb (contains "text/html" (lower (default "" (content_type r))))
            && nonempty (lower (default "" (content_type r)))); [exact H1|].
  destruct (List.filter _ _) as [|p ps]; [exact H1|].
  destruct (best_pdf_link E base_home (p :: ps)) as [[best|] best_score];
    [|exact H1].
  destruct (nonempty best && (35 <=? best_score)); [|exact H1].
  pose proof (validate_candidate_state E best base_home (logged s employment_url))
    as Hv.
  destruct (validate_candidate E best base_home (logged s employment_url))
    as [[[[ok final] reason] blocked] s2].
  simpl in Hv. subst s2.
  assert (H2 : grows 2 0 s (logged (logged s employment_url) best)).
  { change 2%nat with (1 + 1)%nat. change 0%nat with (0 + 0)%nat.
    eapply grows_trans; apply grows_logged. }
  now destruct ok.
Qed.

Lemma refresh_application_budget (rec : gmap string value)
    (new_emp base_home : string) (s : St) :
  grows 2 1 s (snd (refresh_application E rec new_emp base_home s)).
Proof.
  unfold refresh_application.
  assert (H0 : grows 2 1 s s)
    by (eapply grows_weaken; [| |apply grows_refl]; lia).
  destruct (negb (is_pdf new_emp) && same_site E new_emp base_home);
    [|exact H0].
  unfold bind.
  pose proof (find_application_pdf_budget new_emp base_home s) as Hf.
  destruct (find_application_pdf E new_emp base_home s) as [[pdf reason] s1].
  simpl in Hf.
  assert (H1 : grows 2 1 s s1)
    by (eapply grows_weaken; [| |exact Hf]; lia).
  destruct pdf as [pdf|]; [|exact H1].
  destruct (nonempty pdf); [|exact H1].
  unfold now_utc_iso, ret. simpl.
  destruct Hf as (us & F1 & F2 & F3). exists us. simpl. repeat split; try lia.
  exact F1.
Qed.

Lemma decide_outcome_budget (rec : gmap string value) (town : value)
    (base_home : string) (platform : Platform) (st : LoopState) (s : St) :
  grows 2 2 s (snd (decide_outcome E rec town base_home platform st s)).
Proof.
  assert (H0 : grows 2 2 s s)
    by (eapply grows_weaken; [| |apply grows_refl]; lia).
  destruct (chosen_of st) as [[[[sc new_emp] src] why]|] eqn:Hc.
  - rewrite (decide_outcome_updated _ _ _ _ _ _ _ _ _ _ _ Hc). cbn [snd].
    change 2%nat with (0 + 2)%nat at 1. change 2%nat with (1 + 1)%nat at 2.
    eapply grows_trans; [|apply refresh_application_budget].
    exists []. simpl. rewrite app_nil_r. repeat split; lia.
  - destruct (decide (platform = civiclift)) as [->|Hp].
    + now rewrite (decide_outcome_ephemeral _ _ _ _ _ _ Hc).
    + rewrite (decide_outcome_review _ _ _ _ _ _ _ Hc Hp).
      now destruct (snd st).
Qed.

End Budget.

(** One run of the engine on a record only extends the fetch log, by at
    most 48 fetches (6 for generation, 40 for validation, 2 for the
    application finder), and reads the clock at most twice. *)
Theorem run_fetch_budget (E : Env) (rec : gmap string value) (s : St) :
  grows 48 2 s (state_of (rediscover_for_town E rec s)).
Proof.
  assert (H0 : grows 48 2 s s)
    by (eapply grows_weaken; [| |apply grows_refl]; lia).
  destruct (rediscover_for_town_cases E rec s)
    as [(_ & ->)|[(_ & _ & ->)|[(_ & _ & _ & ->)|(_ & _ & _ & ->)]]];
    try exact H0.
  rewrite attempt_eq. unfold state_of.
  match goal with
  | |- grows _ _ _ (snd (decide_outcome _ _ _ _ _ _ (snd (validate_top _ ?b ?sc ?sg)))) =>
      apply (grows_trans 6 0 42 2 s sg); [apply gather_budget|];
      apply (grows_trans 40 0 2 2 sg (snd (validate_top E b sc sg)));
        [apply validate_top_budget|apply decide_outcome_budget]
  end.
Qed.

(** ** What the validation loop chooses *)

Section Selection.

Variable E : Env.
Variable base_home : string.

Lemma validate_candidate_value (u : string) (s : St) :
  fst (validate_candidate E u base_home s) = verdict_of E base_home u.
Proof.
  unfold verdict_of. destruct (requests_get E u) as [resp|e] eqn:Hget.
  - now rewrite (validate_candidate_ok _ _ _ _ _ Hget).
  - now rewrite (validate_candidate_failed _ _ _ _ _ Hget).
Qed.

(** One round of the loop, on the two best entries. *)
Lemma validate_step_value (c : Scored) (acc : LoopState) (s : St) :
  fst (fst (fst (validate_step E base_home c acc s)))
  = match html_entry E base_home c with
    | Some e => if better (score_of c) (fst (fst acc)) then Some e
                else fst (fst acc)
    | None => fst (fst acc)
    end
  /\ snd (fst (fst (validate_step E base_home c acc s)))
     = match pdf_entry E base_home c with
       | Some e => if better (score_of c) (snd (fst acc)) then Some e
                   else snd (fst acc)
       | None => snd (fst acc)
       end.
Proof.
  destruct c as [[[sc u] t] src], acc as [[bh bp] lb].
  unfold html_entry, pdf_entry, accepted_entry, validate_step, tried.
  destruct (sc <? 0); [split; reflexivity|].
  destruct (is_social u); [split; reflexivity|].
  cbn [negb andb]. unfold bind.
  pose proof (validate_candidate_value u s) as Hv.
  destruct (validate_candidate E u base_home s) as [[[[ok final] why] blocked] s1].
  simpl in Hv. rewrite <- Hv.
  destruct final as [f|]; [|destruct ok; split; reflexivity].
  destruct ok; [|split; reflexivity].
  cbn [negb orb]. destruct (nonempty f); [|split; reflexivity].
  cbn [negb]. destruct (is_pdf f); split; reflexivity.
Qed.

Lemma html_entry_score (c : Scored) (e : Z * string * string * string) :
  html_entry E base_home c = Some e -> entry_score e = score_of c.
Proof.
  destruct c as [[[sc u] t] src]. unfold html_entry, accepted_entry.
  destruct (tried (sc, u, t, src)); [|discriminate].
  destruct (verdict_of E base_home u) as [[[[] [f|]] why] b]; try discriminate.
  destruct (nonempty f); [|discriminate].
  destruct (is_pdf f); [discriminate|].
  intros H; inversion H. reflexivity.
Qed.

Lemma pdf_entry_score (c : Scored) (e : Z * string * string * string) :
  pdf_entry E base_home c = Some e -> entry_score e = score_of c.
Proof.
  destruct c as [[[sc u] t] src]. unfold pdf_entry, accepted_entry.
  destruct (tried (sc, u, t, src)); [|discriminate].
  destruct (verdict_of E base_home u) as [[[[] [f|]] why] b]; try discriminate.
  destruct (nonempty f); [|discriminate].
  destruct (is_pdf f); [|discriminate].
  intros H; inversion H. reflexivity.
Qed.

Lemma better_dominated (b : Best) (c : Scored) (l : list Scored)
    (e : Z * string * string * string) :
  b = Some e -> dominates b (c :: l) -> better (score_of c) b = false.
Proof.
  intros -> Hd. specialize (Hd e c eq_refl (or_introl eq_refl)).
  destruct e as [[[s0 f] src] why]. unfold entry_score in Hd. simpl in *.
  apply Z.ltb_ge. exact Hd.
Qed.

Lemma loop_best (l : list Scored) (acc : LoopState) (s : St) :
  StronglySorted desc l ->
  dominates (fst (fst acc)) l ->
  dominates (snd (fst acc)) l ->
  fst (fst (fst (for_each (validate_step E base_home) l acc s)))
  = match fst (fst acc) with
    | Some e => Some e
    | None => first_of (omap (html_entry E base_home) l)
    end
  /\ snd (fst (fst (for_each (validate_step E base_home) l acc s)))
     = match snd (fst acc) with
       | Some e => Some e
       | None => first_of (omap (pdf_entry E base_home) l)
       end.
Proof.
  revert acc s. induction l as [|c r IH]; intros acc s Hs Hh Hp.
  - simpl. destruct (fst (fst acc)), (snd (fst acc)); split; reflexivity.
  - cbn [for_each]. unfold bind.
    destruct (validate_step_value c acc s) as [V1 V2].
    destruct (validate_step E base_home c acc s) as [acc' s'].
    cbn [fst snd] in V1, V2.
    apply StronglySorted_inv in Hs as [Hr Hc].
    assert (Hdom : forall b : Best,
               dominates b (c :: r) ->
               forall e', dominates
                            (if better (score_of c) b then Some e' else b) r
                          \/ entry_score e' <> score_of c).
    { intros b Hb e'.
      destruct (Z.eq_dec (entry_score e') (score_of c)) as [He|He];
        [left|now right].
      destruct (better (score_of c) b).
      - intros e0 c0 H0 Hin. inversion H0; subst e0. rewrite He.
        rewrite Forall_forall in Hc. apply Hc. now apply list_elem_of_In.
      - intros e0 c0 H0 Hin. apply (Hb e0 c0 H0). now right. }
    assert (Htail : forall b : Best, dominates b (c :: r) -> dominates b r).
    { intros b Hb e0 c0 H0 Hin. apply (Hb e0 c0 H0). now right. }
    assert (Hh' : dominates (fst (fst acc')) r).
    { rewrite V1. destruct (html_entry E base_home c) as [e|] eqn:He;
        [|now apply Htail].
      destruct (Hdom _ Hh e) as [H|H]; [exact H|].
      exfalso. apply H. now apply html_entry_score. }
    assert (Hp' : dominates (snd (fst acc')) r).
    { rewrite V2. destruct (pdf_entry E base_home c) as [e|] eqn:He;
        [|now apply Htail].
      destruct (Hdom _ Hp e) as [H|H]; [exact H|].
      exfalso. apply H. now apply pdf_entry_score. }
    destruct (IH acc' s' Hr Hh' Hp') as [R1 R2]. rewrite R1, R2, V1, V2.
    change (omap (html_entry E base_home) (c :: r))
      with (match html_entry E base_home c with
            | Some y => y :: omap (html_entry E base_home) r
            | None => omap (html_entry E base_home) r
            end).
    change (omap (pdf_entry E base_home) (c :: r))
      with (match pdf_entry E base_home c with
            | Some y => y :: omap (pdf_entry E base_home) r
            | None => omap (pdf_entry E base_home) r
            end).
    split.
    + destruct (html_entry E base_home c) as [e|] eqn:He.
      * destruct (fst (fst acc)) as [e0|] eqn:Hacc.
        -- now rewrite (better_dominated _ c r e0 eq_refl Hh).
        -- reflexivity.
      * reflexivity.
    + destruct (pdf_entry E base_home c) as [e|] eqn:He.
      * destruct (snd (fst acc)) as [e0|] eqn:Hacc.
        -- now rewrite (better_dominated _ c r e0 eq_refl Hp).
        -- reflexivity.
      * reflexivity.
Qed.

Lemma StronglySorted_firstn (n : nat) (l : list Scored) :
  StronglySorted desc l -> StronglySorted desc (firstn n l).
Proof.
  revert l. induction n as [|n IH]; intros [|x l] Hs; simpl; try constructor.
  - apply IH. now apply StronglySorted_inv in Hs.
  - apply StronglySorted_inv in Hs as [_ Hx].
    rewrite Forall_forall in *. intros y Hy. apply Hx.
    apply list_elem_of_In. apply list_elem_of_In in Hy.
    now apply In_firstn in Hy.
Qed.

End Selection.

Section Chosen.

Variable E : Env.
Variable base_home : string.

Lemma first_of_omap_Some {A B} (f : A -> option B) (l : list A) (y : B) :
  first_of (omap f l) = Some y -> exists x, In x l /\ f x = Some y.
Proof.
  induction l as [|x r IH]; [discriminate|].
  change (omap f (x :: r))
    with (match f x with Some z => z :: omap f r | None => omap f r end).
  destruct (f x) as [z|] eqn:Hx.
  - simpl. intros H; inversion H; subst. exists x. split; [now left|exact Hx].
  - intros H. destruct (IH H) as (x' & Hin & Hf). exists x'. split; [now right|exact Hf].
Qed.

Lemma validate_top_chosen (scored : list Scored) (s : St) :
  chosen_of (fst (validate_top E base_home (sort_desc scored) s))
  = match first_of (omap (html_entry E base_home) (firstn 40 (sort_desc scored))) with
    | Some e => Some e
    | None => first_of (omap (pdf_entry E base_home) (firstn 40 (sort_desc scored)))
    end.
Proof.
  unfold validate_top.
  destruct (loop_best E base_home (firstn 40 (sort_desc scored))
              (None, None, None) s) as [H1 H2].
  - apply StronglySorted_firstn, sort_desc_sorted.
  - intros e c H. discriminate.
  - intros e c H. discriminate.
  - cbn [fst snd] in H1, H2.
    destruct (fst (for_each (validate_step E base_home)
                     (firstn 40 (sort_desc scored)) (None, None, None) s))
      as [[bh bp] lb].
    cbn [fst snd] in H1, H2. subst bh bp. unfold chosen_of.
    now destruct (first_of (omap (html_entry E base_home)
                              (firstn 40 (sort_desc scored)))).
Qed.

Lemma accepted_entry_sound (c : Scored) (pdf : bool)
    (sc : Z) (f src why : string) :
  accepted_entry E base_home c = Some (pdf, (sc, f, src, why)) ->
  sc = score_of c /\ tried c = true /\ nonempty f = true /\ pdf = is_pdf f
  /\ exists b, verdict_of E base_home (scored_url c) = (true, Some f, why, b).
Proof.
  destruct c as [[[sc0 u] t] src0]. unfold accepted_entry, scored_url.
  destruct (tried (sc0, u, t, src0)); [|discriminate].
  destruct (verdict_of E base_home u) as [[[[] [f0|]] why0] b]; try discriminate.
  destruct (nonempty f0) eqn:Hn; [|discriminate].
  intros H; inversion H; subst. repeat split; eauto.
Qed.

Lemma verdict_of_accept (u f why : string) (b : option string) :
  verdict_of E base_home u = (true, Some f, why, b) ->
  same_site E f base_home = true \/ is_ats f = true.
Proof.
  unfold verdict_of. destruct (requests_get E u) as [resp|e]; [|discriminate].
  intros H. apply validate_response_accept in H
    as [(t & _ & Hf & _ & Ha)|(Hf & _ & _ & Hor)];
    inversion Hf; subst; auto.
Qed.

(** The chosen entry stems from a tried candidate of the first 40 that
    the Validator accepted. *)
Lemma validate_top_chosen_sound (scored : list Scored) (s : St)
    (sc : Z) (f src why : string) :
  chosen_of (fst (validate_top E base_home (sort_desc scored) s))
  = Some (sc, f, src, why) ->
  exists c b, In c (firstn 40 (sort_desc scored))
              /\ tried c = true /\ score_of c = sc
              /\ verdict_of E base_home (scored_url c) = (true, Some f, why, b)
              /\ nonempty f = true.
Proof.
  rewrite validate_top_chosen.
  destruct (first_of (omap (html_entry E base_home) (firstn 40 (sort_desc scored))))
    as [e|] eqn:Hh.
  - intros H; inversion H; subst e.
    apply first_of_omap_Some in Hh as (c & Hin & Hc).
    unfold html_entry in Hc.
    destruct (accepted_entry E base_home c) as [[[] e]|] eqn:Ha; try discriminate.
    inversion Hc; subst e.
    apply accepted_entry_sound in Ha as (H1 & H2 & H3 & _ & b & H5).
    exists c, b. auto.
  - intros Hp. apply first_of_omap_Some in Hp as (c & Hin & Hc).
    unfold pdf_entry in Hc.
    destruct (accepted_entry E base_home c) as [[[] e]|] eqn:Ha; try discriminate.
    inversion Hc; subst e.
    apply accepted_entry_sound in Ha as (H1 & H2 & H3 & _ & b & H5).
    exists c, b. auto.
Qed.

End Chosen.

(** The validation loop chooses the first candidate in score order,
    among the first 40, that is tried and accepted with a final URL that
    is not a PDF; when there is none, the first one accepted with a PDF.
    An accepted page is therefore preferred to an accepted PDF whatever
    their scores, and among equal scores the earlier candidate wins. *)
Theorem first_accepted_is_chosen (E : Env) (base_home : string)
    (scored : list Scored) (s : St) :
  chosen_of (fst (validate_top E base_home (sort_desc scored) s))
  = match first_of (omap (html_entry E base_home) (firstn 40 (sort_desc scored))) with
    | Some e => Some e
    | None => first_of (omap (pdf_entry E base_home) (firstn 40 (sort_desc scored)))
    end
  /\ (forall e, chosen_of (fst (validate_top E base_home (sort_desc scored) s)) = Some e ->
        exists c, In c (firstn 40 (sort_desc scored))
                  /\ tried c = true /\ score_of c = entry_score e
                  /\ (html_entry E base_home c = Some e
                      \/ pdf_entry E base_home c = Some e)).
Proof.
  split; [apply validate_top_chosen|].
  intros e. rewrite validate_top_chosen.
  destruct (first_of (omap (html_entry E base_home) (firstn 40 (sort_desc scored))))
    as [e'|] eqn:Hh.
  - intros H; inversion H; subst e'.
    apply first_of_omap_Some in Hh as (c & Hin & Hc).
    exists c. repeat split; auto.
    + unfold html_entry in Hc.
      destruct (accepted_entry E base_home c) as [[[] e0]|] eqn:Ha;
        try discriminate.
      destruct e0 as [[[sc f] src] why].
      now apply accepted_entry_sound in Ha as (_ & H2 & _).
    + symmetry. now apply html_entry_score with (E := E) (base_home := base_home).
  - intros Hp. apply first_of_omap_Some in Hp as (c & Hin & Hc).
    exists c. repeat split; auto.
    + unfold pdf_entry in Hc.
      destruct (accepted_entry E base_home c) as [[[] e0]|] eqn:Ha;
        try discriminate.
      destruct e0 as [[[sc f] src] why].
      now apply accepted_entry_sound in Ha as (_ & H2 & _).
    + symmetry. now apply pdf_entry_score with (E := E) (base_home := base_home).
Qed.

(** A run that reports a provenance ([source]) has persisted an accepted
    candidate: the new link in the row is the record's employment link,
    it is not empty, and it is same-site with the record's homepage or a
    vendor URL. *)
Theorem persisted_link_is_acceptable (E : Env) (rec : gmap string value) (s : St) :
  is_Some (row_of (rediscover_for_town E rec s) !! "source") ->
  exists new_emp,
    row_of (rediscover_for_town E rec s) !! "new_employment_url"
    = Some (VStr new_emp)
    /\ rec_of (rediscover_for_town E rec s) !! "Employment Page URL"
       = Some (VStr new_emp)
    /\ nonempty new_emp = true
    /\ (same_site E new_emp
          (text_of (dict_get (ensure_homepage E rec) "Town Website")) = true
        \/ is_ats new_emp = true).
Proof.
  destruct (rediscover_for_town_cases E rec s)
    as [(_ & ->)|[(_ & _ & ->)|[(_ & _ & _ & ->)|(_ & _ & _ & ->)]]];
    unfold row_of, rec_of; cbn [fst snd];
    try (row_lookup; intros [x Hx]; discriminate).
  rewrite attempt_eq.
  set (base := text_of (dict_get (ensure_homepage E rec) "Town Website")).
  set (g := gather E _ base _ s).
  assert (Hscored : score_all E base (dedupe (fst g))
                    = score_all E base (dedupe (fst g))) by reflexivity.
  set (scored := score_all E base (dedupe (fst g))) in *.
  pose proof (validate_top_chosen_sound E base scored (snd g)) as Hsound.
  destruct (validate_top E base (sort_desc scored) (snd g)) as [st s2].
  cbn [fst snd] in *.
  destruct (chosen_of st) as [[[[sc new_emp] src] why]|] eqn:Hc.
  - rewrite (decide_outcome_updated _ _ _ _ _ _ _ _ _ _ _ Hc). cbn [fst snd].
    intros _. exists new_emp.
    destruct (Hsound sc new_emp src why eq_refl) as (c & b & _ & _ & _ & Hv & Hn).
    destruct (persisted_link E (gated E rec)
                (detect_platform (ensure_homepage E rec)) sc new_emp src why s2)
      as (P1 & _).
    split; [row_lookup|].
    split; [rewrite refresh_application_frame by not_listed; exact P1|].
    split; [exact Hn|]. now apply verdict_of_accept in Hv.
  - destruct (decide (detect_platform (ensure_homepage E rec) = civiclift))
      as [Hciv|Hciv].
    + rewrite Hciv. rewrite (decide_outcome_ephemeral _ _ _ _ _ _ Hc).
      cbn [fst]. row_lookup. intros [x Hx]; discriminate.
    + rewrite (decide_outcome_review _ _ _ _ _ _ _ Hc Hciv).
      destruct (snd st); cbn [fst]; row_lookup; intros [x Hx]; discriminate.
Qed.

Lemma persisted_link_is_acceptable_witness :
  exists new_emp,
    row_of (rediscover_for_town town_env town_rec St0) !! "new_employment_url"
    = Some (VStr new_emp)
    /\ rec_of (rediscover_for_town town_env town_rec St0) !! "Employment Page URL"
       = Some (VStr new_emp)
    /\ nonempty new_emp = true
    /\ (same_site town_env new_emp
          (text_of (dict_get (ensure_homepage town_env town_rec) "Town Website"))
        = true
        \/ is_ats new_emp = true).
Proof.
  apply (persisted_link_is_acceptable town_env town_rec St0).
  vm_compute. eauto.
Defined.

(** ** The attempt gate *)

Lemma py_in_DO_NOT_REWRITE (v : value) :
  py_in v DO_NOT_REWRITE_IF_STATUS_IN = true <-> v = VInt 401 \/ v = VInt 403.
Proof.
  split; [apply DO_NOT_REWRITE_inv|].
  intros [-> | ->]; reflexivity.
Qed.

Lemma py_in_REDISCOVER (v : value) :
  py_in v REDISCOVER_IF_STATUS_IN = true
  <-> v = VNone \/ v = VInt 404 \/ v = VInt 410 \/ v = VInt (-1).
Proof.
  split.
  - unfold py_in, REDISCOVER_IF_STATUS_IN, py_eq. simpl.
    destruct v as [|b|z|t]; simpl; auto; try discriminate.
    + destruct b; discriminate.
    + rewrite !orb_false_r. intros H.
      apply orb_prop in H as [H|H]; [|apply orb_prop in H as [H|H]];
        apply Z.eqb_eq in H; subst; auto.
  - intros [->|[->|[->| ->]]]; reflexivity.
Qed.

(** The attempt gate as a decision table on the stored status [v] (a
    missing key reads as null) and the soft-404 flag: a record is
    attempted exactly when the status is null, 404, 410 or -1, or when
    the soft-404 flag is truthy and the status is neither 401 nor 403.
    Any other status, 200 or 500 alike, closes the gate. *)
Theorem should_attempt_table (rec : gmap string value) :
  should_attempt rec = true
  <-> dict_get rec "employment_url_status_code" = VNone
      \/ dict_get rec "employment_url_status_code" = VInt 404
      \/ dict_get rec "employment_url_status_code" = VInt 410
      \/ dict_get rec "employment_url_status_code" = VInt (-1)
      \/ (truthy (dict_get rec "employment_url_soft404") = true
          /\ dict_get rec "employment_url_status_code" <> VInt 401
          /\ dict_get rec "employment_url_status_code" <> VInt 403).
Proof.
  unfold should_attempt.
  set (v := dict_get rec "employment_url_status_code").
  set (f := truthy (dict_get rec "employment_url_soft404")).
  destruct (py_in v DO_NOT_REWRITE_IF_STATUS_IN) eqn:Hd.
  - apply py_in_DO_NOT_REWRITE in Hd. split; [discriminate|].
    intros [H|[H|[H|[H|(_ & H1 & H2)]]]]; destruct Hd as [Hd|Hd];
      rewrite Hd in *; try discriminate; contradiction.
  - assert (Hn : v <> VInt 401 /\ v <> VInt 403).
    { split; intros Hv; assert (Ht : py_in v DO_NOT_REWRITE_IF_STATUS_IN = true)
        by (apply py_in_DO_NOT_REWRITE; auto); congruence. }
    destruct (py_in v REDISCOVER_IF_STATUS_IN) eqn:Hr.
    + apply py_in_REDISCOVER in Hr. split; [|reflexivity]. intros _. tauto.
    + assert (Hnr : ~ (v = VNone \/ v = VInt 404 \/ v = VInt 410 \/ v = VInt (-1))).
      { intros H. apply py_in_REDISCOVER in H. congruence. }
      unfold REDISCOVER_IF_SOFT404_TRUE. simpl.
      destruct f; split; try tauto; try discriminate;
        intros [H|[H|[H|[H|(H & _)]]]]; try discriminate; exfalso; tauto.
Qed.

(** A record that the gate turns away is not fetched for at all: the
    state is as before, every field other than ["Town Website"] and
    ["platform_detected"] is untouched, and the action is [skipped] or
    [no_change]. *)
Theorem closed_gate_no_network (E : Env) (rec : gmap string value) (s : St) :
  should_attempt rec = false ->
  state_of (rediscover_for_town E rec s) = s
  /\ (forall k, k <> "Town Website" -> k <> "platform_detected" ->
                rec_of (rediscover_for_town E rec s) !! k = rec !! k)
  /\ (row_of (rediscover_for_town E rec s) !! "action" = Some (VStr "skipped")
      \/ row_of (rediscover_for_town E rec s) !! "action" = Some (VStr "no_change")).
Proof.
  intros Hs.
  destruct (rediscover_for_town_cases E rec s)
    as [(_ & ->)|[(_ & _ & ->)|[(_ & _ & _ & ->)|(_ & _ & Ha & _)]]];
    try congruence; unfold state_of, rec_of, row_of; cbn [fst snd].
  - split; [reflexivity|]. split.
    + intros k Hk _. now apply ensure_homepage_frame.
    + left. apply row3_action.
  - split; [reflexivity|]. split.
    + intros k Hk Hk'. now apply gated_frame.
    + right. rewrite lookup_insert_ne by discriminate. apply row3_action.
  - split; [reflexivity|]. split.
    + intros k Hk Hk'. now apply gated_frame.
    + right. rewrite lookup_insert_ne by discriminate. apply row3_action.
Qed.

Lemma closed_gate_no_network_witness :
  state_of (rediscover_for_town town_env healthy_rec St0) = St0
  /\ rec_of (rediscover_for_town town_env healthy_rec St0) !! "Employment Page URL"
     = Some (VStr "https://www.town.gov/jobs")
  /\ row_of (rediscover_for_town town_env healthy_rec St0) !! "action"
     = Some (VStr "no_change").
Proof.
  destruct (closed_gate_no_network town_env healthy_rec St0) as (H1 & H2 & _);
    [vm_compute; reflexivity|].
  split; [exact H1|]. split; [|vm_compute; reflexivity].
  rewrite H2 by discriminate. vm_compute. reflexivity.
Defined.

(** ** The range of a score *)

Section ScoreFacts.

Variable E : Env.

Lemma bump_range (b : bool) (k s lo hi : Z) :
  lo <= s <= hi -> lo + Z.min 0 k <= bump b k s <= hi + Z.max 0 k.
Proof. unfold bump. destruct b; lia. Qed.

Lemma score_candidate_chain (u label base_home source : string) :
  is_social u = false ->
  score_candidate E u label base_home source
  = bump (any_in KW_NEGATIVE (lower label) && negb (kw_hit (lower label))) (-10)
     (bump (any_in KW_NEGATIVE (lower u) && negb (kw_hit (lower u))) (-15)
       (bump (contains "jobs.aspx" (lower u)) 20
         (bump (any_in URL_TOKENS (lower u)) 10
           (bump (is_pdf u) (-25)
             (bump (CIVICPLUS_PAGEID_RE_match (path (urlparse E u))
                    && (contains "employment" (lower u)
                        || contains "job" (lower u)
                        || contains "career" (lower u))) 30
               (bump (any_in KW_STRONG_LABELS (lower label)) 15
                 (bump (kw_hit (lower u) || kw_hit (lower label)) 50
                   (bump (bool_decide (source ∈ PATH_SOURCES)) 20
                     (bump (is_ats u) 45
                       (bump (same_site E u base_home) 40 0)))))))))).
Proof.
  intros Hs. unfold score_candidate. rewrite Hs. unfold bump.
  destruct (is_pdf u); reflexivity.
Qed.

End ScoreFacts.

(** The score of a URL that is not social lies between -50 and 230; and
    when the URL or the label contains an employment keyword it is at
    least 10, so such a candidate is never passed over by the loop's
    test for a negative score. *)
Theorem score_range (E : Env) (u label base_home source : string) :
  is_social u = false ->
  -50 <= score_candidate E u label base_home source <= 230
  /\ (kw_hit u || kw_hit label = true ->
      10 <= score_candidate E u label base_home source).
Proof.
  intros Hs. rewrite (score_candidate_chain E _ _ _ _ Hs).
  rewrite !kw_hit_lower.
  set (c1 := same_site E u base_home).
  set (c2 := is_ats u).
  set (c3 := bool_decide (source ∈ PATH_SOURCES)).
  set (c5 := any_in KW_STRONG_LABELS (lower label)).
  set (c6 := CIVICPLUS_PAGEID_RE_match (path (urlparse E u)) && _).
  set (c7 := is_pdf u).
  set (c8 := any_in URL_TOKENS (lower u)).
  set (c9 := contains "jobs.aspx" (lower u)).
  set (n1 := any_in KW_NEGATIVE (lower u)).
  set (n2 := any_in KW_NEGATIVE (lower label)).
  assert (B1 : 0 <= bump c1 40 0 <= 40) by (unfold bump; destruct c1; lia).
  pose proof (bump_range c2 45 _ _ _ B1) as B2.
  pose proof (bump_range c3 20 _ _ _ B2) as B3.
  set (base := bump c3 20 (bump c2 45 (bump c1 40 0))) in *.
  assert (Hmain : forall k : bool,
             (if k then 50 else 0) - 25
             <= bump c9 20 (bump c8 10 (bump c7 (-25) (bump c6 30 (bump c5 15
                  (bump k 50 base)))))
             <= 230).
  { intros k. clearbody base c5 c6 c7 c8 c9. unfold bump.
    destruct k, c5, c6, c7, c8, c9; lia. }
  specialize (Hmain (kw_hit u || kw_hit label)).
  set (x := bump c9 20 _) in *. clearbody x n1 n2.
  unfold bump.
  destruct (kw_hit u), (kw_hit label), n1, n2; cbn [andb orb negb] in *;
    (split; [lia | intros; try discriminate; lia]).
Qed.

Lemma score_range_witness :
  -50 <= score_candidate town_env town_quicklinks "Jobs" town_home "homepage_link"
      <= 230
  /\ 10 <= score_candidate town_env town_quicklinks "Jobs" town_home "homepage_link".
Proof.
  destruct (score_range town_env town_quicklinks "Jobs" town_home "homepage_link")
    as [H1 H2]; [vm_compute; reflexivity|].
  split; [exact H1|]. apply H2. vm_compute. reflexivity.
Defined.

(** ** The application finder *)

Section Finder.

Variable E : Env.

Lemma application_score_hint (base_home u t : string) :
  35 <= application_score E base_home u t ->
  any_in APPLICATION_HINTS (lower (u ++ " " ++ t)) = true.
Proof.
  unfold application_score, any_in, APPLICATION_HINTS.
  cbv zeta. cbn [fold_left existsb].
  set (hay := lower (u ++ " " ++ t)).
  destruct (same_site E u base_home),
    (contains "application for employment" hay),
    (contains "employment application" hay),
    (contains "job application" hay),
    (contains "application" hay),
    (contains "fillable" hay),
    (contains "empapp" hay),
    (contains "employment-app" hay); cbn [orb]; intros; try reflexivity; lia.
Qed.

Lemma application_score_word (base_home u t : string) :
  contains "application" (lower (u ++ " " ++ t)) = true ->
  35 <= application_score E base_home u t.
Proof.
  unfold application_score, APPLICATION_HINTS.
  cbv zeta. cbn [fold_left].
  set (hay := lower (u ++ " " ++ t)). intros ->.
  destruct (same_site E u base_home),
    (contains "application for employment" hay),
    (contains "employment application" hay),
    (contains "job application" hay),
    (contains "fillable" hay),
    (contains "empapp" hay),
    (contains "employment-app" hay); lia.
Qed.

Lemma best_pdf_fold (base_home : string) (pdfs : list (string * string))
    (b0 : option string) (sc0 : Z) :
  let r := fold_left (fun '(best, best_score) '(u, t) =>
                        let s := application_score E base_home u t in
                        if best_score <? s then (Some u, s) else (best, best_score))
                     pdfs (b0, sc0) in
  sc0 <= snd r
  /\ (forall u t, (u, t) ∈ pdfs -> application_score E base_home u t <= snd r)
  /\ (r = (b0, sc0)
      \/ exists u t, (u, t) ∈ pdfs /\ fst r = Some u
                     /\ snd r = application_score E base_home u t).
Proof.
  revert b0 sc0. induction pdfs as [|[u t] l IH]; intros b0 sc0; cbn [fold_left].
  - cbv zeta. split; [simpl; lia|]. split; [|now left].
    intros u t H. now apply elem_of_nil in H.
  - cbv zeta.
    destruct (sc0 <? application_score E base_home u t) eqn:Hlt.
    + apply Z.ltb_lt in Hlt.
      destruct (IH (Some u) (application_score E base_home u t)) as (H1 & H2 & H3).
      cbv zeta in H1, H2, H3.
      split; [lia|]. split.
      * intros u' t' H. apply elem_of_cons in H as [H|H]; [|now apply H2].
        inversion H; subst. exact H1.
      * right. destruct H3 as [H3|(u' & t' & Hin & Hf & Hs)].
        -- exists u, t. rewrite H3. split; [apply elem_of_cons; now left|].
           split; reflexivity.
        -- exists u', t'. split; [apply elem_of_cons; now right|]. now split.
    + apply Z.ltb_ge in Hlt.
      destruct (IH b0 sc0) as (H1 & H2 & H3).
      cbv zeta in H1, H2, H3.
      split; [exact H1|]. split.
      * intros u' t' H. apply elem_of_cons in H as [H|H]; [|now apply H2].
        inversion H; subst. lia.
      * destruct H3 as [H3|(u' & t' & Hin & Hf & Hs)]; [now left|].
        right. exists u', t'. split; [apply elem_of_cons; now right|]. now split.
Qed.

Lemma best_pdf_link_spec (base_home : string) (pdfs : list (string * string))
    (best : string) (sc : Z) :
  best_pdf_link E base_home pdfs = (Some best, sc) ->
  (forall u t, (u, t) ∈ pdfs -> application_score E base_home u t <= sc)
  /\ exists t, (best, t) ∈ pdfs /\ sc = application_score E base_home best t.
Proof.
  intros Hb. pose proof (best_pdf_fold base_home pdfs None (-999)) as H.
  cbv zeta in H. fold (best_pdf_link E base_home pdfs) in H.
  rewrite Hb in H. destruct H as (_ & H2 & H3). split; [exact H2|].
  destruct H3 as [H3|(u & t & Hin & Hf & Hs)]; [discriminate|].
  simpl in Hf, Hs. inversion Hf; subst. now exists t.
Qed.

End Finder.

(** When the application finder returns a link, its reason is
    application_pdf_found_on_employment_page and the link is the final
    URL of an accepted validation of a link of the employment page that
    ends in .pdf, whose URL and label together contain one of the
    application hints, whose score is at least 35 and is the highest
    among the page's PDF links.  The employment page was fetched with a
    status below 400. *)
Theorem application_pdf_sound (E : Env) (employment_url base_home : string)
    (s : St) (pdf reason : string) :
  fst (find_application_pdf E employment_url base_home s) = (Some pdf, reason) ->
  reason = "application_pdf_found_on_employment_page"
  /\ exists r best t why b,
       requests_get E employment_url = inl r
       /\ status_code r < 400
       /\ (best, t) ∈ extract_links E
                        (if nonempty (url r) then url r else employment_url)
                        (text r)
       /\ is_pdf best = true
       /\ any_in APPLICATION_HINTS (lower (best ++ " " ++ t)) = true
       /\ 35 <= application_score E base_home best t
       /\ (forall u' t',
              (u', t') ∈ extract_links E
                           (if nonempty (url r) then url r else employment_url)
                           (text r) ->
              is_pdf u' = true ->
              application_score E base_home u' t'
              <= application_score E base_home best t)
       /\ fst (validate_candidate E best base_home (logged s employment_url))
          = (true, Some pdf, why, b).
Proof.
  unfold find_application_pdf, bind, get.
  fold (logged s employment_url).
  destruct (requests_get E employment_url) as [r|e] eqn:Hget; [|discriminate].
  destruct (400 <=? status_code r) eqn:Hst; [discriminate|].
  apply Z.leb_gt in Hst. cbn [orb].
  destruct (looks_soft404 r); [discriminate|].
  cbv zeta.
  destruct (negb (contains "text/html" (lower (default "" (content_type r))))
            && nonempty (lower (default "" (content_type r)))); [discriminate|].
  set (links := extract_links E _ (text r)).
  set (pdfs := List.filter _ links).
  destruct pdfs as [|p0 pl] eqn:Hp; [discriminate|]. rewrite <- Hp. clear Hp.
  destruct (best_pdf_link E base_home pdfs) as [[best|] sc] eqn:Hb; [|discriminate].
  destruct (nonempty best && (35 <=? sc)) eqn:Hc; [|discriminate].
  apply andb_true_iff in Hc as [_ Hc]. apply Z.leb_le in Hc.
  destruct (validate_candidate E best base_home (logged s employment_url))
    as [[[[ok final] why] b] s1] eqn:Hv.
  destruct ok; [|discriminate].
  simpl. intros Heq. inversion Heq; subst. split; [reflexivity|].
  destruct (best_pdf_link_spec E base_home pdfs best sc Hb) as (Hmax & t & Hin & Hsc).
  assert (Hf : forall u' t', (u', t') ∈ pdfs <-> (u', t') ∈ links /\ is_pdf u' = true).
  { intros u' t'. unfold pdfs. rewrite !list_elem_of_In, filter_In. reflexivity. }
  apply Hf in Hin as [Hin Hpdf].
  exists r, best, t, why, b. subst sc.
  split; [reflexivity|]. split; [exact Hst|]. split; [exact Hin|].
  split; [exact Hpdf|]. split; [now apply (application_score_hint E base_home)|].
  split; [exact Hc|]. split; [|now rewrite Hv].
  intros u' t' Hu Hp. apply Hmax. apply Hf. now split.
Qed.

Lemma application_pdf_sound_witness :
  fst (find_application_pdf forms_env hall_jobs hall_home St0)
  = (Some form_pdf, "application_pdf_found_on_employment_page")
  /\ "application_pdf_found_on_employment_page"
     = "application_pdf_found_on_employment_page".
Proof.
  assert (H : fst (find_application_pdf forms_env hall_jobs hall_home St0)
              = (Some form_pdf, "application_pdf_found_on_employment_page"))
    by (vm_compute; reflexivity).
  split; [exact H|].
  exact (proj1 (application_pdf_sound forms_env hall_jobs hall_home St0 _ _ H)).
Defined.

(** ** The original application link *)

Section OriginalLink.

Variable E : Env.

Lemma refresh_application_original (rec : gmap string value)
    (new_emp base_home : string) (s : St) :
  (forall v, rec !! "Application Form URL (original)" = Some v ->
             fst (refresh_application E rec new_emp base_home s)
               !! "Application Form URL (original)" = Some v)
  /\ (rec !! "Application Form URL (original)" = None ->
      (fst (refresh_application E rec new_emp base_home s)
         !! "Application Form URL (original)" = None
       /\ (fst (refresh_application E rec new_emp base_home s)
             !! "Application Form URL" = rec !! "Application Form URL"
           \/ forall a, rec !! "Application Form URL" <> Some (VStr a)))
      \/ exists a, rec !! "Application Form URL" = Some (VStr a)
                   /\ fst (refresh_application E rec new_emp base_home s)
                        !! "Application Form URL (original)" = Some (VStr a)).
Proof.
  unfold refresh_application.
  destruct (negb (is_pdf new_emp) && same_site E new_emp base_home);
    [|split; [auto|intros H; left; auto]].
  unfold bind.
  destruct (find_application_pdf E new_emp base_home s) as [[pdf pdf_reason] s1].
  destruct pdf as [pdf|]; [|split; [auto|intros H; left; auto]].
  destruct (nonempty pdf); [|split; [auto|intros H; left; auto]].
  unfold now_utc_iso, ret; cbn [fst].
  split.
  - intros v Hv. rewrite !lookup_insert_ne by discriminate. now rewrite Hv.
  - intros Hn. rewrite !lookup_insert_ne by discriminate. rewrite Hn.
    unfold dict_get.
    destruct (rec !! "Application Form URL") as [[| | |a]|] eqn:Ha; cbn [default];
      try (left; split; [exact Hn|right; intros a'; discriminate]).
    right. exists a. split; [reflexivity|]. apply lookup_insert_eq.
Qed.

End OriginalLink.

(** Across a run the field Application Form URL (original) is written at
    most once: a value it already has is kept, and when it is absent it
    either stays absent (and then the application link is unchanged, or
    was not a string) or takes the string that Application Form URL held
    before the run. *)
Theorem original_application_link_kept (E : Env) (rec : gmap string value)
    (s : St) :
  (forall v, rec !! "Application Form URL (original)" = Some v ->
             rec_of (rediscover_for_town E rec s)
               !! "Application Form URL (original)" = Some v)
  /\ (rec !! "Application Form URL (original)" = None ->
      (rec_of (rediscover_for_town E rec s)
         !! "Application Form URL (original)" = None
       /\ (rec_of (rediscover_for_town E rec s) !! "Application Form URL"
           = rec !! "Application Form URL"
           \/ forall a, rec !! "Application Form URL" <> Some (VStr a)))
      \/ exists a, rec !! "Application Form URL" = Some (VStr a)
                   /\ rec_of (rediscover_for_town E rec s)
                        !! "Application Form URL (original)" = Some (VStr a)).
Proof.
  pose proof (rediscover_for_town_outcome E rec s) as H.
  remember (rediscover_for_town E rec s) as R eqn:HR. clear HR.
  assert (G : forall k, k ∈ APPLICATION_FIELDS -> gated E rec !! k = rec !! k).
  { intros k Hk. destruct (application_not_written k Hk). now apply gated_frame. }
  assert (GO := G "Application Form URL (original)"
                  ltac:(apply list_elem_of_In; simpl; auto)).
  assert (GA := G "Application Form URL"
                  ltac:(apply list_elem_of_In; simpl; auto)).
  destruct H; unfold rec_of; cbn [fst snd].
  - rewrite !ensure_homepage_frame by discriminate.
    split; [auto|intros Hn; left; auto].
  - rewrite GO, GA. split; [auto|intros Hn; left; auto].
  - rewrite GO, GA. split; [auto|intros Hn; left; auto].
  - rewrite !lookup_insert_ne by discriminate. rewrite GO, GA.
    split; [auto|intros Hn; left; auto].
  - rewrite !lookup_insert_ne by discriminate. rewrite GO, GA.
    split; [auto|intros Hn; left; auto].
  - match goal with
    | |- context [refresh_application E ?P ?n ?b ?st] =>
        pose proof (refresh_application_original E P n b st) as [R1 R2];
        assert (PO : P !! "Application Form URL (original)"
                     = rec !! "Application Form URL (original)")
          by (rewrite persisted_application
                by (apply list_elem_of_In; simpl; auto); exact GO);
        assert (PA : P !! "Application Form URL" = rec !! "Application Form URL")
          by (rewrite persisted_application
                by (apply list_elem_of_In; simpl; auto); exact GA)
    end.
    rewrite PO in R1, R2. rewrite PA in R2. split; [exact R1|exact R2].
Qed.

(** The score of a PDF link as an application form lies between 0 and
    205.  A link whose URL or label contains the word application reaches
    the threshold of 35 wherever it is hosted; a link that contains none
    of the application hints scores at most 20 and never reaches it. *)
Theorem application_score_threshold (E : Env) (base_home u t : string) :
  0 <= application_score E base_home u t <= 205
  /\ (contains "application" (lower (u ++ " " ++ t)) = true ->
      35 <= application_score E base_home u t)
  /\ (any_in APPLICATION_HINTS (lower (u ++ " " ++ t)) = false ->
      application_score E base_home u t <= 20).
Proof.
  split; [|split; [apply application_score_word|]].
  - unfold application_score, APPLICATION_HINTS.
    cbv zeta. cbn [fold_left].
    set (hay := lower (u ++ " " ++ t)).
    destruct (same_site E u base_home),
      (contains "application for employment" hay),
      (contains "employment application" hay),
      (contains "job application" hay),
      (contains "application" hay),
      (contains "fillable" hay),
      (contains "empapp" hay),
      (contains "employment-app" hay); lia.
  - intros Hn.
    destruct (Z_lt_le_dec 20 (application_score E base_home u t)) as [Hlt|]; [|lia].
    exfalso. revert Hn Hlt.
    unfold application_score, any_in, APPLICATION_HINTS.
    cbv zeta. cbn [fold_left existsb].
    set (hay := lower (u ++ " " ++ t)).
    destruct (same_site E u base_home),
      (contains "application for employment" hay),
      (contains "employment application" hay),
      (contains "job application" hay),
      (contains "application" hay),
      (contains "fillable" hay),
      (contains "empapp" hay),
      (contains "employment-app" hay); cbn [orb]; intros; try discriminate; lia.
Qed.

(** ** The run over all records *)

Section MainLoop.

Variable E : Env.

Lemma main_loop_items (target : string)
    (data done : list (option (gmap string value)))
    (rows : list (gmap string value)) (s : St) :
  exists outs,
    fst (fst (for_each (main_step E target) data (done, rows) s))
    = (done ++ outs)%list
    /\ Forall2 (fun item o =>
                  (selected target item = false /\ o = item)
                  \/ exists rec s1,
                       item = Some rec /\ selected target item = true
                       /\ o = Some (rec_of (rediscover_for_town E rec s1)))
               data outs.
Proof.
  revert done rows s. induction data as [|item r IH]; intros done rows s.
  - exists []. split; [simpl; now rewrite app_nil_r|constructor].
  - cbn [for_each]. unfold bind.
    assert (Hstep : exists o rows' s',
               main_step E target item (done, rows) s
               = ((done ++ [o])%list, rows', s')
               /\ ((selected target item = false /\ o = item)
                   \/ exists rec s1,
                        item = Some rec /\ selected target item = true
                        /\ o = Some (rec_of (rediscover_for_town E rec s1)))).
    { unfold main_step. destruct item as [rec|].
      - destruct (selected target (Some rec)) eqn:Hsel.
        + unfold bind.
          destruct (rediscover_for_town E rec s) as [[row rec'] s'] eqn:Hr.
          exists (Some rec'), (rows ++ [row])%list, s'. split; [reflexivity|].
          right. exists rec, s. rewrite Hr. auto.
        + exists (Some rec), rows, s. split; [reflexivity|]. left. auto.
      - exists None, rows, s. split; [reflexivity|]. left. auto. }
    destruct Hstep as (o & rows' & s' & -> & Ho).
    destruct (IH (done ++ [o])%list rows' s') as (outs & -> & Hall).
    exists (o :: outs). split; [now rewrite <- app_assoc|].
    constructor; assumption.
Qed.

End MainLoop.

(** The run writes the list back element by element: the result has the
    length of the input; an element that is not a record, or a record
    that the town filter does not select, stands unchanged at its index;
    a selected record is replaced, at its index, by the record as its own
    rediscovery leaves it. *)
Theorem main_loop_positional (E : Env) (town_arg : option string)
    (data : list (option (gmap string value))) (s : St)
    (i : nat) (item : option (gmap string value)) :
  data !! i = Some item ->
  length (fst (fst (main_loop E town_arg data s))) = length data
  /\ (selected (lower (strip (default "" town_arg))) item = false ->
      fst (fst (main_loop E town_arg data s)) !! i = Some item)
  /\ (selected (lower (strip (default "" town_arg))) item = true ->
      exists rec s1,
        item = Some rec
        /\ fst (fst (main_loop E town_arg data s)) !! i
           = Some (Some (rec_of (rediscover_for_town E rec s1)))).
Proof.
  intros Hi. unfold main_loop.
  destruct (main_loop_items E (lower (strip (default "" town_arg))) data [] [] s)
    as (outs & -> & Hall).
  cbn [app].
  split; [symmetry; eapply Forall2_length; exact Hall|].
  destruct (Forall2_lookup_l _ _ _ _ _ Hall Hi) as (o & Ho & Hcase).
  split.
  - intros Hsel. destruct Hcase as [[_ ->]|(rec & s1 & _ & Ht & _)];
      [exact Ho|congruence].
  - intros Hsel. destruct Hcase as [[Hf _]|(rec & s1 & -> & _ & ->)];
      [congruence|]. exists rec, s1. auto.
Qed.

Lemma main_loop_positional_witness :
  length (fst (fst (main_loop dead_env (Some "Avon") down_data St0))) = 3%nat
  /\ fst (fst (main_loop dead_env (Some "Avon") down_data St0)) !! 0%nat
     = Some (Some lift_rec).
Proof.
  destruct (main_loop_positional dead_env (Some "Avon") down_data St0 0
              (Some lift_rec) eq_refl) as (H1 & H2 & _).
  split; [exact H1|]. apply H2. vm_compute. reflexivity.
Defined.

(** ** The report row *)

Section RowFacts.

Variable E : Env.

Lemma or_else_truthy (v : value) : truthy (or_else v (VStr "(unknown)")) = true.
Proof. unfold or_else. destruct (truthy v) eqn:H; [exact H|reflexivity]. Qed.

Lemma gated_platform (rec : gmap string value) :
  gated E rec !! "platform_detected"
  = Some (VStr (platform_name (detect_platform (ensure_homepage E rec)))).
Proof. unfold gated. apply lookup_insert_eq. Qed.

Lemma persisted_platform (rec : gmap string value) (platform : Platform)
    (c : Z * string * string * string) (s : St) :
  persisted E rec platform c s !! "platform_detected"
  = Some (VStr (platform_name platform)).
Proof.
  destruct c as [[[sc new_emp] src] why].
  unfold persisted. rewrite update_record_eq. cbn [fst].
  rewrite !lookup_insert_ne by discriminate. apply lookup_insert_eq.
Qed.

End RowFacts.

(** Every run reports a row with a Town that is never empty (the
    record's town, or (unknown)) and one of the four actions.  A skipped
    row carries no platform and the reason missing_town_homepage; every
    other row carries the detected platform, and the record's
    platform_detected field holds the same name. *)
Theorem report_row_shape (E : Env) (rec : gmap string value) (s : St) :
  row_of (rediscover_for_town E rec s) !! "Town"
  = Some (or_else (dict_get rec "Town") (VStr "(unknown)"))
  /\ truthy (or_else (dict_get rec "Town") (VStr "(unknown)")) = true
  /\ (row_of (rediscover_for_town E rec s) !! "action" = Some (VStr "skipped")
      \/ row_of (rediscover_for_town E rec s) !! "action" = Some (VStr "no_change")
      \/ row_of (rediscover_for_town E rec s) !! "action" = Some (VStr "needs_review")
      \/ row_of (rediscover_for_town E rec s) !! "action" = Some (VStr "updated"))
  /\ ((row_of (rediscover_for_town E rec s) !! "action" = Some (VStr "skipped")
       /\ row_of (rediscover_for_town E rec s) !! "reason"
          = Some (VStr "missing_town_homepage")
       /\ row_of (rediscover_for_town E rec s) !! "platform" = None)
      \/ (row_of (rediscover_for_town E rec s) !! "action" <> Some (VStr "skipped")
          /\ exists p,
               row_of (rediscover_for_town E rec s) !! "platform"
               = Some (VStr (platform_name p))
               /\ rec_of (rediscover_for_town E rec s) !! "platform_detected"
                  = Some (VStr (platform_name p)))).
Proof.
  pose proof (rediscover_for_town_outcome E rec s) as H.
  remember (rediscover_for_town E rec s) as R eqn:HR. clear HR.
  split; [|split; [apply or_else_truthy|]].
  { destruct H; unfold row_of; cbn [fst snd]; row_lookup. }
  split.
  { destruct H; unfold row_of; cbn [fst snd].
    - left. row_lookup.
    - right. left. row_lookup.
    - right. right. left. row_lookup.
    - right. right. left. row_lookup.
    - right. right. right. row_lookup.
    - right. right. right. row_lookup. }
  destruct H; unfold row_of, rec_of; cbn [fst snd].
  - left. split; [row_lookup|]. split; row_lookup.
  - right. split; [row_lookup; discriminate|].
    eexists. split; [row_lookup|apply gated_platform].
  - right. split; [row_lookup; discriminate|].
    eexists. split; [row_lookup|apply gated_platform].
  - right. split; [row_lookup; discriminate|].
    eexists. split; [row_lookup|].
    rewrite lookup_insert_ne by discriminate. apply gated_platform.
  - right. split; [row_lookup; discriminate|].
    exists civiclift. split; [row_lookup|].
    rewrite lookup_insert_ne by discriminate.
    rewrite gated_platform.
    match goal with Hc : detect_platform _ = civiclift |- _ => now rewrite Hc end.
  - right. split; [row_lookup; discriminate|].
    eexists. split; [row_lookup|].
    rewrite refresh_application_frame by not_listed.
    apply persisted_platform.
Qed.

(** ** The reported block signature *)

Section BlockedFacts.

Variable E : Env.
Variable base_home : string.

Lemma verdict_blocked (u : string) (b : string) :
  snd (verdict_of E base_home u) = Some b -> In b BLOCKED_PATTERNS.
Proof.
  unfold verdict_of. destruct (requests_get E u) as [resp|e]; [|discriminate].
  unfold validate_response.
  destruct (splash_vendor_target E (final_url E u resp)); [discriminate|].
  unfold validate_checks.
  destruct (400 <=? status_code resp); [discriminate|].
  destruct (effective_block (final_url E u resp) resp) as [b'|] eqn:Hb.
  - cbn [snd]. intros H. inversion H; subst.
    now destruct (effective_block_Some _ _ _ Hb).
  - destruct (looks_soft404 resp); [discriminate|].
    destruct (is_social (final_url E u resp)); [discriminate|].
    destruct (negb (same_site E (final_url E u resp) base_home)
              && negb (is_ats (final_url E u resp))); discriminate.
Qed.

Lemma validate_step_blocked (c : Scored) (acc : LoopState) (s : St) :
  (forall b, snd acc = Some b -> In b BLOCKED_PATTERNS) ->
  forall b, snd (fst (validate_step E base_home c acc s)) = Some b ->
            In b BLOCKED_PATTERNS.
Proof.
  destruct c as [[[sc u] t] src], acc as [[bh bp] lb]. cbn [snd].
  intros Hacc b. unfold validate_step.
  destruct (sc <? 0); [apply Hacc|].
  destruct (is_social u); [apply Hacc|].
  unfold bind.
  pose proof (validate_candidate_value E base_home u s) as Hv.
  pose proof (verdict_blocked u) as Hb.
  rewrite <- Hv in Hb.
  destruct (validate_candidate E u base_home s) as [[[[ok final] why] blocked] s1].
  cbn [fst snd] in Hb.
  assert (Hl : forall b0,
             match blocked with
             | Some b1 => if nonempty b1 then Some b1 else lb
             | None => lb
             end = Some b0 -> In b0 BLOCKED_PATTERNS).
  { intros b0. destruct blocked as [b1|]; [|apply Hacc].
    destruct (nonempty b1); [|apply Hacc].
    intros H. inversion H; subst. now apply Hb. }
  destruct final as [f|]; [|apply Hl].
  destruct (negb ok || negb (nonempty f)); [apply Hl|].
  destruct (is_pdf f); apply Hl.
Qed.

Lemma validate_loop_blocked (l : list Scored) (acc : LoopState) (s : St) :
  (forall b, snd acc = Some b -> In b BLOCKED_PATTERNS) ->
  forall b, snd (fst (for_each (validate_step E base_home) l acc s)) = Some b ->
            In b BLOCKED_PATTERNS.
Proof.
  revert acc s. induction l as [|c r IH]; intros acc s Hacc; [exact Hacc|].
  cbn [for_each]. unfold bind.
  pose proof (validate_step_blocked c acc s Hacc) as Hs.
  destruct (validate_step E base_home c acc s) as [acc' s'].
  now apply IH.
Qed.

End BlockedFacts.

(** A report row carries a blocked_reason only under the action
    needs_review; the reason is then one of the configured block
    signatures, and the record's employment_url_last_blocked_reason field
    holds the same signature. *)
Theorem reported_block_signature (E : Env) (rec : gmap string value) (s : St)
    (v : value) :
  row_of (rediscover_for_town E rec s) !! "blocked_reason" = Some v ->
  row_of (rediscover_for_town E rec s) !! "action" = Some (VStr "needs_review")
  /\ exists b, v = VStr b /\ In b BLOCKED_PATTERNS
               /\ rec_of (rediscover_for_town E rec s)
                    !! "employment_url_last_blocked_reason" = Some (VStr b).
Proof.
  destruct (rediscover_for_town_cases E rec s)
    as [(Hu & ->)|[(Hu & Hd & ->)|[(Hu & Hd & Ha & ->)|(Hu & Hd & Ha & ->)]]];
    unfold row_of, rec_of; cbn [fst snd];
    try (row_lookup; discriminate).
  rewrite attempt_eq. cbv zeta.
  set (g := gather E _ _ _ s).
  set (base := text_of (dict_get (ensure_homepage E rec) "Town Website")).
  pose proof (validate_loop_blocked E base
                (firstn 40 (sort_desc (score_all E base (dedupe (fst g)))))
                (None, None, None) (snd g)) as Hinv.
  fold (validate_top E base (sort_desc (score_all E base (dedupe (fst g)))) (snd g))
    in Hinv.
  specialize (Hinv ltac:(intros b0; discriminate)).
  set (vt := validate_top E base _ (snd g)) in *. clearbody vt.
  destruct vt as [st s2]. cbn [fst snd] in *.
  destruct (chosen_of st) as [[[[sc new_emp] src] why]|] eqn:Hc.
  - rewrite (decide_outcome_updated _ _ _ _ _ _ _ _ _ _ _ Hc). cbn [fst snd].
    row_lookup. discriminate.
  - destruct (decide (detect_platform (ensure_homepage E rec) = civiclift))
      as [Hciv|Hciv].
    + rewrite Hciv. rewrite (decide_outcome_ephemeral _ _ _ _ _ _ Hc).
      cbn [fst snd]. row_lookup. discriminate.
    + rewrite (decide_outcome_review _ _ _ _ _ _ _ Hc Hciv).
      destruct (snd st) as [b|] eqn:Hb; cbn [fst snd].
      * row_lookup. intros Hv. inversion Hv; subst.
        split; [reflexivity|]. exists b. split; [reflexivity|].
        split; [now apply Hinv|reflexivity].
      * row_lookup. discriminate.
Qed.

Lemma reported_block_signature_witness :
  row_of (rediscover_for_town guarded_env hall_rec St0) !! "blocked_reason"
  = Some (VStr "checking your browser")
  /\ row_of (rediscover_for_town guarded_env hall_rec St0) !! "action"
     = Some (VStr "needs_review").
Proof.
  assert (H : row_of (rediscover_for_town guarded_env hall_rec St0)
                !! "blocked_reason" = Some (VStr "checking your browser"))
    by (vm_compute; reflexivity).
  split; [exact H|].
  exact (proj1 (reported_block_signature guarded_env hall_rec St0 _ H)).
Defined.

(** ** The provenance of the persisted link *)

Section Provenance.

Variable E : Env.

Lemma keep_links_source (keep : string -> string -> bool) (src : string)
    (links : list (string * string)) (c : Candidate) :
  In c (keep_links keep src links) -> source_of c = src.
Proof.
  unfold keep_links. intros H. apply in_map_iff in H as ([u t] & <- & _).
  reflexivity.
Qed.

Lemma homepage_crawl_source (keep : string -> string -> bool)
    (base_home : string) (h_resp : option Response) (c : Candidate) :
  In c (homepage_crawl E keep base_home h_resp) ->
  source_of c = "homepage_link" \/ source_of c = "nav_footer_link".
Proof.
  unfold homepage_crawl. destruct h_resp as [r|]; [|contradiction].
  destruct (usable (Some r)); [|contradiction].
  intros H. apply in_app_or in H as [H|H]; apply keep_links_source in H; auto.
Qed.

Lemma tag_homepage (c : Candidate) :
  source_of c = "homepage_link" \/ source_of c = "nav_footer_link" ->
  In (source_of c) PROVENANCE_TAGS.
Proof. intros [->| ->]; simpl; tauto. Qed.

Lemma search_loop_source (urls : list string) (cand : list Candidate) (s : St) :
  (forall c, In c cand -> In (source_of c) PROVENANCE_TAGS) ->
  forall c, In c (fst (for_each (civicplus_search_step E) urls cand s)) ->
            In (source_of c) PROVENANCE_TAGS.
Proof.
  revert cand s. induction urls as [|u r IH]; intros cand s Hc; [exact Hc|].
  cbn [for_each]. unfold bind.
  assert (Hs : forall c, In c (fst (civicplus_search_step E u cand s)) ->
                         In (source_of c) PROVENANCE_TAGS).
  { unfold civicplus_search_step, bind.
    destruct (get E u s) as [[[resp|] err] s1]; cbn [fst]; [|exact Hc].
    destruct (usable (Some resp)); cbn [fst]; [|exact Hc].
    intros c H. apply in_app_or in H as [H|H]; [now apply Hc|].
    apply keep_links_source in H. rewrite H. simpl. tauto. }
  destruct (civicplus_search_step E u cand s) as [cand' s'].
  now apply IH.
Qed.

Lemma gather_source (platform : Platform) (base_home town : string) (s : St)
    (c : Candidate) :
  In c (fst (gather E platform base_home town s)) ->
  In (source_of c) PROVENANCE_TAGS.
Proof.
  destruct platform; unfold gather.
  - unfold discover_civicplus, bind.
    destruct (get E base_home s) as [[h_resp err] s1].
    assert (H0 : forall c,
               In c (CIVICPLUS_TEMPLATES E base_home
                     ++ homepage_crawl E (civicplus_keep E) base_home h_resp)%list ->
               In (source_of c) PROVENANCE_TAGS).
    { intros c0 H. apply in_app_or in H as [H|H].
      - unfold CIVICPLUS_TEMPLATES in H. apply in_map_iff in H as (p & <- & _).
        simpl. tauto.
      - now apply homepage_crawl_source, tag_homepage in H. }
    assert (Hq : forall c,
               In c (fst (civicplus_quicklinks E base_home
                            (CIVICPLUS_TEMPLATES E base_home
                             ++ homepage_crawl E (civicplus_keep E) base_home h_resp)
                            s1)) ->
               In (source_of c) PROVENANCE_TAGS).
    { unfold civicplus_quicklinks, bind.
      destruct (get E (urljoin E base_home "QuickLinks.aspx") s1)
        as [[[q|] qerr] s2]; cbn [fst]; [|exact H0].
      destruct (usable (Some q)); cbn [fst]; [|exact H0].
      intros c0 H. apply in_app_or in H as [H|H]; [now apply H0|].
      apply keep_links_source in H. rewrite H. simpl. tauto. }
    destruct (civicplus_quicklinks E base_home _ s1) as [cand1 s2].
    cbn [fst] in Hq. revert c. now apply search_loop_source.
  - unfold discover_civiclift, bind.
    destruct (get E base_home s) as [[h_resp err] s1]. cbn [fst ret].
    intros H. apply in_app_or in H as [H|[<-|[]]]; [|simpl; tauto].
    apply in_app_or in H as [H|H].
    + unfold CIVICLIFT_TEMPLATES in H. apply in_map_iff in H as (p & <- & _).
      simpl. tauto.
    + now apply homepage_crawl_source, tag_homepage in H.
  - unfold discover_granicus, bind.
    destruct (get E base_home s) as [[h_resp err] s1]. cbn [fst ret].
    intros H. apply in_app_or in H as [H|H].
    + apply in_app_or in H as [H|H].
      * now apply homepage_crawl_source, tag_homepage in H.
      * unfold GRANICUS_TEMPLATES in H. apply in_map_iff in H as (p & <- & _).
        simpl. tauto.
    + unfold granicus_ats_fallback_candidates in H.
      destruct H as [<-|[<-|[]]]; simpl; tauto.
  - unfold discover_other, bind.
    destruct (get E base_home s) as [[h_resp err] s1]. cbn [fst ret].
    intros H. now apply homepage_crawl_source, tag_homepage in H.
Qed.

Lemma accepted_entry_source (base_home : string) (c : Scored) (pdf : bool)
    (sc : Z) (f src why : string) :
  accepted_entry E base_home c = Some (pdf, (sc, f, src, why)) ->
  exists u t, c = (sc, u, t, src).
Proof.
  destruct c as [[[sc0 u] t] src0]. unfold accepted_entry.
  destruct (tried (sc0, u, t, src0)); [|discriminate].
  destruct (verdict_of E base_home u) as [[[[] [f0|]] why0] b]; try discriminate.
  destruct (nonempty f0); [|discriminate].
  intros H; inversion H; subst. eauto.
Qed.

Lemma validate_top_chosen_source (base_home : string) (scored : list Scored)
    (s : St) (sc : Z) (f src why : string) :
  chosen_of (fst (validate_top E base_home (sort_desc scored) s))
  = Some (sc, f, src, why) ->
  exists u t, In (sc, u, t, src) scored.
Proof.
  rewrite validate_top_chosen.
  assert (Hin : forall c, In c (firstn 40 (sort_desc scored)) -> In c scored).
  { intros c H. apply In_firstn in H. apply list_elem_of_In.
    rewrite <- (sort_desc_perm scored). now apply list_elem_of_In. }
  destruct (first_of (omap (html_entry E base_home) (firstn 40 (sort_desc scored))))
    as [e|] eqn:Hh.
  - intros H; inversion H; subst e.
    apply first_of_omap_Some in Hh as (c & Hc & He).
    unfold html_entry in He.
    destruct (accepted_entry E base_home c) as [[[] e]|] eqn:Ha; try discriminate.
    inversion He; subst e.
    apply accepted_entry_source in Ha as (u & t & ->). eauto.
  - intros Hp. apply first_of_omap_Some in Hp as (c & Hc & He).
    unfold pdf_entry in He.
    destruct (accepted_entry E base_home c) as [[[] e]|] eqn:Ha; try discriminate.
    inversion He; subst e.
    apply accepted_entry_source in Ha as (u & t & ->). eauto.
Qed.

Lemma persisted_provenance (rec : gmap string value) (platform : Platform)
    (sc : Z) (new_emp src why : string) (s : St) :
  persisted E rec platform (sc, new_emp, src, why) s
    !! "employment_url_discovery_method" = Some (VStr src)
  /\ persisted E rec platform (sc, new_emp, src, why) s
       !! "employment_url_change_reason" = Some (VStr ("rediscovered_from_" ++ src))
  /\ persisted E rec platform (sc, new_emp, src, why) s
       !! "employment_url_discovery_score" = Some (VInt sc).
Proof.
  unfold persisted. rewrite update_record_eq. cbn [fst].
  repeat split;
    repeat first [ rewrite lookup_insert_eq
                 | rewrite lookup_insert_ne by discriminate ];
    reflexivity.
Qed.

End Provenance.

(** A reported source is the provenance of a generated candidate: some
    candidate of the platform's generator with an http(s) URL carries it,
    it is one of the nine provenance tags, the record stores it as the
    discovery method and in the change reason, and the stored discovery
    score is the Scorer's score of that candidate's stripped URL. *)
Theorem reported_source_is_generated (E : Env) (rec : gmap string value)
    (s : St) (v : value) :
  row_of (rediscover_for_town E rec s) !! "source" = Some v ->
  exists u0 t src,
    v = VStr src
    /\ In (u0, t, src)
          (fst (gather E (detect_platform (ensure_homepage E rec))
                  (text_of (dict_get (ensure_homepage E rec) "Town Website"))
                  (text_of (or_else (dict_get rec "Town") (VStr "(unknown)"))) s))
    /\ is_url_str u0 = true
    /\ In src PROVENANCE_TAGS
    /\ rec_of (rediscover_for_town E rec s) !! "employment_url_discovery_method"
       = Some (VStr src)
    /\ rec_of (rediscover_for_town E rec s) !! "employment_url_change_reason"
       = Some (VStr ("rediscovered_from_" ++ src))
    /\ rec_of (rediscover_for_town E rec s) !! "employment_url_discovery_score"
       = Some (VInt (score_candidate E (strip u0) t
                       (text_of (dict_get (ensure_homepage E rec) "Town Website"))
                       src)).
Proof.
  destruct (rediscover_for_town_cases E rec s)
    as [(_ & ->)|[(_ & _ & ->)|[(_ & _ & _ & ->)|(_ & _ & _ & ->)]]];
    unfold row_of, rec_of; cbn [fst snd];
    try (row_lookup; discriminate).
  rewrite attempt_eq.
  set (base := text_of (dict_get (ensure_homepage E rec) "Town Website")).
  set (town := text_of (or_else (dict_get rec "Town") (VStr "(unknown)"))).
  set (platform := detect_platform (ensure_homepage E rec)).
  pose proof (gather_source E platform base town s) as Hg.
  set (g := gather E platform base town s) in *.
  pose proof (validate_top_chosen_source E base
                (score_all E base (dedupe (fst g))) (snd g)) as Hsrc.
  destruct (validate_top E base (sort_desc (score_all E base (dedupe (fst g))))
              (snd g)) as [st s2].
  cbn [fst snd] in *.
  destruct (chosen_of st) as [[[[sc new_emp] src] why]|] eqn:Hc.
  - rewrite (decide_outcome_updated _ _ _ _ _ _ _ _ _ _ _ Hc). cbn [fst snd].
    row_lookup. intros Hv. inversion Hv; subst v. clear Hv.
    destruct (Hsrc sc new_emp src why eq_refl) as (u & t & Hin).
    unfold score_all in Hin. apply in_map_iff in Hin as ([[u1 t1] src1] & Heq & Hin).
    inversion Heq; subst. clear Heq.
    apply list_elem_of_In in Hin. unfold dedupe in Hin.
    apply dedupe_from_first in Hin as (pre & u0 & post & Hcand & Hurl & Hstrip & _).
    assert (Hmem : In (u0, t, src) (fst g)).
    { rewrite Hcand. apply in_or_app. right. now left. }
    destruct (persisted_provenance E (gated E rec) platform
                (score_candidate E u t base src) new_emp src why s2)
      as (P1 & P2 & P3).
    exists u0, t, src.
    split; [reflexivity|]. split; [exact Hmem|]. split; [exact Hurl|].
    split; [exact (Hg _ Hmem)|].
    split; [rewrite refresh_application_frame by not_listed; exact P1|].
    split; [rewrite refresh_application_frame by not_listed; exact P2|].
    rewrite refresh_application_frame by not_listed. rewrite Hstrip. exact P3.
  - destruct (decide (platform = civiclift)) as [Hciv|Hciv].
    + rewrite Hciv. rewrite (decide_outcome_ephemeral _ _ _ _ _ _ Hc).
      cbn [fst]. row_lookup. discriminate.
    + rewrite (decide_outcome_review _ _ _ _ _ _ _ Hc Hciv).
      destruct (snd st); cbn [fst]; row_lookup; discriminate.
Qed.

Lemma reported_source_is_generated_witness :
  row_of (rediscover_for_town town_env town_rec St0) !! "source"
  = Some (VStr "homepage_link")
  /\ rec_of (rediscover_for_town town_env town_rec St0)
       !! "employment_url_discovery_method" = Some (VStr "homepage_link").
Proof.
  assert (H : row_of (rediscover_for_town town_env town_rec St0) !! "source"
              = Some (VStr "homepage_link")) by (vm_compute; reflexivity).
  split; [exact H|].
  destruct (reported_source_is_generated town_env town_rec St0 _ H)
    as (u0 & t & src & Hv & _ & _ & _ & Hm & _).
  inversion Hv; subst src. exact Hm.
Defined.

(** ** De-duplication, once more *)

Section DedupeTwice.

Implicit Types (seen : gset string) (cand : list Candidate).

Lemma dedupe_from_clean seen cand (c : Candidate) :
  c ∈ dedupe_from seen cand ->
  is_url_str (url_of c) = true /\ strip (url_of c) = url_of c.
Proof.
  revert seen. induction cand as [|[[u0 t0] s0] r IH]; intros seen; simpl.
  - intros H. now apply elem_of_nil in H.
  - destruct (is_url_str u0) eqn:Hu; simpl; [|apply IH].
    case_bool_decide as Hseen; [apply IH|].
    intros H. apply elem_of_cons in H as [->|H]; [|now apply IH in H].
    unfold url_of. simpl. now rewrite is_url_str_strip, strip_idem.
Qed.

Lemma dedupe_from_fixed seen cand :
  (forall c, c ∈ cand ->
             is_url_str (url_of c) = true /\ strip (url_of c) = url_of c
             /\ url_of c ∉ seen) ->
  NoDup (map url_of cand) ->
  dedupe_from seen cand = cand.
Proof.
  revert seen. induction cand as [|[[u0 t0] s0] r IH]; intros seen Hc Hnd;
    [reflexivity|].
  simpl. destruct (Hc (u0, t0, s0)) as (H1 & H2 & H3); [apply elem_of_cons; now left|].
  unfold url_of in H1, H2, H3. simpl in H1, H2, H3.
  rewrite H1, H2. simpl. rewrite bool_decide_eq_false_2 by exact H3.
  simpl in Hnd. apply NoDup_cons in Hnd as [Hn Hnd].
  f_equal. apply IH; [|exact Hnd].
  intros c Hin. destruct (Hc c) as (C1 & C2 & C3); [apply elem_of_cons; now right|].
  split; [exact C1|]. split; [exact C2|].
  intros Hu. apply elem_of_union in Hu as [Hu|Hu]; [|now apply C3].
  apply elem_of_singleton in Hu. apply Hn. rewrite <- Hu.
  apply list_elem_of_fmap. now exists c.
Qed.

End DedupeTwice.

(** A de-duplicated candidate list is clean and stable: each kept URL is
    an http(s) URL without white space around it, and de-duplicating the
    list again changes nothing. *)
Theorem dedupe_idempotent (cand : list Candidate) :
  (forall c, c ∈ dedupe cand ->
             is_url_str (url_of c) = true /\ strip (url_of c) = url_of c)
  /\ dedupe (dedupe cand) = dedupe cand.
Proof.
  split; [intros c; apply dedupe_from_clean|].
  unfold dedupe. apply dedupe_from_fixed; [|apply dedupe_from_NoDup].
  intros c Hc. destruct (dedupe_from_clean _ _ _ Hc) as [H1 H2].
  split; [exact H1|]. split; [exact H2|]. apply not_elem_of_empty.
Qed.

(** ** The vendor fallback candidates *)

Section Fallback.

Lemma str_app_assoc (a b c : string) : (a ++ b) ++ c = a ++ b ++ c.
Proof.
  induction a as [|ch a IH]; [reflexivity|].
  change (String ch ((a ++ b) ++ c) = String ch (a ++ b ++ c)). now f_equal.
Qed.

Lemma str_app_nil_r (a : string) : a ++ "" = a.
Proof.
  induction a as [|ch a IH]; [reflexivity|].
  change (String ch (a ++ "") = String ch a). now f_equal.
Qed.

Lemma contains_trans (a b c : string) :
  contains a b = true -> contains b c = true -> contains a c = true.
Proof.
  intros Hab Hbc.
  apply contains_inv in Hab as (x & y & ->).
  apply contains_inv in Hbc as (x' & y' & ->).
  replace (x' ++ (x ++ a ++ y) ++ y') with ((x' ++ x) ++ a ++ (y ++ y'))
    by now rewrite !str_app_assoc.
  apply contains_app.
Qed.

Lemma alnum_not_dot (c : ascii) :
  (((97 <=? code c) && (code c <=? 122)) || isdigit c)%N = true ->
  Ascii.eqb "." (lower_char c) = false.
Proof.
  destruct c as [[] [] [] [] [] [] [] []]; vm_compute; intros H;
    first [reflexivity | discriminate H].
Qed.

Lemma keep_alnum_no_dot (x sfx : string) :
  contains "." (lower (keep_alnum x ++ sfx)) = contains "." (lower sfx).
Proof.
  induction x as [|c x IH]; [reflexivity|].
  cbn [keep_alnum].
  destruct ((((97 <=? code c) && (code c <=? 122)) || isdigit c)%N) eqn:Hc;
    [|exact IH].
  change (contains "." (String (lower_char c) (lower (keep_alnum x ++ sfx)))
          = contains "." (lower sfx)).
  cbn [contains startswith]. rewrite (alnum_not_dot c Hc). cbn [andb orb].
  exact IH.
Qed.

Lemma social_needs_dot (k r : string) :
  In k SOCIAL_BLOCK -> contains "." r = false -> contains k r = false.
Proof.
  intros Hk Hr. destruct (contains k r) eqn:Hc; [|reflexivity].
  rewrite <- Hr. symmetry. apply contains_trans with k; [|exact Hc].
  unfold SOCIAL_BLOCK in Hk. simpl in Hk.
  repeat (destruct Hk as [<-|Hk]; [reflexivity|]). contradiction.
Qed.

Lemma social_past_prefix (k r : string) :
  In k SOCIAL_BLOCK ->
  contains k ("https://www.governmentjobs.com/careers/" ++ r) = contains k r.
Proof.
  intros Hk. unfold SOCIAL_BLOCK in Hk. simpl in Hk.
  repeat (destruct Hk as [<-|Hk]; [vm_compute; reflexivity|]). contradiction.
Qed.

Lemma vendor_prefix_lower (r : string) :
  lower ("https://www.governmentjobs.com/careers/" ++ r)
  = "https://www.governmentjobs.com/careers/" ++ lower r.
Proof. now rewrite lower_app. Qed.

Lemma vendor_prefix_not_social (r : string) :
  contains "." (lower r) = false ->
  is_social ("https://www.governmentjobs.com/careers/" ++ r) = false.
Proof.
  intros Hr. unfold is_social, any_in. rewrite vendor_prefix_lower.
  apply not_true_is_false. intros H.
  apply existsb_exists in H as (k & Hk & Hc).
  rewrite (social_past_prefix k _ Hk) in Hc.
  now rewrite (social_needs_dot k _ Hk Hr) in Hc.
Qed.

Lemma vendor_prefix_ats (r : string) :
  is_ats ("https://www.governmentjobs.com/careers/" ++ r) = true.
Proof.
  unfold is_ats. rewrite vendor_prefix_lower.
  apply any_in_intro with "governmentjobs.com"; [simpl; tauto|].
  change ("https://www.governmentjobs.com/careers/" ++ lower r)
    with ("https://www." ++ "governmentjobs.com" ++ ("/careers/" ++ lower r)).
  apply contains_app.
Qed.

Lemma vendor_prefix_careers (r : string) :
  contains "careers" (lower ("https://www.governmentjobs.com/careers/" ++ r)) = true.
Proof.
  rewrite vendor_prefix_lower.
  change ("https://www.governmentjobs.com/careers/" ++ lower r)
    with ("https://www.governmentjobs.com/" ++ "careers" ++ ("/" ++ lower r)).
  apply contains_app.
Qed.

Lemma vendor_prefix_url (r : string) :
  is_url_str ("https://www.governmentjobs.com/careers/" ++ r) = true.
Proof.
  unfold is_url_str, strip.
  change (lstrip ("https://www.governmentjobs.com/careers/" ++ r))
    with ("https://www.governmentjobs.com/careers/" ++ r).
  change ("https://www.governmentjobs.com/careers/" ++ r)
    with (String "h" (String "t" (String "t" (String "p" (String "s"
            (String ":" (String "/" (String "/"
               ("www.governmentjobs.com/careers/" ++ r))))))))).
  rewrite !rstrip_cons_nonspace by reflexivity.
  reflexivity.
Qed.

End Fallback.

(** The two vendor fallback candidates of a Granicus site are always
    worth trying, whatever the town name: each carries the provenance
    ats_fallback, is an https URL that the engine recognises as a vendor
    URL and never as a social link, and scores at least 80, so the
    validation loop never passes it over for its score. *)
Theorem fallback_candidates_are_tried (E : Env) (town base_home : string)
    (c : Candidate) :
  In c (granicus_ats_fallback_candidates town) ->
  source_of c = "ats_fallback"
  /\ is_url_str (url_of c) = true
  /\ is_ats (url_of c) = true
  /\ is_social (url_of c) = false
  /\ 80 <= score_candidate E (url_of c) (snd (fst c)) base_home (source_of c).
Proof.
  unfold granicus_ats_fallback_candidates.
  set (slug := keep_alnum (lower town)).
  assert (Hscore : forall r label,
             contains "." (lower r) = false ->
             kw_hit (lower label) = true ->
             80 <= score_candidate E ("https://www.governmentjobs.com/careers/" ++ r)
                     label base_home "ats_fallback").
  { intros r label Hr Hl.
    rewrite (score_candidate_chain E _ _ _ _ (vendor_prefix_not_social r Hr)).
    rewrite vendor_prefix_ats, Hl.
    assert (Hk : kw_hit (lower ("https://www.governmentjobs.com/careers/" ++ r))
                 = true).
    { rewrite kw_hit_lower. unfold kw_hit.
      apply any_in_intro with "careers"; [simpl; tauto|].
      apply vendor_prefix_careers. }
    assert (Ht : any_in URL_TOKENS
                   (lower ("https://www.governmentjobs.com/careers/" ++ r)) = true).
    { apply any_in_intro with "careers"; [simpl; tauto|].
      apply vendor_prefix_careers. }
    rewrite Hk, Ht. cbn [negb orb]. rewrite !andb_false_r.
    unfold bump.
    repeat match goal with
           | |- context [if ?b then _ else _] => destruct b
           end; lia. }
  intros [<-|[<-|[]]]; unfold source_of, url_of; cbn [fst snd].
  - assert (Hr : contains "." (lower (slug ++ "ct")) = false)
      by (unfold slug; now rewrite keep_alnum_no_dot).
    split; [reflexivity|]. split; [apply vendor_prefix_url|].
    split; [apply vendor_prefix_ats|].
    split; [now apply vendor_prefix_not_social|].
    apply Hscore; [exact Hr|reflexivity].
  - assert (Hr : contains "." (lower slug) = false).
    { rewrite <- (str_app_nil_r slug). unfold slug.
      now rewrite keep_alnum_no_dot. }
    split; [reflexivity|]. split; [apply vendor_prefix_url|].
    split; [apply vendor_prefix_ats|].
    split; [now apply vendor_prefix_not_social|].
    apply Hscore; [exact Hr|reflexivity].
Qed.

Lemma fallback_candidates_are_tried_witness :
  is_ats "https://www.governmentjobs.com/careers/essexct" = true
  /\ is_social "https://www.governmentjobs.com/careers/essexct" = false.
Proof.
  destruct (fallback_candidates_are_tried dead_env "Essex" essex_home
              ("https://www.governmentjobs.com/careers/essexct",
               "ATS_FALLBACK:governmentjobs_slug_ct", "ats_fallback"))
    as (_ & _ & H1 & H2 & _); [left; reflexivity|].
  split; [exact H1|exact H2].
Defined.

(** ** A site without a usable homepage *)

(** On a site of no known platform the homepage is the only source of
    candidates.  When its fetch fails, answers with a status of 400 or
    more, or shows a soft 404, an attempted run makes that one request
    and no other, reads no clock, reports needs_review with the reason
    no_candidate_validated and no block signature, and leaves the record
    as the gates left it. *)
Theorem other_site_without_homepage (E : Env) (rec : gmap string value) (s : St) :
  passes_gates E rec = true ->
  detect_platform (ensure_homepage E rec) = other ->
  homepage_usable E (text_of (dict_get (ensure_homepage E rec) "Town Website"))
  = false ->
  rediscover_for_town E rec s
  = (review_row (or_else (dict_get rec "Town") (VStr "(unknown)")) (VStr "other"),
     gated E rec,
     logged s (text_of (dict_get (ensure_homepage E rec) "Town Website"))).
Proof.
  intros Hg Hp Hu. unfold passes_gates in Hg.
  apply andb_true_iff in Hg as [Hurl Hsa].
  destruct (rediscover_for_town_cases E rec s)
    as [(C & _)|[(_ & C & _)|[(_ & _ & C & _)|(_ & _ & _ & ->)]]];
    try congruence.
  { exfalso. unfold should_attempt in Hsa. now rewrite C in Hsa. }
  rewrite attempt_eq. rewrite Hp. cbv zeta.
  set (base := text_of (dict_get (ensure_homepage E rec) "Town Website")) in *.
  assert (Hgather : gather E other base
                      (text_of (or_else (dict_get rec "Town") (VStr "(unknown)"))) s
                    = ([], logged s base)).
  { unfold gather, discover_other, bind, get, homepage_usable in *.
    destruct (requests_get E base) as [r|e]; [|reflexivity].
    unfold homepage_crawl. rewrite Hu. reflexivity. }
  rewrite Hgather. cbn [fst snd].
  change (validate_top E base (sort_desc (score_all E base (dedupe []))) (logged s base))
    with ((None, None, None) : LoopState, logged s base).
  cbn [fst snd].
  rewrite decide_outcome_review by (reflexivity || discriminate).
  reflexivity.
Qed.

Lemma other_site_without_homepage_witness :
  rediscover_for_town gone_env hall_rec St0
  = (review_row (VStr "Essex") (VStr "other"), gated gone_env hall_rec,
     logged St0 "https://www.town.gov/").
Proof.
  exact (other_site_without_homepage gone_env hall_rec St0
           ltac:(vm_compute; reflexivity) ltac:(vm_compute; reflexivity)
           ltac:(vm_compute; reflexivity)).
Defined.
